(** * Legal research API: the multi-source aggregation pipeline

    A shallow embedding of the request-facing core of [index.js]
    (deduplication, relevance ranking, pagination, the search handler with
    its result cache and persistence sink, the citation lookup) and of the
    scraping adapters of the web-scraper module, with the properties of the
    design document stated and settled against that code.

    Conventions.
    - A JavaScript property that may hold a string, [null] or [undefined] is
      a [value]; a thrown [TypeError] is the [Throw] outcome.
    - JavaScript numbers that carry scores are IEEE 754 binary64 values,
      computed with the Standard Library's specification of floating-point
      arithmetic.  Page numbers, limits and lengths are integers.
    - Strings are byte strings.  [toLowerCase] is modelled on strings of
      ASCII characters, where it folds the letters A to Z; the properties
      whose truth depends on the folding are stated for such strings.
    - A plain object is the list of its own properties in enumeration
      order; what it inherits from [Object.prototype] is modelled where the
      code can reach it (the setter [__proto__], reads by a computed name).
    - [new URL] is modelled for [http:] and [https:] URLs with a plain host
      name and path, on which its result is exact; see [URL_parse].
    - [async] code is run sequentially, one request at a time, in the order
      in which the source starts its calls; every observable effect is
      appended to a trace of events. *)

From Stdlib Require Import QArith SpecFloat Ascii String.
From stdpp Require Import gmap strings list sorting pretty.

Close Scope Q_scope.
Open Scope Z_scope.

(** ** JavaScript values, strings and numbers *)

Inductive value : Type :=
  | Undefined
  | Null
  | Str (s : string).

Global Instance value_eq_dec : EqDecision value.
Proof. solve_decision. Defined.

(** ToBoolean on a [value]: only a non-empty string is truthy. *)
Definition truthy (v : value) : bool :=
  match v with
  | Str s => negb (String.eqb s "")
  | _ => false
  end.

(** [a || b]. *)
Definition js_or (a b : value) : value := if truthy a then a else b.

(** [`${v}`]: ToString inside a template literal. *)
Definition template (v : value) : string :=
  match v with
  | Undefined => "undefined"
  | Null => "null"
  | Str s => s
  end.

(** The outcome of an expression that may throw. *)
Inductive outcome (A : Type) : Type :=
  | Ok (a : A)
  | Throw.
Arguments Ok {A} a.
Arguments Throw {A}.

Definition obind {A B} (m : outcome A) (k : A -> outcome B) : outcome B :=
  match m with
  | Ok a => k a
  | Throw => Throw
  end.

Notation "'try!' x := m 'in' k" := (obind m (fun x => k))
  (at level 10, x name, m at level 100, k at level 200).

Definition lower_ascii (c : ascii) : ascii :=
  let n := nat_of_ascii c in
  if ((65 <=? n)%nat && (n <=? 90)%nat)%bool then ascii_of_nat (n + 32) else c.

Fixpoint lower (s : string) : string :=
  match s with
  | EmptyString => EmptyString
  | String c s' => String (lower_ascii c) (lower s')
  end.

(** [v.toLowerCase()]: a [TypeError] unless [v] is a string. *)
Definition toLowerCase (v : value) : outcome string :=
  match v with
  | Str s => Ok (lower s)
  | _ => Throw
  end.

(** [s.includes(t)]: [t] occurs in [s] as a substring. *)
Fixpoint includes (s t : string) : bool :=
  String.prefix t s ||
  match s with
  | EmptyString => false
  | String _ s' => includes s' t
  end.

(** [s] holds ASCII characters only. *)
Fixpoint ascii_only (s : string) : bool :=
  match s with
  | EmptyString => true
  | String c s' => (nat_of_ascii c <? 128)%nat && ascii_only s'
  end.

(** Numbers: IEEE 754 binary64 values (53 bits of precision), with the
    operations rounding to nearest, ties to even. *)
Definition number : Type := spec_float.

Definition prec64 : Z := 53.
Definition emax64 : Z := 1024.

(** The Number value of an integer. *)
Definition Num (z : Z) : number := binary_normalize prec64 emax64 z 0 false.

Definition NaN : number := S754_nan.

Definition nadd : number -> number -> number := SFadd prec64 emax64.
Definition nsub : number -> number -> number := SFsub prec64 emax64.
Definition ndiv : number -> number -> number := SFdiv prec64 emax64.

(** [x > 0]; a comparison with [NaN] is false. *)
Definition npos (x : number) : bool := SFltb (Num 0) x.

(** ** Records *)

(** The common record shape.  [inDatabase] holds the truthiness of the
    property of that name (absent means [false]). *)
Record result : Type := mkResult {
  rid : value;
  title : value;
  content : value;
  court : value;
  authors : value;
  date : value;
  url : value;
  source : value;
  inDatabase : bool
}.

Global Instance result_eq_dec : EqDecision result.
Proof. solve_decision. Defined.

(** The row [storeResultsInDatabase] writes for a record: its id, title,
    content, court, date, URL and source. *)
Definition stored_row (r : result) : result :=
  {| rid := rid r; title := title r; content := content r; court := court r;
     authors := Undefined; date := date r; url := url r; source := source r;
     inDatabase := false |}.

(** ** Deduplication ([deduplicateResults]) *)

(** [`${result.title}-${result.court || result.source}`] *)
Definition dedup_key (r : result) : string :=
  template (title r) +:+ "-" +:+ template (js_or (court r) (source r)).

(** The [filter] callback threads the mutable set [seen]. *)
Fixpoint dedup_from (seen : gset string) (results : list result) : list result :=
  match results with
  | [] => []
  | r :: rest =>
      let key := dedup_key r in
      if decide (key ∈ seen) then dedup_from seen rest
      else r :: dedup_from ({[ key ]} ∪ seen) rest
  end.

Definition deduplicateResults (results : list result) : list result :=
  dedup_from ∅ results.

(** ** Pagination ([paginateResults]) *)

(** [Array.prototype.slice(start, end)] for integer arguments: a negative
    index counts from the end, both are clamped to the length. *)
Definition slice {A} (l : list A) (start final : Z) : list A :=
  let len := Z.of_nat (length l) in
  let k := if start <? 0 then Z.max (len + start) 0 else Z.min start len in
  let e := if final <? 0 then Z.max (len + final) 0 else Z.min final len in
  take (Z.to_nat (e - k)) (drop (Z.to_nat k) l).

(** [Math.ceil(a / b)] for integers; [None] when the quotient is not finite
    (division by zero). *)
Definition Math_ceil_div (a b : Z) : option Z :=
  if b =? 0 then None else Some (- ((- a) / b)).

Record pagination : Type := mkPagination {
  total : Z;
  page : Z;
  limit : Z;
  pages : option Z
}.

Record resultPage : Type := mkPage {
  results : list result;
  pageInfo : pagination
}.

Definition paginateResults (rs : list result) (page limit : Z) : resultPage :=
  let startIndex := (page - 1) * limit in
  let endIndex := page * limit in
  {| results := slice rs startIndex endIndex;
     pageInfo := {| total := Z.of_nat (length rs);
                    page := page;
                    limit := limit;
                    pages := Math_ceil_div (Z.of_nat (length rs)) limit |} |}.

(** ** Ranking ([sortResultsByRelevance]) *)

(** [Array.prototype.sort(cmp)].  The language requires a stable sort and
    fixes the result whenever [cmp] is a consistent comparison; it is
    modelled by a stable insertion sort, which returns that result.  Where
    [cmp] is not consistent (here: where it returns [NaN], which the sort
    reads as zero) the language leaves the order to the engine; the
    properties below that speak of the order are stated for records whose
    comparisons never return [NaN].  An exception thrown by [cmp] aborts the
    sort. *)
Fixpoint sort_insert {A} (cmp : A -> A -> outcome number) (x : A) (sorted : list A)
  : outcome (list A) :=
  match sorted with
  | [] => Ok [x]
  | y :: rest =>
      try! c := cmp x y in
      if npos c then (try! r := sort_insert cmp x rest in Ok (y :: r))
      else Ok (x :: sorted)
  end.

Fixpoint Array_sort {A} (cmp : A -> A -> outcome number) (l : list A)
  : outcome (list A) :=
  match l with
  | [] => Ok []
  | x :: rest => try! s := Array_sort cmp rest in sort_insert cmp x s
  end.

(** The order of a ranking: keys descend. *)
Definition descending {A} (key : A -> Z) : A -> A -> Prop :=
  fun a b => key b <= key a.

(** The elements of one score class, in list order. *)
Definition score_class {A} (key : A -> Z) (k : Z) (l : list A) : list A :=
  List.filter (fun a => key a =? k) l.

Section Ranking.

(** [new Date(s).getTime()] for a string [s]: the milliseconds since the
    epoch, or [None] for an Invalid Date (whose time value is [NaN]).
    Date parsing belongs to the JavaScript engine, so it is a parameter. *)
Variable Date_getTime : string -> option Z.

Definition getTime (s : string) : number :=
  match Date_getTime s with
  | Some ms => Num ms
  | None => NaN
  end.

(** [r.date ? new Date(r.date).getTime() : 0] *)
Definition dateScore (r : result) : number :=
  match date r with
  | Str s => if truthy (Str s) then getTime s else Num 0
  | _ => Num 0
  end.

(** The comparator passed to [sort], statement by statement;
    [query.toLowerCase()] throws when the query is not a string. *)
Definition compareRelevance (query : value) (a b : result) : outcome number :=
  try! titleA := toLowerCase (title a) in
  try! q := toLowerCase query in
  let titleScoreA := if includes titleA q then Num 10 else Num 0 in
  try! titleB := toLowerCase (title b) in
  let titleScoreB := if includes titleB q then Num 10 else Num 0 in
  try! contentA := toLowerCase (content a) in
  let contentScoreA := if includes contentA q then Num 5 else Num 0 in
  try! contentB := toLowerCase (content b) in
  let contentScoreB := if includes contentB q then Num 5 else Num 0 in
  let dateScoreA := dateScore a in
  let dateScoreB := dateScore b in
  let totalScoreA :=
    nadd (nadd titleScoreA contentScoreA) (ndiv dateScoreA (Num 10000000000)) in
  let totalScoreB :=
    nadd (nadd titleScoreB contentScoreB) (ndiv dateScoreB (Num 10000000000)) in
  Ok (nsub totalScoreB totalScoreA).

Definition sortResultsByRelevance (rs : list result) (query : value)
  : outcome (list result) :=
  Array_sort (compareRelevance query) rs.

(** *** The score of one record, as the comparator computes it *)

(** The text-match component: 10 for the title, 5 for the content. *)
Definition textScore (query : value) (r : result) : outcome Q :=
  try! t := toLowerCase (title r) in
  try! q := toLowerCase query in
  try! c := toLowerCase (content r) in
  Ok ((if includes t q then 10 else 0) + (if includes c q then 5 else 0))%Q.

(** The recency term. *)
Definition recency (r : result) : number :=
  ndiv (dateScore r) (Num 10000000000).

(** [titleScore + contentScore + (dateScore / 10000000000)] *)
Definition totalScore (query : value) (r : result) : outcome number :=
  try! t := toLowerCase (title r) in
  try! q := toLowerCase query in
  try! c := toLowerCase (content r) in
  Ok (nadd (nadd (if includes t q then Num 10 else Num 0)
                 (if includes c q then Num 5 else Num 0))
           (recency r)).

End Ranking.

(** A record with a string title and a string content. *)
Definition has_text (r : result) : Prop :=
  (exists t, title r = Str t) /\ (exists c, content r = Str c).

(** A record whose title and content are strings of ASCII characters. *)
Definition ascii_text (r : result) : Prop :=
  exists t c, title r = Str t /\ content r = Str c
              /\ ascii_only t = true /\ ascii_only c = true.

(** A record whose date is absent or empty. *)
Definition undated (r : result) : Prop := truthy (date r) = false.

(** A string of ASCII characters, or no string at all. *)
Definition ascii_value (v : value) : Prop :=
  match v with
  | Str s => ascii_only s = true
  | _ => True
  end.

(** A record on which the model of the ranking is exact: its date is absent
    or one that the engine parses, to a time value a [Date] can hold (at
    most 8.64e15 milliseconds from the epoch), and its title and content
    are ASCII where they are strings.  The comparator is then a consistent
    comparison on such records, which fixes the order of the sort. *)
Definition plain (Date_getTime : string -> option Z) (r : result) : Prop :=
  match date r with
  | Str s => truthy (Str s) = true ->
             exists ms, Date_getTime s = Some ms /\ Z.abs ms <= 8640000000000000
  | _ => True
  end
  /\ ascii_value (title r) /\ ascii_value (content r).

(** The text-match component of a record with text: 10 for a query found in
    the title, 5 for one found in the content. *)
Definition matchScore (q : string) (r : result) : Z :=
  match title r, content r with
  | Str t, Str c =>
      (if includes (lower t) (lower q) then 10 else 0)
      + (if includes (lower c) (lower q) then 5 else 0)
  | _, _ => 0
  end.

(** ** Strings: [split], [encodeURIComponent], [new URL] *)

(** [s.split(c)] for a one-character separator. *)
Fixpoint split_on (c : ascii) (s : string) : list string :=
  match s with
  | EmptyString => [""]
  | String a s' =>
      if Ascii.eqb a c then "" :: split_on c s'
      else match split_on c s' with
           | [] => [String a ""]
           | piece :: pieces => String a piece :: pieces
           end
  end.

Definition hex_digit (n : nat) : ascii :=
  if (n <? 10)%nat then ascii_of_nat (48 + n) else ascii_of_nat (55 + n).

Definition uri_unreserved (c : ascii) : bool :=
  let n := nat_of_ascii c in
  (((48 <=? n) && (n <=? 57)) || ((65 <=? n) && (n <=? 90))
   || ((97 <=? n) && (n <=? 122)))%nat
  || bool_decide (c ∈ ["-"; "_"; "."; "!"; "~"; "*"; "'"; "("; ")"]%char).

(** [encodeURIComponent(s)] on a byte string. *)
Fixpoint encodeURIComponent (s : string) : string :=
  match s with
  | EmptyString => EmptyString
  | String c s' =>
      if uri_unreserved c then String c (encodeURIComponent s')
      else let n := nat_of_ascii c in
           String "%" (String (hex_digit (n / 16)) (String (hex_digit (n mod 16))
             (encodeURIComponent s')))
  end.

Fixpoint take_until (stop : ascii -> bool) (s : string) : string :=
  match s with
  | EmptyString => EmptyString
  | String c s' => if stop c then EmptyString else String c (take_until stop s')
  end.

Fixpoint drop_until (stop : ascii -> bool) (s : string) : string :=
  match s with
  | EmptyString => EmptyString
  | String c s' => if stop c then s else drop_until stop s'
  end.

(** The rest of [s] after its prefix [p], a string of lower-case letters
    and signs that [s] may spell in either case. *)
Fixpoint strip_prefix (p s : string) : option string :=
  match p, s with
  | EmptyString, _ => Some s
  | String a p', String b s' =>
      if Ascii.eqb a (lower_ascii b) then strip_prefix p' s' else None
  | String _ _, EmptyString => None
  end.

(** The character [c] occurs in [s]. *)
Fixpoint has_char (c : ascii) (s : string) : bool :=
  match s with
  | EmptyString => false
  | String a s' => Ascii.eqb a c || has_char c s'
  end.

Fixpoint all_chars (ok : ascii -> bool) (s : string) : bool :=
  match s with
  | EmptyString => true
  | String c s' => ok c && all_chars ok s'
  end.

(** The part of [s] after the last [c], all of [s] when it has none. *)
Fixpoint after_last (c : ascii) (s : string) : string :=
  match s with
  | EmptyString => EmptyString
  | String a s' =>
      if has_char c s' then after_last c s'
      else if Ascii.eqb a c then s' else s
  end.

Fixpoint skip_slashes (s : string) : string :=
  match s with
  | String c s' => if bool_decide (c ∈ ["/"; "\"]%char) then skip_slashes s' else s
  | EmptyString => EmptyString
  end.

(** The value of a decimal numeral. *)
Definition digit (c : ascii) : option Z :=
  let n := nat_of_ascii c in
  if ((48 <=? n) && (n <=? 57))%nat then Some (Z.of_nat (n - 48)) else None.

Fixpoint digits (acc : Z) (cs : list ascii) : option Z :=
  match cs with
  | [] => Some acc
  | c :: cs' => match digit c with
                | Some d => digits (10 * acc + d) cs'
                | None => None
                end
  end.

Definition is_letter (c : ascii) : bool :=
  let n := nat_of_ascii c in
  (((65 <=? n) && (n <=? 90)) || ((97 <=? n) && (n <=? 122)))%nat.

Definition is_digit (c : ascii) : bool :=
  let n := nat_of_ascii c in ((48 <=? n) && (n <=? 57))%nat.

(** A label of a host name: letters, digits and inner hyphens, and no
    [xn--] prefix (which would make it an internationalised label). *)
Definition label_ok (l : string) : bool :=
  negb (String.eqb l "")
  && all_chars (fun c => is_letter c || is_digit c || Ascii.eqb c "-") l
  && negb (String.prefix "-" l)
  && negb (String.eqb (String.substring (String.length l - 1) 1 l) "-")
  && negb (String.prefix "xn--" l).

(** The host name [new URL] derives from the host part [h] of an authority:
    [h] in lower case, when it is a sequence of labels separated by dots,
    with at most one dot at the end, whose last label does not start with a
    digit (which could make the host an IPv4 address). *)
Definition host_of (h : string) : option string :=
  let host := lower h in
  let labels := split_on "." host in
  let labels := match reverse labels with
                | "" :: ((_ :: _) as front) => reverse front
                | _ => labels
                end in
  if forallb label_ok labels
     && match reverse labels with
        | String c _ :: _ => negb (is_digit c)
        | _ => false
        end
  then Some host else None.

(** A port: decimal digits, none at all, or a value up to 65535. *)
Definition port_ok (p : string) : bool :=
  match digits 0 (list_ascii_of_string p) with
  | Some n => n <=? 65535
  | None => false
  end.

(** A path [new URL] takes as it is written: empty or starting with a
    slash, of characters the parser does not encode, and with no segment
    that stands for [.] or [..]. *)
Definition path_ok (p : string) : bool :=
  (String.eqb p "" || String.prefix "/" p)
  && all_chars (fun c => is_letter c || is_digit c
                         || bool_decide (c ∈ list_ascii_of_string "-._~!$&'()*+,;=:@/%")) p
  && forallb (fun seg => negb (bool_decide
                (lower seg ∈ ["."; ".."; "%2e"; ".%2e"; "%2e."; "%2e%2e"])))
             (split_on "/" p).

Record URL : Type := mkURL { hostname : string; pathname : string }.

(** [new URL(url)], of which the code reads [hostname] and [pathname].  An
    absolute [http:] or [https:] URL is parsed as the URL Standard lays
    down: the scheme in either case, any run of slashes and backslashes
    after it, user information up to the last [@], the host name in lower
    case (see [host_of]), an optional port (see [port_ok]), and the path up
    to the query or fragment (see [path_ok]).  An [Ok] result is the URL
    [new URL] returns.  What else the standard accepts (other schemes, IP
    addresses, internationalised or percent-encoded host names, paths and
    surrounding white space the parser would rewrite) is outside this model
    and answered with [Throw], like the strings the standard rejects with a
    [TypeError]; among these are all strings without a colon. *)
Definition URL_parse (url : string) : outcome URL :=
  let rest :=
    match strip_prefix "https:" url with
    | Some r => Some r
    | None => strip_prefix "http:" url
    end in
  match rest with
  | None => Throw
  | Some r =>
      let r := skip_slashes r in
      let is_end c := bool_decide (c ∈ ["/"; "\"; "?"; "#"]%char) in
      let authority := after_last "@" (take_until is_end r) in
      let after := drop_until is_end r in
      let is_colon c := Ascii.eqb c ":" in
      let port := match drop_until is_colon authority with
                  | String _ p => p
                  | EmptyString => EmptyString
                  end in
      match host_of (take_until is_colon authority) with
      | Some host =>
          let path := take_until (fun c => bool_decide (c ∈ ["?"; "#"]%char)) after in
          if port_ok port && path_ok path
          then Ok {| hostname := host;
                     pathname := if String.eqb path "" then "/" else path |}
          else Throw
      | None => Throw
      end
  end.

(** [url.split('/').pop()] *)
Definition last_segment (url : string) : string :=
  List.last (split_on "/" url) "".

(** ** Objects and filters ([parseFilters]) *)

(** A plain object: its own enumerable string-keyed properties in their
    enumeration order, which is the array indices in ascending order followed
    by the other keys in the order of their creation. *)
Definition object := list (string * string).

(** The array index a property key denotes, if it is one: a canonical
    numeral (no sign, no leading zero) below 2^32 - 1. *)
Definition array_index (k : string) : option Z :=
  match list_ascii_of_string k with
  | [] => None
  | "0"%char :: _ :: _ => None
  | cs => match digits 0 cs with
          | Some n => if n <? 4294967295 then Some n else None
          | None => None
          end
  end.

(** The own property [k], if there is one. *)
Fixpoint obj_get {V} (k : string) (o : list (string * V)) : option V :=
  match o with
  | [] => None
  | (k', v) :: o' => if String.eqb k k' then Some v else obj_get k o'
  end.

(** A new value for the own property [k], which keeps its place. *)
Fixpoint obj_replace {V} (k : string) (v : V) (o : list (string * V))
  : list (string * V) :=
  match o with
  | [] => []
  | (k', v') :: o' =>
      if String.eqb k k' then (k, v) :: o' else (k', v') :: obj_replace k v o'
  end.

(** A new own property whose key is the array index [i], at its place among
    the array indices. *)
Fixpoint obj_insert_index {V} (i : Z) (k : string) (v : V) (o : list (string * V))
  : list (string * V) :=
  match o with
  | [] => [(k, v)]
  | (k', v') :: o' =>
      match array_index k' with
      | Some j => if j <? i then (k', v') :: obj_insert_index i k v o'
                  else (k, v) :: o
      | None => (k, v) :: o
      end
  end.

(** The own property [k] defined with the value [v]. *)
Definition obj_set {V} (k : string) (v : V) (o : list (string * V))
  : list (string * V) :=
  match obj_get k o with
  | Some _ => obj_replace k v o
  | None =>
      match array_index k with
      | Some i => obj_insert_index i k v o
      | None => o ++ [(k, v)]
      end
  end.

(** [o[k] = v] for a string [v] on an object made by [{}]: [__proto__] is an
    accessor inherited from [Object.prototype] whose setter ignores a
    string, every other key becomes or stays an own property. *)
Definition obj_assign (k v : string) (o : object) : object :=
  if String.eqb k "__proto__" then o else obj_set k v o.

(** [{...a, ...b}]: the properties of [b] are defined over those of [a]. *)
Definition obj_spread {V} (a b : list (string * V)) : list (string * V) :=
  fold_left (fun o kv => obj_set (fst kv) (snd kv) o) b a.

(** The properties of an object of strings as values. *)
Definition as_values (o : object) : list (string * value) :=
  map (fun kv => (fst kv, Str (snd kv))) o.

Definition parseFilters (filterString : value) : object :=
  if negb (truthy filterString) then []
  else
    let filterParts := split_on "," (template filterString) in
    fold_left
      (fun filters part =>
         match split_on ":" part with
         | key :: value :: _ =>
             if (truthy (Str key) && truthy (Str value))%bool
             then obj_assign key value filters else filters
         | _ => filters
         end)
      filterParts [].

(** ** The store and the upstreams *)

(** A row of [legal_cases], with the columns of the schema migration. *)
Record legal_case : Type := mkCase {
  lc_id : string;
  lc_title : string;             (* TEXT NOT NULL *)
  lc_content : option string;    (* nullable *)
  lc_court : option string;
  lc_decision_date : option string;
  lc_judges : option string;
  lc_url : option string;
  lc_source : option string;
  lc_created_at : string;
  lc_updated_at : string
}.

Definition nullable (c : option string) : value :=
  match c with
  | Some s => Str s
  | None => Null
  end.

(** The row object the pipeline reads through the properties of a record:
    the table has no [date], [authors] or [inDatabase] column, so these
    properties are absent. *)
Definition row_object (row : legal_case) : result :=
  {| rid := Str (lc_id row);
     title := Str (lc_title row);
     content := nullable (lc_content row);
     court := nullable (lc_court row);
     authors := Undefined;
     date := Undefined;
     url := nullable (lc_url row);
     source := nullable (lc_source row);
     inDatabase := false |}.

(** One end of a citation edge, as selected from [citations]. *)
Record citation : Type := mkCitation { cit_id : string; cit_title : string }.

(** An item of a CourtListener search response. *)
Record cl_result : Type := mkCl {
  cl_id : value; caseName : value; snippet : value; court_name : value;
  dateFiled : value; absolute_url : value
}.

(** An item of a Caselaw Access Project response; [cap_court] is the nested
    [court] object, when present, reduced to its [name]. *)
Record cap_result : Type := mkCap {
  cap_id : value; cap_name : value; preview : value; cap_court : option value;
  decision_date : value; cap_url : value
}.

(** An entry of a PubMed summary response. *)
Record pm_result : Type := mkPm {
  uid : value; pm_title : value; description : value;
  pm_authors : option (list string); pubdate : value
}.

(** An element matched by a cheerio selector, seen through the three
    accessors the extraction code uses. *)
Record element : Type := mkElement {
  find_text : string -> string;          (* $(el).find(sel).text().trim() *)
  find_attr : string -> string -> value; (* $(el).find(sel).attr(name) *)
  data_attr : string -> value            (* $(el).data(name) *)
}.

(** [response.data] of an HTTP response. *)
Inductive payload : Type :=
  | Body (text : string)
  | CourtListenerResults (rs : list cl_result)
  | CaselawResults (rs : list cap_result)
  | PubMedSearch (idlist : option (list string))
  | PubMedSummary (rs : list pm_result).

(** Everything outside the process: the store, the network, and the HTML
    and date matching of the scraped pages.  [None] is a failed call (an
    error result of the store client, a rejected HTTP request). *)
Record World : Type := mkWorld {
  legal_cases_search : string -> Z -> Z -> option (option (list legal_case));
  citations_by_target : string -> option (option (list citation));
  citations_by_source : string -> option (option (list citation));
  upsert : string -> list result -> bool;
  http_get : string -> object -> option payload;
  cheerio_select : string -> string -> list element;
  match_date : string -> option string   (* meta.match(/(\w+ \d+, \d{4})/) *)
}.

(** Observable effects. *)
Inductive event : Type :=
  | StoreSearch (filter : string) (first last : Z)
  | StoreUpsert (table : string) (rows : list result)
  | CitationsByTarget (id : string)
  | CitationsBySource (id : string)
  | RateLimit (limiter : string)
  | HttpGet (url : string) (params : object)
  | Log (message : string).

(** ** The result cache (lru-cache: [max] 1000 entries, [maxAge] 24 hours) *)

Record cache_entry : Type := mkEntry {
  ce_key : string;
  ce_value : resultPage;
  ce_time : Z
}.

(** Entries from most to least recently used. *)
Abbreviation LRUCache := (list cache_entry).

Definition cache_max : nat := 1000.
Definition cache_maxAge : Z := 1000 * 60 * 60 * 24.

Definition cache_remove (key : string) (c : LRUCache) : LRUCache :=
  filter (fun e => ce_key e ≠ key) c.

Definition cache_find (key : string) (c : LRUCache) : option cache_entry :=
  List.find (fun e => String.eqb (ce_key e) key) c.

(** [cache.get(key)] at time [now]: a stale entry is dropped and misses, a
    live one becomes the most recently used. *)
Definition cache_get (key : string) (now : Z) (c : LRUCache)
  : option resultPage * LRUCache :=
  match cache_find key c with
  | None => (None, c)
  | Some e =>
      if cache_maxAge <? now - ce_time e then (None, cache_remove key c)
      else (Some (ce_value e), e :: cache_remove key c)
  end.

(** [cache.set(key, value)] at time [now]; the least recently used entries
    beyond [max] are evicted. *)
Definition cache_set (key : string) (v : resultPage) (now : Z) (c : LRUCache)
  : LRUCache :=
  take cache_max (mkEntry key v now :: cache_remove key c).

(** A use of the cache, and a sequence of uses. *)
Inductive cache_op : Type :=
  | CacheGet (key : string) (now : Z)
  | CacheSet (key : string) (v : resultPage) (now : Z).

Definition op_key (op : cache_op) : string :=
  match op with
  | CacheGet key _ => key
  | CacheSet key _ _ => key
  end.

Definition cache_apply (c : LRUCache) (op : cache_op) : LRUCache :=
  match op with
  | CacheGet key now => snd (cache_get key now c)
  | CacheSet key v now => cache_set key v now c
  end.

Definition cache_run (ops : list cache_op) (c : LRUCache) : LRUCache :=
  fold_left cache_apply ops c.

(** The entry [e] is in the cache, behind entries of distinct keys of [K]:
    it is more recently used than all but the entries of [K]. *)
Definition recent (e : cache_entry) (K : list string) (c : LRUCache) : Prop :=
  exists pre post,
    c = pre ++ e :: post
    /\ NoDup (fmap ce_key pre)
    /\ forall k, k ∈ fmap ce_key pre -> k ∈ K.

(** ** Process state and the effect monad *)

Record state : Type := mkState {
  searchCache : LRUCache;
  robotsTxtCache : gmap string (string -> bool);  (* domain -> isAllowed *)
  trace : list event
}.

(** A computation reads and updates the process state and may throw. *)
Definition M (A : Type) : Type := state -> outcome A * state.

Definition ret {A} (a : A) : M A := fun s => (Ok a, s).

Definition bind {A B} (m : M A) (k : A -> M B) : M B :=
  fun s => match m s with
           | (Ok a, s') => k a s'
           | (Throw, s') => (Throw, s')
           end.

Definition throw {A} : M A := fun s => (Throw, s).

(** [try { m } catch (error) { h }] *)
Definition catch {A} (m : M A) (h : M A) : M A :=
  fun s => match m s with
           | (Ok a, s') => (Ok a, s')
           | (Throw, s') => h s'
           end.

Definition lift {A} (o : outcome A) : M A := fun s => (o, s).

Definition emit (e : event) : M unit :=
  fun s => (Ok tt, mkState (searchCache s) (robotsTxtCache s) (trace s ++ [e])).

Notation "'let!' x := m 'in' k" := (bind m (fun x => k))
  (at level 10, x name, m at level 100, k at level 200).
Notation "m ;; k" := (bind m (fun _ => k))
  (at level 100, k at level 200, right associativity).

Fixpoint mapM {A B} (f : A -> outcome B) (l : list A) : outcome (list B) :=
  match l with
  | [] => Ok []
  | a :: l' => try! b := f a in try! bs := mapM f l' in Ok (b :: bs)
  end.

(** Request parameters as axios sends them: the properties of the [params]
    object in enumeration order, those with a [null] or [undefined] value
    left out. *)
Definition params_of (ps : list (string * value)) : object :=
  omap (fun kv => match snd kv with
                  | Str s => Some (fst kv, s)
                  | _ => None
                  end) ps.

(** ** Response formatting ([formatCourtListenerResult] and friends) *)

Definition formatCourtListenerResult (r : cl_result) : result :=
  {| rid := Str ("cl-" +:+ template (cl_id r));
     title := caseName r;
     content := snippet r;
     court := court_name r;
     authors := Undefined;
     date := dateFiled r;
     url := absolute_url r;
     source := Str "CourtListener";
     inDatabase := false |}.

(** [result.court.name] throws when [court] is missing. *)
Definition formatCaselawResult (r : cap_result) : outcome result :=
  match cap_court r with
  | None => Throw
  | Some court_name =>
      Ok {| rid := Str ("cap-" +:+ template (cap_id r));
            title := cap_name r;
            content := js_or (preview r) (Str "");
            court := court_name;
            authors := Undefined;
            date := decision_date r;
            url := cap_url r;
            source := Str "Caselaw Access Project";
            inDatabase := false |}
  end.

Definition formatPubMedResult (r : pm_result) : result :=
  {| rid := Str ("pm-" +:+ template (uid r));
     title := pm_title r;
     content := js_or (description r) (Str "");
     court := Undefined;
     authors :=
       js_or (match pm_authors r with
              | Some names => Str (String.concat ", " names)
              | None => Undefined
              end) (Str "");
     date := pubdate r;
     url := Str ("https://pubmed.ncbi.nlm.nih.gov/" +:+ template (uid r) +:+ "/");
     source := Str "PubMed";
     inDatabase := false |}.

(** ** The API process ([index.js]) *)

Inductive response : Type :=
  | Json (body : resultPage)
  | Status500.

Record request : Type := mkRequest {
  req_query : value;
  req_filter : value;
  req_page : option Z;    (* absent: the default 1 *)
  req_limit : option Z    (* absent: the default 20 *)
}.

Record citationNetwork : Type := mkNetwork {
  citedBy : list citation;
  cites : list citation
}.

(** [`${query}-${filter}-${page}-${limit}`] *)
Definition cacheKey (query filter : value) (page limit : Z) : string :=
  template query +:+ "-" +:+ template filter +:+ "-" +:+ pretty page
    +:+ "-" +:+ pretty limit.

Section Service.

Variable Date_getTime : string -> option Z.
Variable w : World.

Definition searchInternalDatabase (query filter : value) (page limit : Z)
  : M (list result) :=
  let or_filter := "title.ilike.%" +:+ template query +:+ "%, content.ilike.%"
                     +:+ template query +:+ "%" in
  let first := (page - 1) * limit in
  let last := page * limit - 1 in
  emit (StoreSearch or_filter first last) ;;
  match legal_cases_search w or_filter first last with
  | None => emit (Log "Database search error:") ;; ret []
  | Some data => ret (map row_object (default [] data))
  end.

Definition storeResultsInDatabase (rs : list result) : M unit :=
  let newResults := List.filter (fun r => negb (inDatabase r)) rs in
  if (length newResults =? 0)%nat then ret tt
  else
    let rows := map stored_row newResults in
    emit (StoreUpsert "legal_cases" rows) ;;
    if upsert w "legal_cases" rows then ret tt
    else emit (Log "Bulk storage error:").

Definition searchCourtListener (query filter : value) : M (list result) :=
  emit (RateLimit "courtListenerLimit") ;;
  catch
    (let url := "https://www.courtlistener.com/api/rest/v3/search/" in
     let params :=
       params_of (obj_spread [("q", query)] (as_values (parseFilters filter))) in
     emit (HttpGet url params) ;;
     match http_get w url params with
     | Some (CourtListenerResults rs) => ret (map formatCourtListenerResult rs)
     | _ => throw
     end)
    (emit (Log "CourtListener API error:") ;; ret []).

Definition searchCaselaw (query filter : value) : M (list result) :=
  emit (RateLimit "caseAccessLimit") ;;
  catch
    (let url := "https://api.case.law/v1/cases/" in
     let params :=
       params_of (obj_spread [("search", query)] (as_values (parseFilters filter))) in
     emit (HttpGet url params) ;;
     match http_get w url params with
     | Some (CaselawResults rs) => lift (mapM formatCaselawResult rs)
     | _ => throw
     end)
    (emit (Log "Caselaw Access Project API error:") ;; ret []).

Definition searchPubMed (query filter : value) : M (list result) :=
  catch
    (let search_url := "https://eutils.ncbi.nlm.nih.gov/entrez/eutils/esearch.fcgi" in
     let search_params :=
       [("db", "pubmed"); ("term", template query +:+ " AND law[Title/Abstract]");
        ("retmode", "json"); ("retmax", "20")] in
     emit (HttpGet search_url search_params) ;;
     match http_get w search_url search_params with
     | Some (PubMedSearch ids) =>
         match ids with
         | None | Some [] => ret []
         | Some ids =>
             let summary_url :=
               "https://eutils.ncbi.nlm.nih.gov/entrez/eutils/esummary.fcgi" in
             let summary_params :=
               [("db", "pubmed"); ("id", String.concat "," ids); ("retmode", "json")] in
             emit (HttpGet summary_url summary_params) ;;
             match http_get w summary_url summary_params with
             | Some (PubMedSummary rs) =>
                 ret (map formatPubMedResult (List.filter (fun r => truthy (uid r)) rs))
             | _ => throw
             end
         end
     | _ => throw
     end)
    (emit (Log "PubMed API error:") ;; ret []).

(** The scraper of [index.js]: one rate-limited request to the search page
    of the law review, the matched elements turned into records. *)
Definition scrapeAllowedSources (query filter : value) : M (list result) :=
  emit (RateLimit "webScraperLimit") ;;
  catch
    (let url := "https://lawreview.stanford.edu/search" in
     let params := params_of [("q", query)] in
     emit (HttpGet url params) ;;
     match http_get w url params with
     | Some (Body html) =>
         ret (imap (fun i el =>
                {| rid := Str ("stanford-" +:+
                               (if truthy (data_attr el "id")
                                then template (data_attr el "id") else pretty i));
                   title := Str (find_text el ".article-title");
                   content := Str (find_text el ".article-excerpt");
                   court := Undefined;
                   authors := Str (find_text el ".article-authors");
                   date := Str (find_text el ".article-date");
                   url := find_attr el "a" "href";
                   source := Str "Stanford Law Review";
                   inDatabase := false |})
              (cheerio_select w html ".search-result"))
     | _ => throw
     end)
    (emit (Log "Web scraping error:") ;; ret []).

Definition cache_lookup (key : string) (now : Z) : M (option resultPage) :=
  fun s => let (found, c) := cache_get key now (searchCache s) in
           (Ok found, mkState c (robotsTxtCache s) (trace s)).

Definition cache_store (key : string) (v : resultPage) (now : Z) : M unit :=
  fun s => (Ok tt, mkState (cache_set key v now (searchCache s))
                           (robotsTxtCache s) (trace s)).

(** [app.get('/api/search', ...)], handled at time [now].  [sort] works in
    place, so the persistence sink receives the ranked array. *)
Definition handleSearch (req : request) (now : Z) : M response :=
  catch
    (let query := req_query req in
     let filter := req_filter req in
     let page := default 1 (req_page req) in
     let limit := default 20 (req_limit req) in
     let key := cacheKey query filter page limit in
     let! cachedResults := cache_lookup key now in
     match cachedResults with
     | Some cached => ret (Json cached)
     | None =>
         let! dbResults := searchInternalDatabase query filter page limit in
         let! courtListener := searchCourtListener query filter in
         let! caselaw := searchCaselaw query filter in
         let! pubMed := searchPubMed query filter in
         let apiResults := [courtListener; caselaw; pubMed] in
         let! webResults :=
           (if Z.of_nat (length dbResults + length (concat apiResults)) <? limit
            then scrapeAllowedSources query filter
            else ret []) in
         let allResults := dbResults ++ concat apiResults ++ webResults in
         let uniqueResults := deduplicateResults allResults in
         let! sortedResults :=
           lift (sortResultsByRelevance Date_getTime uniqueResults query) in
         let paginatedResults := paginateResults sortedResults page limit in
         cache_store key paginatedResults now ;;
         storeResultsInDatabase sortedResults ;;
         ret (Json paginatedResults)
     end)
    (emit (Log "Search error:") ;; ret Status500).

(** Both lookups are issued one after the other; [direction] and [depth]
    are received and not consulted. *)
Definition getCitationNetwork (id : string) (direction : string) (depth : Z)
  : M citationNetwork :=
  emit (CitationsByTarget id) ;;
  let citedByData := citations_by_target w id in
  emit (CitationsBySource id) ;;
  let citesData := citations_by_source w id in
  match citedByData, citesData with
  | Some citedBy, Some cites =>
      ret {| citedBy := default [] citedBy; cites := default [] cites |}
  | _, _ =>
      emit (Log "Citation retrieval error:") ;;
      ret {| citedBy := []; cites := [] |}
  end.

(** [app.get('/api/citations/:id', ...)] *)
Definition handleCitations (id : string) (direction : option string)
    (depth : option Z) : M citationNetwork :=
  getCitationNetwork id (default "both" direction) (default 1 depth).

End Service.

(** ** The web-scraper module *)

(** The names an object literal inherits from [Object.prototype]; each
    holds a function or an object, which is truthy. *)
Definition inherited (name : string) : bool :=
  bool_decide (name ∈ ["constructor"; "__defineGetter__"; "__defineSetter__";
                       "hasOwnProperty"; "__lookupGetter__"; "__lookupSetter__";
                       "isPrototypeOf"; "propertyIsEnumerable"; "toString";
                       "valueOf"; "__proto__"; "toLocaleString"]).

(** What [robotsTxtCache[domain]] can read: a policy the module has stored,
    of which [isAllowed] is the one method used, or an inherited property,
    which has no such method. *)
Inductive robots : Type :=
  | Policy (isAllowed : string -> bool)
  | Inherited.

Module Scraper.
Section Scraper.

Variable w : World.

(** [robotsTxtCache[domain] = policy] *)
Definition remember (domain : string) (policy : string -> bool) : M unit :=
  fun s => (Ok tt, mkState (searchCache s)
                           (<[domain := policy]> (robotsTxtCache s)) (trace s)).

(** [robotsTxtCache[domain]]: an own property, which is a stored policy,
    or a property that the object literal inherits. *)
Definition cached_policy (domain : string) : M (option robots) :=
  fun s => (Ok (match robotsTxtCache s !! domain with
                | Some policy => Some (Policy policy)
                | None => if inherited domain then Some Inherited else None
                end), s).

(** [parseRobotsTxt(response.data, ...)].  The module robots-parser exports
    a single function and no property of this name, so the destructured
    import is [undefined] and the call is a [TypeError]. *)
Definition parseRobotsTxt (data : payload) : outcome (string -> bool) := Throw.

(** The policy of a domain: what the cache reads for it or, when that is
    nothing, the policy stored by the [catch] block, which permits every
    path; the [try] block ends in the [TypeError] of [parseRobotsTxt] when
    the robots.txt file has been fetched, and in the rejection when not. *)
Definition getRobotsTxt (domain : string) : M robots :=
  let! cached := cached_policy domain in
  match cached with
  | Some found => ret found
  | None =>
      catch
        (let url := "https://" +:+ domain +:+ "/robots.txt" in
         emit (HttpGet url []) ;;
         match http_get w url [] with
         | Some data =>
             let! parser := lift (parseRobotsTxt data) in
             remember domain parser ;; ret (Policy parser)
         | None => throw
         end)
        (emit (Log ("Error fetching robots.txt for " +:+ domain +:+ ":")) ;;
         remember domain (fun _ => true) ;;
         ret (Policy (fun _ => true)))
  end.

(** [robotsTxt.isAllowed(path)] is a [TypeError] on an object that has no
    such method. *)
Definition isScrapingAllowed (url : string) : M bool :=
  catch
    (let! urlObj := lift (URL_parse url) in
     let domain := hostname urlObj in
     let path := pathname urlObj in
     let! robotsTxt := getRobotsTxt domain in
     match robotsTxt with
     | Policy isAllowed => ret (isAllowed path)
     | Inherited => throw
     end)
    (emit (Log "Error checking scraping permission:") ;; ret false).

(** Awaiting the limiter of a domain (the listed ones are shared, an
    unknown domain gets a fresh limiter of one request per minute). *)
Definition getRateLimiter (domain : string) : M unit :=
  emit (RateLimit domain).

Definition formatStanfordLawResults (html : string) : outcome (list result) :=
  Ok (omap (fun el =>
        let title := find_text el "h2 a" in
        let url := "https://lawreview.stanford.edu"
                     +:+ template (find_attr el "h2 a" "href") in
        let authors := find_text el ".field--name-field-written-by" in
        let abstract := find_text el ".field--name-field-excerpt" in
        let date := find_text el ".field--name-field-volume" in
        if truthy (Str title)
        then Some {| rid := Str ("stanford-" +:+ last_segment url);
                     title := Str title; content := Str abstract;
                     court := Undefined; authors := Str authors;
                     date := Str date; url := Str url;
                     source := Str "Stanford Law Review";
                     inDatabase := false |}
        else None)
      (cheerio_select w html ".views-row")).

(** [url.split('/')] throws when the title link has no [href]. *)
Definition formatHarvardLawResults (html : string) : outcome (list result) :=
  try! found :=
    mapM (fun el =>
        let title := find_text el ".entry-title" in
        let url := find_attr el ".entry-title a" "href" in
        let abstract := find_text el ".entry-content p" in
        let meta := find_text el ".entry-meta" in
        let date := default "" (match_date w meta) in
        if truthy (Str title)
        then match url with
             | Str u =>
                 Ok (Some {| rid := Str ("harvard-" +:+ last_segment u);
                             title := Str title; content := Str abstract;
                             court := Undefined; authors := Undefined;
                             date := Str date; url := url;
                             source := Str "Harvard Law Review";
                             inDatabase := false |})
             | _ => Throw
             end
        else Ok None)
      (cheerio_select w html ".post") in
  Ok (omap (fun x => x) found).

Definition formatYaleLawResults (html : string) : outcome (list result) :=
  Ok (omap (fun el =>
        let title := find_text el ".article-title" in
        let url := "https://www.yalelawjournal.org"
                     +:+ template (find_attr el ".article-title a" "href") in
        let authors := find_text el ".article-author" in
        let abstract := find_text el ".article-abstract" in
        let volume := find_text el ".article-volume" in
        if truthy (Str title)
        then Some {| rid := Str ("yale-" +:+ last_segment url);
                     title := Str title; content := Str abstract;
                     court := Undefined; authors := Str authors;
                     date := Str volume; url := Str url;
                     source := Str "Yale Law Journal";
                     inDatabase := false |}
        else None)
      (cheerio_select w html ".article-item")).

Definition formatSupremeCourtResults (html : string) : outcome (list result) :=
  Ok (omap (fun el =>
        let title := find_text el ".opinion-title" in
        let url := "https://www.supremecourt.gov"
                     +:+ template (find_attr el "a" "href") in
        let date := find_text el ".opinion-date" in
        let description := find_text el ".opinion-desc" in
        if truthy (Str title)
        then Some {| rid := Str ("scotus-" +:+ last_segment url);
                     title := Str title; content := Str description;
                     court := Str "Supreme Court of the United States";
                     authors := Undefined;
                     date := Str date; url := Str url;
                     source := Str "Supreme Court of the United States";
                     inDatabase := false |}
        else None)
      (cheerio_select w html ".opinion-item")).

(** The body the four site adapters share: the robots check, then the
    limiter, then the one request, whose failure yields no records. *)
Definition scrapeSite (domain url : string)
    (format : string -> outcome (list result)) : M (list result) :=
  let! allowed := isScrapingAllowed url in
  if negb allowed then
    emit (Log ("Scraping not allowed for " +:+ url)) ;; ret []
  else
    getRateLimiter domain ;;
    catch
      (emit (HttpGet url []) ;;
       match http_get w url [] with
       | Some (Body html) => lift (format html)
       | _ => throw
       end)
      (emit (Log ("Error scraping " +:+ domain +:+ ":")) ;; ret []).

Definition scrapeStanfordLawReview (query : value) : M (list result) :=
  let domain := "lawreview.stanford.edu" in
  let url := "https://" +:+ domain +:+ "/search?search_api_fulltext="
               +:+ encodeURIComponent (template query) in
  scrapeSite domain url formatStanfordLawResults.

Definition scrapeHarvardLawReview (query : value) : M (list result) :=
  let domain := "harvardlawreview.org" in
  let url := "https://" +:+ domain +:+ "/?s=" +:+ encodeURIComponent (template query) in
  scrapeSite domain url formatHarvardLawResults.

Definition scrapeYaleLawJournal (query : value) : M (list result) :=
  let domain := "yalelawjournal.org" in
  let url := "https://www." +:+ domain +:+ "/search?q="
               +:+ encodeURIComponent (template query) in
  scrapeSite domain url formatYaleLawResults.

Definition scrapeSupremeCourt (query : value) : M (list result) :=
  let domain := "supremecourt.gov" in
  let url := "https://www." +:+ domain +:+ "/search.aspx?Search="
               +:+ encodeURIComponent (template query) +:+ "&type=Site" in
  scrapeSite domain url formatSupremeCourtResults.

(** One [key:value] fragment of the filter string applied to the
    scraped records; [value.toLowerCase()] throws when the fragment has
    no colon and a record is inspected. *)
Definition applyFilter (rs : list result) (f : string) : outcome (list result) :=
  let parts := split_on ":" f in
  let key := hd "" parts in
  let value := match parts with
               | _ :: v :: _ => Str v
               | _ => Undefined
               end in
  if String.eqb key "source" then
    try! keep := mapM (fun r => try! s := toLowerCase (source r) in
                                try! v := toLowerCase value in
                                Ok (includes s v)) rs in
    Ok (map fst (List.filter snd (zip rs keep)))
  else if String.eqb key "court" then
    try! keep := mapM (fun r => if truthy (court r)
                                then (try! c := toLowerCase (court r) in
                                      try! v := toLowerCase value in
                                      Ok (includes c v))
                                else Ok false) rs in
    Ok (map fst (List.filter snd (zip rs keep)))
  else if String.eqb key "year" then
    Ok (List.filter (fun r => truthy (date r)
                              && includes (template (date r)) (template value)) rs)
  else Ok rs.

Fixpoint applyFilters (rs : list result) (fs : list string) : outcome (list result) :=
  match fs with
  | [] => Ok rs
  | f :: fs' => try! rs' := applyFilter rs f in applyFilters rs' fs'
  end.

(** [if (rows.length > 0) { upsert; if (error) console.error(message) }] *)
Definition storeScraped (table : string) (rows : list result) (message : string)
  : M unit :=
  if (0 <? length rows)%nat then
    emit (StoreUpsert table rows) ;;
    if upsert w table rows then ret tt
    else emit (Log message)
  else ret tt.

(** The exported aggregate: the four adapters, the scraped records
    written to the store, then the filter fragments applied. *)
Definition scrapeAllowedSources (query filter : value) : M (list result) :=
  catch
    (let! stanfordResults := scrapeStanfordLawReview query in
     let! harvardResults := scrapeHarvardLawReview query in
     let! yaleResults := scrapeYaleLawJournal query in
     let! scotusResults := scrapeSupremeCourt query in
     let allResults :=
       stanfordResults ++ harvardResults ++ yaleResults ++ scotusResults in
     storeScraped "legal_articles"
       (List.filter (fun r => negb (truthy (court r))) allResults)
       "Error storing scraped articles:" ;;
     storeScraped "legal_cases"
       (List.filter (fun r => truthy (court r)) allResults)
       "Error storing scraped cases:" ;;
     if truthy filter
     then lift (applyFilters allResults (split_on "," (template filter)))
     else ret allResults)
    (emit (Log "Error in scrapeAllowedSources:") ;; ret []).

End Scraper.
End Scraper.

(** ** Case details ([scrapeCaseDetails] of the web-scraper module) *)

(** A loaded page, seen through the two accessors the extraction uses. *)
Record Document : Type := mkDocument {
  doc_text : string -> string;   (* $(sel).text().trim() *)
  doc_html : string -> value     (* $(sel).html(): the markup, or null *)
}.

(** The domains [scrapingRateLimits] has a limiter for. *)
Definition scrapingRateLimits : list string :=
  ["lawreview.stanford.edu"; "harvardlawreview.org"; "yalelawjournal.org";
   "supremecourt.gov"; "scholar.google.com"].

Module Details.
Section Details.

Variable w : World.
Variable cheerio_load : string -> Document.

Definition scrapeCaseDetails (source : string) (id : value) (url : string)
  : M (option result) :=
  catch
    (let! urlObj := lift (URL_parse url) in
     let domain := hostname urlObj in
     let! allowed := Scraper.isScrapingAllowed w url in
     if negb allowed then
       emit (Log ("Scraping not allowed for " +:+ url)) ;; ret None
     else
       Scraper.getRateLimiter domain ;;
       emit (HttpGet url []) ;;
       match http_get w url [] with
       | Some (Body html) =>
           let doc := cheerio_load html in
           if String.eqb source "Stanford Law Review" then
             ret (Some {| rid := id;
                          title := Str (doc_text doc ".page-title");
                          content := doc_html doc ".field--name-field-body";
                          court := Undefined;
                          authors := Str (doc_text doc ".field--name-field-written-by");
                          date := Str (doc_text doc ".field--name-field-volume");
                          url := Str url; source := Str source;
                          inDatabase := false |})
           else if String.eqb source "Harvard Law Review" then
             let meta := doc_text doc ".entry-meta" in
             ret (Some {| rid := id;
                          title := Str (doc_text doc ".entry-title");
                          content := doc_html doc ".entry-content";
                          court := Undefined;
                          authors := Undefined;
                          date := Str (default "" (match_date w meta));
                          url := Str url; source := Str source;
                          inDatabase := false |})
           else if String.eqb source "Yale Law Journal" then
             ret (Some {| rid := id;
                          title := Str (doc_text doc ".article-title");
                          content := doc_html doc ".article-body";
                          court := Undefined;
                          authors := Str (doc_text doc ".article-author");
                          date := Str (doc_text doc ".article-volume");
                          url := Str url; source := Str source;
                          inDatabase := false |})
           else if String.eqb source "Supreme Court of the United States" then
             ret (Some {| rid := id;
                          title := Str (doc_text doc ".opinion-title");
                          content := doc_html doc ".opinion-content";
                          court := Str "Supreme Court of the United States";
                          authors := Undefined;
                          date := Str (doc_text doc ".opinion-date");
                          url := Str url; source := Str source;
                          inDatabase := false |})
           else ret None
       | _ => throw
       end)
    (emit (Log ("Error scraping details for " +:+ url +:+ ":")) ;; ret None).

End Details.
End Details.

(** ** The case and judge endpoints ([index.js]) *)

Module Cases.

(** [judges] of a served case: a field of the upstream document, or the
    array of the case body. *)
Inductive judges : Type :=
  | JudgesValue (v : value)
  | JudgesList (names : list string).

(** The object [fetchCaseFromExternalSources] builds. *)
Record caseData : Type := mkCaseData {
  cd_id : string; cd_title : value; cd_content : value; cd_court : value;
  cd_date : value; cd_judges : judges; cd_authors : value; cd_url : value;
  cd_source : string
}.

(** [response.data] of a CourtListener opinion. *)
Record cl_opinion : Type := mkOpinion {
  case_name : value; html_with_citations : value; plain_text : value;
  op_court_name : value; date_filed : value; op_judges : value;
  op_absolute_url : value
}.

(** [response.data] of a Caselaw Access Project case: [cc_opinion_text] is
    [casebody?.data?.opinions?.[0]?.text], [cc_judges] is
    [casebody?.data?.judges], [cc_court] the [name] of [court] when the
    case has a [court]. *)
Record cap_case : Type := mkCapCase {
  cc_name : value; cc_opinion_text : value; cc_court : option value;
  cc_decision_date : value; cc_judges : option (list string); cc_url : value
}.

(** The first entry of a CourtListener people response; [position_title] is
    [position_titles?.[0]]. *)
Record person : Type := mkPerson {
  p_id : value; name_full : value; position_title : value; p_court_name : value;
  appointer : value
}.

(** The object [getJudgeData] builds and inserts. *)
Record judgeData : Type := mkJudgeData {
  jd_id : string; jd_name : value; jd_position : value; jd_court : value;
  jd_appointed_by : value; jd_source : string
}.

(** A row of the [judges] table. *)
Record judge_row : Type := mkJudgeRow {
  jr_id : string; jr_name : string; jr_position : option string;
  jr_court : option string; jr_appointed_by : option string;
  jr_biography : option string; jr_source : option string
}.

(** What the endpoints serve. *)
Inductive caseBody : Type :=
  | StoredCase (row : legal_case)
  | FetchedCase (c : caseData).

Inductive judgeBody : Type :=
  | StoredJudge (row : judge_row)
  | FetchedJudge (j : judgeData).

Inductive reply (A : Type) : Type :=
  | Found (body : A)      (* res.json(body) *)
  | NotFound              (* res.status(404) *)
  | Failed.               (* res.status(500) *)
Arguments Found {A} body.
Arguments NotFound {A}.
Arguments Failed {A}.

(** The store and the upstreams of the two endpoints.  For the store, [None]
    is an error result and [Some None] is [data: null]; for a request,
    [None] is a rejected request. *)
Record Upstream : Type := mkUpstream {
  case_by_id : string -> option (option legal_case);
  upsert_case : caseData -> bool;
  judge_by_name : string -> option (option judge_row);
  get_opinion : string -> option cl_opinion;
  get_cap_case : string -> option cap_case;
  get_efetch : object -> bool;
  get_people : object -> option (option (list person))  (* response.data.results *)
}.

Inductive effect : Type :=
  | SelectCase (id : string)
  | UpsertCase (c : caseData)
  | SelectJudge (pattern : string)
  | InsertJudge (j : judgeData)
  | Await (limiter : string)
  | Get (url : string) (params : object)
  | ConsoleError (message : string).

(** A computation returns or throws, and logs its effects in order. *)
Definition W (A : Type) : Type := outcome A * list effect.

Definition wret {A} (a : A) : W A := (Ok a, []).

Definition wthrow {A} : W A := (Throw, []).

Definition wbind {A B} (m : W A) (k : A -> W B) : W B :=
  match m with
  | (Ok a, evs) => (fst (k a), evs ++ snd (k a))
  | (Throw, evs) => (Throw, evs)
  end.

Definition wcatch {A} (m h : W A) : W A :=
  match m with
  | (Ok a, evs) => (Ok a, evs)
  | (Throw, evs) => (fst h, evs ++ snd h)
  end.

Definition tell (e : effect) : W unit := (Ok tt, [e]).

Notation "'do!' x := m 'in' k" := (wbind m (fun x => k))
  (at level 10, x name, m at level 100, k at level 200).
Notation "m >>> k" := (wbind m (fun _ => k))
  (at level 100, k at level 200, right associativity).

Section Cases.

Variable u : Upstream.

Definition getCaseFromDatabase (id : string) : W (option legal_case) :=
  tell (SelectCase id) >>>
  match case_by_id u id with
  | None => tell (ConsoleError "Case retrieval error:") >>> wret None
  | Some data => wret data
  end.

Definition storeCaseInDatabase (c : caseData) : W unit :=
  tell (UpsertCase c) >>>
  if upsert_case u c then wret tt
  else tell (ConsoleError "Case storage error:").

(** [const [source, sourceId] = id.split('-')] *)
Definition id_source (id : string) : string := hd "" (split_on "-" id).

Definition id_sourceId (id : string) : value :=
  match split_on "-" id with
  | _ :: sourceId :: _ => Str sourceId
  | _ => Undefined
  end.

Definition fetchCaseFromExternalSources (id : string) : W (option caseData) :=
  let source := id_source id in
  let sourceId := id_sourceId id in
  wcatch
    (if String.eqb source "cl" then
       tell (Await "courtListenerLimit") >>>
       let url := "https://www.courtlistener.com/api/rest/v3/opinions/"
                    +:+ template sourceId +:+ "/" in
       tell (Get url []) >>>
       match get_opinion u url with
       | None => wthrow
       | Some data =>
           wret (Some {| cd_id := id;
                         cd_title := case_name data;
                         cd_content := js_or (html_with_citations data) (plain_text data);
                         cd_court := op_court_name data;
                         cd_date := date_filed data;
                         cd_judges := JudgesValue (op_judges data);
                         cd_authors := Undefined;
                         cd_url := op_absolute_url data;
                         cd_source := "CourtListener" |})
       end
     else if String.eqb source "cap" then
       tell (Await "caseAccessLimit") >>>
       let url := "https://api.case.law/v1/cases/" +:+ template sourceId +:+ "/" in
       tell (Get url []) >>>
       match get_cap_case u url with
       | None => wthrow
       | Some data =>
           match cc_court data with
           | None => wthrow
           | Some court_name =>
               wret (Some {| cd_id := id;
                             cd_title := cc_name data;
                             cd_content := js_or (cc_opinion_text data) (Str "");
                             cd_court := court_name;
                             cd_date := cc_decision_date data;
                             cd_judges := JudgesList (default [] (cc_judges data));
                             cd_authors := Undefined;
                             cd_url := cc_url data;
                             cd_source := "Caselaw Access Project" |})
           end
       end
     else if String.eqb source "pm" then
       let params := params_of [("db", Str "pubmed"); ("id", sourceId);
                                ("retmode", Str "xml")] in
       tell (Get "https://eutils.ncbi.nlm.nih.gov/entrez/eutils/efetch.fcgi" params) >>>
       if get_efetch u params then
         wret (Some {| cd_id := id;
                       cd_title := Str "PubMed Article";
                       cd_content := Str "Article content";
                       cd_court := Undefined;
                       cd_date := Str "2023";
                       cd_judges := JudgesValue Undefined;
                       cd_authors := Str "Authors";
                       cd_url := Str ("https://pubmed.ncbi.nlm.nih.gov/"
                                        +:+ template sourceId +:+ "/");
                       cd_source := "PubMed" |})
       else wthrow
     else wret None)
    (tell (ConsoleError ("Error fetching case from " +:+ source +:+ ":")) >>>
     wret None).

(** [app.get('/api/case/:id', ...)] *)
Definition handleCase (id : string) : W (reply caseBody) :=
  wcatch
    (do! stored := getCaseFromDatabase id in
     match stored with
     | Some row => wret (Found (StoredCase row))
     | None =>
         do! fetched := fetchCaseFromExternalSources id in
         match fetched with
         | Some c => storeCaseInDatabase c >>> wret (Found (FetchedCase c))
         | None => wret NotFound
         end
     end)
    (tell (ConsoleError "Case retrieval error:") >>> wret Failed).

Definition getJudgeData (name : string) : W (option judgeBody) :=
  tell (SelectJudge ("%" +:+ name +:+ "%")) >>>
  match judge_by_name u ("%" +:+ name +:+ "%") with
  | None => tell (ConsoleError "Judge retrieval error:") >>> wret None
  | Some (Some row) => wret (Some (StoredJudge row))
  | Some None =>
      wcatch
        (let params := [("name_full__icontains", name)] in
         tell (Get "https://www.courtlistener.com/api/rest/v3/people/" params) >>>
         match get_people u params with
         | Some (Some (first :: _)) =>
             let j := {| jd_id := "cl-" +:+ template (p_id first);
                         jd_name := name_full first;
                         jd_position := js_or (position_title first) (Str "Unknown");
                         jd_court := js_or (p_court_name first) (Str "Unknown");
                         jd_appointed_by := js_or (appointer first) (Str "Unknown");
                         jd_source := "CourtListener" |} in
             tell (InsertJudge j) >>> wret (Some (FetchedJudge j))
         | Some (Some []) => wret None
         | _ => wthrow
         end)
        (tell (ConsoleError "External judge data retrieval error:") >>> wret None)
  end.

(** [app.get('/api/judge/:name', ...)] *)
Definition handleJudge (name : string) : W (reply judgeBody) :=
  wcatch
    (do! judge := getJudgeData name in
     match judge with
     | Some body => wret (Found body)
     | None => wret NotFound
     end)
    (tell (ConsoleError "Judge data retrieval error:") >>> wret Failed).

End Cases.
End Cases.

(** ** An engine's date parser, for concrete runs

    The date-only form [YYYY-MM-DD] of the ECMAScript date-time string
    format, read as UTC midnight.  What an engine does with any other string
    is implementation-defined; this instance rejects them all. *)

Definition days_from_civil (y m d : Z) : Z :=
  let y' := if m <=? 2 then y - 1 else y in
  let era := y' / 400 in
  let yoe := y' - era * 400 in
  let doy := (153 * (if 2 <? m then m - 3 else m + 9) + 2) / 5 + d - 1 in
  let doe := yoe * 365 + yoe / 4 - yoe / 100 + doy in
  era * 146097 + doe - 719468.

Definition days_in_month (y m : Z) : Z :=
  if m =? 2 then
    if ((y mod 4 =? 0) && (negb (y mod 100 =? 0) || (y mod 400 =? 0)))%bool
    then 29 else 28
  else if bool_decide (m ∈ [4; 6; 9; 11]) then 30 else 31.

Definition Date_getTime_iso (s : string) : option Z :=
  match list_ascii_of_string s with
  | [y1; y2; y3; y4; "-"; m1; m2; "-"; d1; d2]%char =>
      match digits 0 [y1; y2; y3; y4], digits 0 [m1; m2], digits 0 [d1; d2] with
      | Some y, Some m, Some d =>
          if ((1 <=? m) && (m <=? 12) && (1 <=? d) && (d <=? days_in_month y m))%bool
          then Some (days_from_civil y m d * 86400000)
          else None
      | _, _, _ => None
      end
  | _ => None
  end.

(** ** Reading traces *)

(** [m] leaves the caches alone, returns [a] and appends [evs] to the
    trace, whatever the state it starts in. *)
Definition runs {A} (m : M A) (a : outcome A) (evs : list event) : Prop :=
  forall s, m s = (a, mkState (searchCache s) (robotsTxtCache s) (trace s ++ evs)).

(** The effects only the scraper of [index.js] has: waiting for its limiter
    and requesting the search page of the scraped site. *)
Definition scraping (e : event) : bool :=
  match e with
  | RateLimit limiter => String.eqb limiter "webScraperLimit"
  | HttpGet url _ => String.eqb url "https://lawreview.stanford.edu/search"
  | _ => false
  end.

(** Every policy the cache holds permits every path.  The one policy the
    module ever stores is its permissive default, so this holds of every
    state of a process that has only run its code. *)
Definition permissive (s : state) : Prop :=
  forall domain policy,
    robotsTxtCache s !! domain = Some policy -> forall path, policy path = true.

(** The effects of the robots check for [host]: none when something is
    cached for it, else the request for its robots.txt and the logged
    failure. *)
Definition robots_events (host : string) (evs : list event) : Prop :=
  evs = []
  \/ evs = [HttpGet ("https://" +:+ host +:+ "/robots.txt") [];
            Log ("Error fetching robots.txt for " +:+ host +:+ ":")].

(** No effect of the scraper among [evs]. *)
Definition quiet (evs : list event) : Prop :=
  Forall (fun e => scraping e = false) evs.

(** The events a run appends to the trace of the state it starts from. *)
Definition appended {A} (run : outcome A * state) (s : state) : list event :=
  drop (length (trace s)) (trace (snd run)).

(** ** Sample data for concrete runs *)

Definition record (id title content : string) (court date : value) (source : string)
  : result :=
  {| rid := Str id; title := Str title; content := Str content; court := court;
     authors := Undefined; date := date; url := Undefined; source := Str source;
     inDatabase := false |}.

Definition miranda : result :=
  record "cl-1" "Miranda v. Arizona" "The Miranda warning" (Str "Supreme Court")
         Undefined "CourtListener".

Definition escobedo : result :=
  record "cl-2" "Escobedo v. Illinois" "Right to counsel" (Str "Supreme Court")
         (Str "2024-01-01") "CourtListener".

Definition gideon : result :=
  record "cl-3" "Gideon v. Wainwright" "Right to counsel" (Str "Supreme Court")
         (Str "1970-01-01") "CourtListener".

(** Three records without a date. *)
Definition mapp : result :=
  record "cl-4" "Mapp v. Ohio" "Search and seizure" (Str "Supreme Court")
         Undefined "CourtListener".

Definition miranda_note : result :=
  record "pm-1" "Custodial interrogation" "Confessions after Miranda" Undefined
         (Str "") "PubMed".

Definition terry : result :=
  record "cl-5" "Terry v. Ohio" "Stop and frisk" (Str "Supreme Court")
         Undefined "CourtListener".

(** A scraped article whose date element reads "forthcoming". *)
Definition forthcoming : result :=
  record "stanford-7" "Miranda revisited" "An essay" Undefined (Str "forthcoming")
         "Stanford Law Review".

Definition stored_case (id title : string) (content : option string) : legal_case :=
  {| lc_id := id; lc_title := title; lc_content := content;
     lc_court := Some "Supreme Court"; lc_decision_date := Some "1966-06-13";
     lc_judges := None; lc_url := None; lc_source := Some "CourtListener";
     lc_created_at := "2024-01-01T00:00:00Z"; lc_updated_at := "2024-01-01T00:00:00Z" |}.

(** A world whose store holds [rows] for every search and whose upstreams
    are all unreachable, except that every robots.txt file is served and
    forbids every path. *)
Definition world_with (rows : list legal_case) : World :=
  {| legal_cases_search := fun _ _ _ => Some (Some rows);
     citations_by_target := fun _ => Some (Some []);
     citations_by_source := fun _ => Some (Some []);
     upsert := fun _ _ => true;
     http_get := fun url _ =>
       if String.eqb (last_segment url) "robots.txt" then Some (Body "Disallow: /")
       else None;
     cheerio_select := fun _ _ => [];
     match_date := fun _ => None |}.

Definition initial : state :=
  {| searchCache := []; robotsTxtCache := ∅; trace := [] |}.

(** The stored copy of [miranda], as the store adapter returns it. *)
Definition stored_miranda : result :=
  row_object (stored_case "1" "Miranda v. Arizona" (Some "The Miranda warning")).

(** The stored copy of [escobedo], and a store that lists it first. *)
Definition stored_escobedo : result :=
  row_object (stored_case "2" "Escobedo v. Illinois" (Some "Right to counsel")).

Definition two_dated_cases : list legal_case :=
  [stored_case "2" "Escobedo v. Illinois" (Some "Right to counsel");
   stored_case "1" "Miranda v. Arizona" (Some "The Miranda warning")].

(** Two different cases whose titles and courts join to the same string. *)
Definition smith_one : result :=
  record "cl-7" "State v. Smith" "Burglary" (Str "Appeals-Division One")
         Undefined "CourtListener".

Definition smith_two : result :=
  record "cap-9" "State v. Smith-Appeals" "Robbery" (Str "Division One")
         Undefined "Caselaw Access Project".

(** Two different requests whose parameters join to the same string. *)
Definition request_one : request :=
  {| req_query := Str "a-b"; req_filter := Str "c"; req_page := None; req_limit := None |}.

Definition request_two : request :=
  {| req_query := Str "a"; req_filter := Str "b-c"; req_page := None; req_limit := None |}.

(** A store that answers the search for [a-b] with one case and every other
    search with another. *)
Definition world_by_query : World :=
  {| legal_cases_search := fun or_filter _ _ =>
       if String.eqb or_filter "title.ilike.%a-b%, content.ilike.%a-b%"
       then Some (Some [stored_case "1" "Form a-b" (Some "a-b")])
       else Some (Some [stored_case "2" "Form a" (Some "a")]);
     citations_by_target := fun _ => Some (Some []);
     citations_by_source := fun _ => Some (Some []);
     upsert := fun _ _ => true;
     http_get := fun _ _ => None;
     cheerio_select := fun _ _ => [];
     match_date := fun _ => None |}.

(** [GET /api/search?query=q] with every other parameter left out. *)
Definition search_for (q : string) : request :=
  {| req_query := Str q; req_filter := Undefined; req_page := None; req_limit := None |}.

(** Two stored cases; the second has a [NULL] content. *)
Definition two_cases : list legal_case :=
  [stored_case "1" "Miranda v. Arizona" (Some "The Miranda warning");
   stored_case "2" "Escobedo v. Illinois" None].

(** ** Reading objects and strings *)

(** One step of the [forEach] of [parseFilters]: the fragment [part] read
    into [filters]. *)
Definition parseFilters_step (filters : object) (part : string) : object :=
  match split_on ":" part with
  | key :: value :: _ =>
      if (truthy (Str key) && truthy (Str value))%bool
      then obj_assign key value filters else filters
  | _ => filters
  end.

(** A write to the store. *)
Definition is_upsert (e : event) : bool :=
  match e with
  | StoreUpsert _ _ => true
  | _ => false
  end.

(** No write to the store among [evs]. *)
Definition read_only (evs : list event) : Prop :=
  Forall (fun e => is_upsert e = false) evs.

(** [GET /api/search?query=q&page=n] *)
Definition search_page (q : string) (n : Z) : request :=
  {| req_query := Str q; req_filter := Undefined; req_page := Some n; req_limit := None |}.


(** What [storeScraped] appends to the trace. *)
Definition store_events (w : World) (table : string) (rows : list result)
    (message : string) : list event :=
  if (0 <? length rows)%nat
  then StoreUpsert table rows :: (if upsert w table rows then [] else [Log message])
  else [].

(** The writes to the store among [evs]. *)
Definition upserts (evs : list event) : list event := List.filter is_upsert evs.

(** A world in which every request is answered with a page, every page
    holds one element, whose texts are all [Miranda] and whose links all
    point to [/a/miranda]; the store is empty and accepts every write. *)
Definition open_world : World :=
  {| legal_cases_search := fun _ _ _ => Some (Some []);
     citations_by_target := fun _ => Some (Some []);
     citations_by_source := fun _ => Some (Some []);
     upsert := fun _ _ => true;
     http_get := fun _ _ => Some (Body "<html>");
     cheerio_select := fun _ _ =>
       [{| find_text := fun _ => "Miranda";
           find_attr := fun _ _ => Str "/a/miranda";
           data_attr := fun _ => Undefined |}];
     match_date := fun _ => None |}.

(** The two kinds of record the site adapters produce. *)
Definition article (r : result) : Prop :=
  court r = Undefined
  /\ source r ∈ [Str "Stanford Law Review"; Str "Harvard Law Review";
                 Str "Yale Law Journal"].

Definition opinion (r : result) : Prop :=
  court r = Str "Supreme Court of the United States"
  /\ source r = Str "Supreme Court of the United States".

(** The record the scraper of [index.js] makes of the page of [open_world]. *)
Definition scraped_article : result :=
  {| rid := Str "stanford-0"; title := Str "Miranda"; content := Str "Miranda";
     court := Undefined; authors := Str "Miranda"; date := Str "Miranda";
     url := Str "/a/miranda"; source := Str "Stanford Law Review";
     inDatabase := false |}.

(** The record the Supreme Court adapter makes of the page of [open_world]. *)
Definition scraped_opinion : result :=
  {| rid := Str "scotus-miranda"; title := Str "Miranda"; content := Str "Miranda";
     court := Str "Supreme Court of the United States"; authors := Undefined;
     date := Str "Miranda"; url := Str "https://www.supremecourt.gov/a/miranda";
     source := Str "Supreme Court of the United States"; inDatabase := false |}.

(** An upstream in which nothing is stored and every request is rejected. *)
Definition unreachable : Cases.Upstream :=
  {| Cases.case_by_id := fun _ => None;
     Cases.upsert_case := fun _ => false;
     Cases.judge_by_name := fun _ => None;
     Cases.get_opinion := fun _ => None;
     Cases.get_cap_case := fun _ => None;
     Cases.get_efetch := fun _ => false;
     Cases.get_people := fun _ => None |}.

Definition is_limit (e : event) : bool :=
  match e with RateLimit _ => true | _ => false end.

(** The four sources [scrapeCaseDetails] knows. *)
Definition detail_sources : list string :=
  ["Stanford Law Review"; "Harvard Law Review"; "Yale Law Journal";
   "Supreme Court of the United States"].

(** Every selector of every page reads [Miranda]. *)
Definition miranda_page (html : string) : Document :=
  {| doc_text := fun _ => "Miranda"; doc_html := fun _ => Str "<p>Miranda</p>" |}.

(** A store whose lookup of the citing cases succeeds and whose lookup of
    the cited cases fails. *)
Definition half_broken_world : World :=
  {| legal_cases_search := fun _ _ _ => Some (Some []);
     citations_by_target := fun _ => Some (Some [mkCitation "7" "Dickerson v. United States"]);
     citations_by_source := fun _ => None;
     upsert := fun _ _ => true;
     http_get := fun _ _ => None;
     cheerio_select := fun _ _ => [];
     match_date := fun _ => None |}.

(** * Properties *)

(** ** The sample date parser *)

Example Date_getTime_iso_epoch : Date_getTime_iso "1970-01-01" = Some 0.
Proof. reflexivity. Qed.

Example Date_getTime_iso_2024 : Date_getTime_iso "2024-01-01" = Some 1704067200000.
Proof. reflexivity. Qed.

Example Date_getTime_iso_leap : Date_getTime_iso "2000-02-29" = Some 951782400000.
Proof. reflexivity. Qed.

Example Date_getTime_iso_words : Date_getTime_iso "forthcoming" = None.
Proof. reflexivity. Qed.

(** ** Pagination *)

Lemma slice_nonneg {A} (l : list A) (start final : Z) :
  0 <= start -> start <= final ->
  slice l start final = take (Z.to_nat (final - start)) (drop (Z.to_nat start) l).
Proof.
  intros Hs Hf. unfold slice.
  destruct (Z.ltb_spec start 0); [lia|].
  destruct (Z.ltb_spec final 0); [lia|].
  destruct (Z_le_gt_dec (Z.of_nat (length l)) start) as [Hlen|Hlen].
  - rewrite (Z.min_r start), Nat2Z.id by lia.
    rewrite (drop_ge l (Z.to_nat start)), (drop_ge l (length l)); [|lia..].
    by rewrite !take_nil.
  - rewrite (Z.min_l start) by lia.
    destruct (Z_le_gt_dec final (Z.of_nat (length l))).
    + by rewrite (Z.min_l final) by lia.
    + rewrite (Z.min_r final) by lia.
      rewrite !take_ge; [done | rewrite length_drop; lia | rewrite length_drop; lia].
Qed.

Lemma Math_ceil_div_spec (a b n : Z) :
  0 < b -> Math_ceil_div a b = Some n <-> (n - 1) * b < a <= n * b.
Proof.
  intros Hb. unfold Math_ceil_div.
  destruct (Z.eqb_spec b 0); [lia|].
  pose proof (Z.div_mod (- a) b ltac:(lia)) as Hdm.
  pose proof (Z.mod_pos_bound (- a) b Hb) as Hmod.
  remember (- a / b) as q eqn:Hq. remember ((- a) mod b) as r eqn:Hr.
  assert (Ha : a = - (b * q) - r) by lia.
  split.
  - intros [= <-]. split; nia.
  - intros [Hlo Hhi]. f_equal.
    assert (- q - 1 < n) by nia. assert (n < - q + 1) by nia. lia.
Qed.

(** C6.  For a limit > 0 and a page >= 1 the page holds the elements of the
    ranked sequence at the indices [(page-1)*limit, page*limit) (as a
    take/drop and index by index), the total is the length of the sequence,
    [pages] is its ceiling quotient by the limit, and a page beyond the last
    one is empty with the same total. *)
Theorem paginateResults_slice (rs : list result) (page limit : Z) :
  0 < limit -> 1 <= page ->
  let p := paginateResults rs page limit in
  let L := Z.of_nat (length rs) in
  results p = take (Z.to_nat limit) (drop (Z.to_nat ((page - 1) * limit)) rs)
  /\ (forall i : nat,
        results p !! i =
        if decide (Z.of_nat i < limit)
        then rs !! Z.to_nat ((page - 1) * limit + Z.of_nat i) else None)
  /\ total (pageInfo p) = L
  /\ (exists n, pages (pageInfo p) = Some n /\ (n - 1) * limit < L <= n * limit
        /\ (n < page -> results p = [] /\ total (pageInfo p) = L)).
Proof.
  intros Hlimit Hpage p L.
  assert (Hres : results p
                 = take (Z.to_nat limit) (drop (Z.to_nat ((page - 1) * limit)) rs)).
  { unfold p, paginateResults; simpl.
    rewrite slice_nonneg by nia. do 2 f_equal. lia. }
  split; [exact Hres|]. split; [|split; [reflexivity|]].
  - intros i. rewrite Hres. case_decide as Hi.
    + rewrite lookup_take_lt by lia. rewrite lookup_drop. f_equal. nia.
    + apply lookup_take_ge. lia.
  - exists (- ((- L) / limit)).
    assert (Hceil : Math_ceil_div L limit = Some (- (- L / limit))).
    { unfold Math_ceil_div. by destruct (Z.eqb_spec limit 0); [lia|]. }
    split; [exact Hceil|].
    apply Math_ceil_div_spec in Hceil as Hbounds; [|done].
    split; [exact Hbounds|]. intros Hbeyond. split; [|reflexivity].
    rewrite Hres, drop_ge; [apply take_nil|]. nia.
Qed.

Lemma paginateResults_slice_witness :
  let rs := [gideon; miranda; escobedo] in
  let p := paginateResults rs 2 2 in
  let L := Z.of_nat (length rs) in
  results p = take (Z.to_nat 2) (drop (Z.to_nat ((2 - 1) * 2)) rs)
  /\ (forall i : nat,
        results p !! i =
        if decide (Z.of_nat i < 2)
        then rs !! Z.to_nat ((2 - 1) * 2 + Z.of_nat i) else None)
  /\ total (pageInfo p) = L
  /\ (exists n, pages (pageInfo p) = Some n /\ (n - 1) * 2 < L <= n * 2
        /\ (n < 2 -> results p = [] /\ total (pageInfo p) = L)).
Proof. apply (paginateResults_slice [gideon; miranda; escobedo] 2 2); lia. Defined.

Example paginateResults_beyond_last :
  paginateResults [gideon; miranda; escobedo] 3 2
  = {| results := [];
       pageInfo := {| total := 3; page := 3; limit := 2; pages := Some 2 |} |}.
Proof. reflexivity. Qed.

(** ** Deduplication *)

(** A record is retained exactly at the first position holding its key:
    it survives iff its key was not seen before the call and no earlier
    record of the input renders to the same key. *)
Lemma dedup_from_retained (seen : gset string) (l : list result) (r : result) :
  r ∈ dedup_from seen l <->
  exists l1 l2, l = l1 ++ r :: l2 /\ (dedup_key r ∉ seen)
                /\ (dedup_key r ∉ fmap dedup_key l1).
Proof.
  revert seen. induction l as [|x l IH]; intros seen; simpl.
  - split; [by intros ?%elem_of_nil|].
    intros (l1 & l2 & Hl & _). by destruct l1.
  - case_decide as Hseen.
    + rewrite IH. split.
      * intros (l1 & l2 & -> & Hr & Hl1). exists (x :: l1), l2.
        split; [done|]. split; [done|]. simpl. rewrite not_elem_of_cons.
        split; [|done]. intros Heq. by rewrite Heq in Hr.
      * intros (l1 & l2 & Hl & Hr & Hl1). destruct l1 as [|y l1]; simplify_eq/=.
        -- done.
        -- apply not_elem_of_cons in Hl1 as [? ?]. by exists l1, l2.
    + rewrite elem_of_cons, IH. split.
      * intros [->|(l1 & l2 & -> & Hr & Hl1)].
        -- exists [], l. split; [done|]. split; [done|]. simpl. apply not_elem_of_nil.
        -- exists (x :: l1), l2. split; [done|]. split; [set_solver|].
           simpl. rewrite not_elem_of_cons. split; [set_solver|done].
      * intros (l1 & l2 & Hl & Hr & Hl1). destruct l1 as [|y l1]; simplify_eq/=.
        -- by left.
        -- right. apply not_elem_of_cons in Hl1 as [? ?].
           exists l1, l2. split; [done|]. split; [set_solver|done].
Qed.

Lemma dedup_from_sublist (seen : gset string) (l : list result) :
  dedup_from seen l `sublist_of` l.
Proof.
  revert seen. induction l as [|x l IH]; intros seen; simpl; [done|].
  case_decide; [by apply sublist_cons | by apply sublist_skip].
Qed.

Lemma dedup_from_keys_fresh (seen : gset string) (l : list result) (r : result) :
  r ∈ dedup_from seen l -> dedup_key r ∉ seen.
Proof. rewrite dedup_from_retained. naive_solver. Qed.

Lemma dedup_from_NoDup (seen : gset string) (l : list result) :
  NoDup (fmap dedup_key (dedup_from seen l)).
Proof.
  revert seen. induction l as [|x l IH]; intros seen; simpl; [constructor|].
  case_decide; [apply IH|]. simpl. constructor; [|apply IH].
  intros (r & Hkey & Hr)%list_elem_of_fmap.
  apply dedup_from_keys_fresh in Hr. set_solver.
Qed.

(** Keys already rejected or already distinct: a second pass changes
    nothing. *)
Lemma dedup_from_fixed (seen : gset string) (l : list result) :
  NoDup (fmap dedup_key l) -> (forall r, r ∈ l -> dedup_key r ∉ seen) ->
  dedup_from seen l = l.
Proof.
  revert seen. induction l as [|x l IH]; intros seen Hnd Hfresh; simpl; [done|].
  apply NoDup_cons in Hnd as [Hx Hnd].
  case_decide as Hseen.
  - exfalso. apply (Hfresh x); [by left | done].
  - f_equal. apply IH; [done|]. intros r Hr.
    rewrite not_elem_of_union, not_elem_of_singleton. split.
    + intros Heq. apply Hx. rewrite <- Heq. by apply list_elem_of_fmap_2.
    + apply Hfresh. by right.
Qed.

(** X1.  A record is in the deduplicated list exactly when it stands in the
    input at a position before which no record has its key: the first
    occurrence of every key is retained and every later one is discarded. *)
Theorem deduplicateResults_first_occurrence (l : list result) (r : result) :
  r ∈ deduplicateResults l <->
  exists l1 l2, l = l1 ++ r :: l2 /\ (dedup_key r ∉ fmap dedup_key l1).
Proof.
  unfold deduplicateResults. rewrite dedup_from_retained.
  split; intros (l1 & l2 & ?); exists l1, l2; set_solver.
Qed.

(** X2.  Deduplicating twice is deduplicating once, and the output is no
    longer than the input. *)
Theorem deduplicateResults_idempotent (l : list result) :
  deduplicateResults (deduplicateResults l) = deduplicateResults l
  /\ (length (deduplicateResults l) <= length l)%nat.
Proof.
  split.
  - apply dedup_from_fixed; [apply dedup_from_NoDup | set_solver].
  - apply sublist_length, dedup_from_sublist.
Qed.

(** C3.  [smith_one] and [smith_two] differ in title and in court, so they
    are no duplicates by their (title, court-or-source) pairs; their keys
    are the same string, and deduplication discards the second. *)
Theorem dedup_key_collision :
  title smith_one <> title smith_two
  /\ js_or (court smith_one) (source smith_one)
     <> js_or (court smith_two) (source smith_two)
  /\ dedup_key smith_one = dedup_key smith_two
  /\ deduplicateResults [smith_one; smith_two] = [smith_one].
Proof. repeat split; vm_compute; (reflexivity || discriminate). Qed.

(** Records with the same title and the same court-or-source have the same
    key, so the later one is discarded. *)
Lemma same_pair_same_key (a b : result) :
  title a = title b -> js_or (court a) (source a) = js_or (court b) (source b) ->
  dedup_key a = dedup_key b.
Proof. unfold dedup_key. by intros -> ->. Qed.

(** X4.  The merged list holds the store's records first, then those of
    the APIs, then the scraped ones; a record of a later tier whose key a
    store record already has is not retained. *)
Theorem store_record_wins (db api web : list result) (r r' : result) :
  r ∈ db -> r' ∈ api ++ web -> dedup_key r = dedup_key r' -> r' ∉ db ->
  r' ∉ deduplicateResults (db ++ api ++ web).
Proof.
  intros Hr Hr' Hkey Hnew. unfold deduplicateResults. rewrite dedup_from_retained.
  intros (l1 & l2 & Hsplit & _ & Hfirst). apply Hfirst. rewrite <- Hkey.
  apply list_elem_of_fmap_2. symmetry in Hsplit.
  apply app_eq_inv in Hsplit as [(k & -> & _)|(k & Hdb & Hk)].
  - set_solver.
  - destruct k as [|x k]; simpl in Hk.
    + rewrite app_nil_r in Hdb. by subst.
    + injection Hk as <- _. exfalso. apply Hnew. rewrite Hdb. set_solver.
Qed.

Lemma store_record_wins_witness :
  miranda ∉ deduplicateResults ([stored_miranda] ++ [miranda; escobedo] ++ [forthcoming]).
Proof.
  apply (store_record_wins [stored_miranda] [miranda; escobedo] [forthcoming]
           stored_miranda miranda).
  - by left.
  - by left.
  - reflexivity.
  - intros Hin. apply list_elem_of_singleton in Hin. discriminate Hin.
Defined.

(** ** Sorting with a consistent comparator *)

Lemma StronglySorted_lookup_lt {A} (R : A -> A -> Prop) (l : list A)
    (i j : nat) (a b : A) :
  StronglySorted R l -> (i < j)%nat -> l !! i = Some a -> l !! j = Some b -> R a b.
Proof.
  intros Hsorted. revert i j.
  induction Hsorted as [|x l Hsorted IH Hall]; intros i j Hij Hi Hj; [done|].
  destruct j as [|j]; [lia|]. destruct i as [|i]; simpl in *.
  - injection Hi as ->. rewrite Forall_forall in Hall.
    apply Hall. by eapply list_elem_of_lookup_2.
  - apply (IH i j); [lia | done | done].
Qed.

Section StableSort.

Context {A : Type} (cmp : A -> A -> outcome number).
(** On the records satisfying [P] the comparator returns, and its result is
    positive exactly when the key of its second argument is the greater. *)
Context (P : A -> Prop) (key : A -> Z).
Hypothesis cmp_consistent :
  forall x y, P x -> P y ->
    exists c, cmp x y = Ok c /\ (npos c = true <-> key x < key y).

Lemma sort_insert_consistent (x : A) (l : list A) :
  P x -> Forall P l -> StronglySorted (descending key) l ->
  exists out, sort_insert cmp x l = Ok out
              /\ out ≡ₚ x :: l
              /\ StronglySorted (descending key) out
              /\ (forall k, score_class key k out = score_class key k (x :: l)).
Proof.
  intros Hx. induction l as [|y l IH]; intros Hl Hsorted; cbn [sort_insert].
  - exists [x]. repeat split; [done | repeat constructor].
  - apply Forall_cons in Hl as [Hy Hl].
    apply StronglySorted_inv in Hsorted as [Hsorted Hall].
    destruct (cmp_consistent x y Hx Hy) as (c & -> & Hc); cbn [obind].
    destruct (npos c) eqn:Hpos.
    + assert (Hlt : key x < key y) by (by apply Hc).
      destruct (IH Hl Hsorted) as (r & Hins & Hperm & Hr & Hclass).
      rewrite Hins; cbn [obind].
      exists (y :: r). split; [done|]. split; [|split].
      * rewrite Hperm. apply Permutation_swap.
      * constructor; [done|]. rewrite Hperm. constructor; [|done].
        unfold descending. lia.
      * intros k. unfold score_class in *. simpl. rewrite Hclass. simpl.
        destruct (Z.eqb_spec (key y) k), (Z.eqb_spec (key x) k); try done. lia.
    + exists (x :: y :: l). split; [done|]. split; [done|]. split; [|done].
      assert (Hle : key y <= key x).
      { destruct (Z.le_gt_cases (key y) (key x)) as [?|Hgt]; [done|].
        apply Hc in Hgt. discriminate Hgt. }
      constructor; [by constructor|]. constructor; [done|].
      eapply Forall_impl; [exact Hall|]. unfold descending. intros z Hz. lia.
Qed.

Lemma Array_sort_consistent (l : list A) :
  Forall P l ->
  exists out, Array_sort cmp l = Ok out
              /\ out ≡ₚ l
              /\ StronglySorted (descending key) out
              /\ (forall k, score_class key k out = score_class key k l).
Proof.
  induction l as [|x l IH]; intros Hl; simpl.
  - exists []. repeat split; [done | constructor].
  - apply Forall_cons in Hl as [Hx Hl].
    destruct (IH Hl) as (sorted & -> & Hperm & Hsorted & Hclass); simpl.
    destruct (sort_insert_consistent x sorted Hx) as (out & Hout & Hp & Hs & Hc);
      [by rewrite Hperm | done |].
    exists out. split; [done|]. split; [by rewrite Hp, Hperm|]. split; [done|].
    intros k. rewrite Hc. unfold score_class in *. simpl. by rewrite Hclass.
Qed.

(** In a descending list a strictly larger key sits at a smaller index. *)
Lemma descending_precedes (l : list A) (i j : nat) (a b : A) :
  StronglySorted (descending key) l -> l !! i = Some a -> l !! j = Some b ->
  key b < key a -> (i < j)%nat.
Proof.
  intros Hsorted Hi Hj Hlt.
  destruct (Nat.lt_trichotomy i j) as [?|[->|Hji]]; [done | |].
  - rewrite Hi in Hj. injection Hj as ->. lia.
  - pose proof (StronglySorted_lookup_lt _ _ _ _ _ _ Hsorted Hji Hj Hi) as Hba.
    unfold descending in Hba. lia.
Qed.

End StableSort.

(** A sort whose comparator never throws returns a permutation. *)
Lemma sort_insert_total {A} (cmp : A -> A -> outcome number) (P : A -> Prop)
    (x : A) (l : list A) :
  (forall a b, P a -> P b -> exists c, cmp a b = Ok c) ->
  P x -> Forall P l -> exists out, sort_insert cmp x l = Ok out /\ out ≡ₚ x :: l.
Proof.
  intros Hcmp Hx. induction l as [|y l IH]; intros Hl; cbn [sort_insert].
  - by exists [x].
  - apply Forall_cons in Hl as [Hy Hl].
    destruct (Hcmp x y Hx Hy) as [c ->]; cbn [obind].
    destruct (npos c); [|by exists (x :: y :: l)].
    destruct (IH Hl) as (r & -> & Hperm); cbn [obind].
    exists (y :: r). split; [done|]. rewrite Hperm. apply Permutation_swap.
Qed.

Lemma Array_sort_total {A} (cmp : A -> A -> outcome number) (P : A -> Prop)
    (l : list A) :
  (forall a b, P a -> P b -> exists c, cmp a b = Ok c) ->
  Forall P l -> exists out, Array_sort cmp l = Ok out /\ out ≡ₚ l.
Proof.
  intros Hcmp. induction l as [|x l IH]; intros Hl; cbn [Array_sort].
  - by exists [].
  - apply Forall_cons in Hl as [Hx Hl].
    destruct (IH Hl) as (sorted & -> & Hperm); cbn [obind].
    destruct (sort_insert_total cmp P x sorted Hcmp Hx) as (out & -> & Hout).
    + by rewrite Hperm.
    + exists out. split; [done|]. by rewrite Hout, Hperm.
Qed.

(** Whatever the comparator, a successful sort keeps the length. *)
Lemma sort_insert_length {A} (cmp : A -> A -> outcome number) (x : A)
    (l out : list A) :
  sort_insert cmp x l = Ok out -> length out = S (length l).
Proof.
  revert out. induction l as [|y l IH]; intros out; cbn [sort_insert].
  - by intros [= <-].
  - destruct (cmp x y) as [c|]; cbn [obind]; [|done].
    destruct (npos c); [|by intros [= <-]].
    destruct (sort_insert cmp x l) as [r|]; cbn [obind]; [|done].
    intros [= <-]. simpl. f_equal. by apply IH.
Qed.

Lemma Array_sort_length {A} (cmp : A -> A -> outcome number) (l out : list A) :
  Array_sort cmp l = Ok out -> length out = length l.
Proof.
  revert out. induction l as [|x l IH]; intros out; cbn [Array_sort].
  - by intros [= <-].
  - destruct (Array_sort cmp l) as [s|]; cbn [obind]; [|done].
    intros Hout%sort_insert_length. rewrite Hout. simpl. f_equal. by apply IH.
Qed.

(** A comparator that throws on every pair involving a [bad] element makes
    the sort of two or more elements throw as soon as one of them is bad. *)
Lemma Array_sort_throws {A} (cmp : A -> A -> outcome number) (bad : A -> Prop)
    (l : list A) :
  (forall a b, bad a \/ bad b -> cmp a b = Throw) ->
  (2 <= length l)%nat -> Exists bad l -> Array_sort cmp l = Throw.
Proof.
  intros Hcmp. induction l as [|x l IH]; intros Hlen Hbad; [simpl in Hlen; lia|].
  cbn [Array_sort]. destruct (Array_sort cmp l) as [s|] eqn:Hs; [|done].
  cbn [obind]. pose proof (Array_sort_length _ _ _ Hs) as Hslen.
  simpl in Hlen. destruct s as [|y s]; [simpl in Hslen; lia|].
  cbn [sort_insert]. apply Exists_cons in Hbad as [Hx|Hl].
  - by rewrite Hcmp by (by left).
  - destruct l as [|z [|z' l]]; [by apply Exists_nil in Hl | |].
    + apply Exists_cons in Hl as [Hz|Hnil]; [|by apply Exists_nil in Hnil].
      simpl in Hs. injection Hs as <- <-. by rewrite Hcmp by (by right).
    + discriminate IH; [simpl; lia | done].
Qed.

(** ** Ranking *)

Section RankingFacts.

Variable Date_getTime : string -> option Z.

Lemma compareRelevance_returns (q : string) (a b : result) :
  has_text a -> has_text b ->
  exists c, compareRelevance Date_getTime (Str q) a b = Ok c.
Proof.
  intros [[ta Hta] [ca Hca]] [[tb Htb] [cb Hcb]].
  unfold compareRelevance. rewrite Hta, Hca, Htb, Hcb. cbn [toLowerCase obind].
  eauto.
Qed.

Lemma compareRelevance_throws (query : value) (a b : result) :
  ~ has_text a \/ ~ has_text b ->
  compareRelevance Date_getTime query a b = Throw.
Proof.
  unfold has_text, compareRelevance. intros Hbad.
  destruct (title a) as [| |ta]; [done | done |]. cbn [toLowerCase obind].
  destruct query as [| |q]; [done | done |]. cbn [toLowerCase obind].
  destruct (title b) as [| |tb]; [done | done |]. cbn [toLowerCase obind].
  destruct (content a) as [| |ca]; [done | done |]. cbn [toLowerCase obind].
  destruct (content b) as [| |cb]; [done | done |].
  exfalso. destruct Hbad as [Hbad|Hbad]; apply Hbad; eauto.
Qed.

(** The score of a record with text: 10 and 5 for the matches, plus the
    time value of the date over 10^10, zero when the date is absent. *)
Lemma totalScore_formula (q t c : string) (r : result) :
  title r = Str t -> content r = Str c ->
  totalScore Date_getTime (Str q) r
  = Ok (nadd (nadd (if includes (lower t) (lower q) then Num 10 else Num 0)
                   (if includes (lower c) (lower q) then Num 5 else Num 0))
             (ndiv (match date r with
                    | Str s => if String.eqb s "" then Num 0 else getTime Date_getTime s
                    | _ => Num 0
                    end) (Num 10000000000))).
Proof.
  intros Ht Hc. unfold totalScore, recency, dateScore.
  rewrite Ht, Hc. cbn [toLowerCase obind]. do 3 f_equal.
  destruct (date r) as [| |s]; [done | done |]. simpl. by destruct (String.eqb s "").
Qed.

Lemma dateScore_absent (r : result) :
  undated r -> dateScore Date_getTime r = Num 0.
Proof.
  unfold undated, dateScore. destruct (date r) as [| |s]; [done | done |].
  by intros ->.
Qed.

Lemma recency_absent (r : result) :
  undated r -> recency Date_getTime r = Num 0.
Proof. intros Hd. unfold recency. by rewrite dateScore_absent. Qed.

Lemma recency_parsed (r : result) (s : string) (ms : Z) :
  date r = Str s -> s <> "" -> Date_getTime s = Some ms ->
  recency Date_getTime r = ndiv (Num ms) (Num 10000000000).
Proof.
  intros Hd Hs Hms. unfold recency, dateScore, getTime. rewrite Hd, Hms.
  simpl. apply String.eqb_neq in Hs. by rewrite Hs.
Qed.

(** A date string the engine cannot parse makes the recency term [NaN]. *)
Lemma recency_unparsed (r : result) (s : string) :
  date r = Str s -> s <> "" -> Date_getTime s = None ->
  recency Date_getTime r = NaN.
Proof.
  intros Hd Hs Hms. unfold recency, dateScore, getTime. rewrite Hd, Hms.
  simpl. apply String.eqb_neq in Hs. by rewrite Hs.
Qed.

(** Between two records without a date the comparator is positive exactly
    when the second has the greater text-match component. *)
Lemma compareRelevance_undated (q : string) (a b : result) :
  ascii_text a /\ undated a -> ascii_text b /\ undated b ->
  exists c, compareRelevance Date_getTime (Str q) a b = Ok c
            /\ (npos c = true <-> matchScore q a < matchScore q b).
Proof.
  intros [(ta & ca & Hta & Hca & _) Hda] [(tb & cb & Htb & Hcb & _) Hdb].
  unfold compareRelevance, matchScore.
  rewrite Hta, Hca, Htb, Hcb, !dateScore_absent by done.
  cbn [toLowerCase obind]. eexists. split; [reflexivity|].
  destruct (includes (lower ta) (lower q)), (includes (lower ca) (lower q)),
    (includes (lower tb) (lower q)), (includes (lower cb) (lower q));
    vm_compute; split; congruence.
Qed.

End RankingFacts.

Lemma has_text_dec (r : result) : has_text r \/ ~ has_text r.
Proof.
  unfold has_text.
  destruct (title r) as [| |t]; [right | right | ]; try (by intros [[? ?] _]).
  destruct (content r) as [| |c]; [right | right | left; eauto];
    by intros [_ [? ?]].
Qed.

(** A ranking that returns either ranked at most one record or compared
    records with text against a string query. *)
Lemma sortResultsByRelevance_returned (Date_getTime : string -> option Z)
    (query : value) (rs ranked : list result) :
  sortResultsByRelevance Date_getTime rs query = Ok ranked ->
  (length rs <= 1)%nat \/ ((exists q, query = Str q) /\ Forall has_text rs).
Proof.
  intros Hsort. unfold sortResultsByRelevance in Hsort.
  destruct (le_lt_dec (length rs) 1) as [?|Hlen]; [by left|right].
  assert (Hnonstring : (forall q, query <> Str q) ->
                       Array_sort (compareRelevance Date_getTime query) rs = Throw).
  { intros Hquery. apply (Array_sort_throws _ (fun _ => True)); [|lia|].
    - intros a b _. unfold compareRelevance.
      destruct (title a); [done | done |]. cbn [toLowerCase obind].
      destruct query as [| |q]; [done | done |]. by destruct (Hquery q).
    - destruct rs; [simpl in Hlen; lia | by left]. }
  split.
  - destruct query as [| |q]; [| |by eauto];
      rewrite Hnonstring in Hsort; done.
  - apply Forall_forall. intros r Hr.
    destruct (has_text_dec r) as [?|Hbad]; [done|]. exfalso.
    rewrite (Array_sort_throws _ (fun r => ~ has_text r)) in Hsort; [done | | lia |].
    + intros a b. apply compareRelevance_throws.
    + apply Exists_exists. eauto.
Qed.

Example ranking_of_three :
  sortResultsByRelevance Date_getTime_iso [gideon; miranda; escobedo] (Str "miranda")
  = Ok [escobedo; miranda; gideon].
Proof. vm_compute. reflexivity. Qed.

(** C1.  [miranda] matches the query in title and content (text-match
    component 15) and has no date; [escobedo] matches nowhere (component 0)
    and is dated 2024-01-01, whose time value over 10^10 is about 170.  The
    ranking puts [escobedo] first: the recency term does not only break
    ties, it exceeds the greatest text-match component for every date
    after 1974. *)
Theorem recency_outranks_text_match :
  textScore (Str "miranda") miranda = Ok (10 + 5)%Q
  /\ textScore (Str "miranda") escobedo = Ok (0 + 0)%Q
  /\ totalScore Date_getTime_iso (Str "miranda") miranda = Ok (Num 15)
  /\ totalScore Date_getTime_iso (Str "miranda") escobedo
     = Ok (ndiv (Num 1704067200000) (Num 10000000000))
  /\ npos (nsub (ndiv (Num 1704067200000) (Num 10000000000)) (Num 15)) = true
  /\ sortResultsByRelevance Date_getTime_iso [miranda; escobedo] (Str "miranda")
     = Ok [escobedo; miranda].
Proof. repeat split; vm_compute; reflexivity. Qed.

(** C2.  The score of [forthcoming], whose date field holds a string that is
    no date: the text-match component is 10, the recency term is [NaN], not
    zero, and so is the total score. *)
Theorem unparsed_date_scores_NaN :
  date forthcoming = Str "forthcoming"
  /\ Date_getTime_iso "forthcoming" = None
  /\ textScore (Str "miranda") forthcoming = Ok (10 + 0)%Q
  /\ recency Date_getTime_iso forthcoming = NaN
  /\ totalScore Date_getTime_iso (Str "miranda") forthcoming = Ok NaN.
Proof. repeat split; vm_compute; reflexivity. Qed.

(** X6.  Where no record has a date the ranking is by text match alone: for
    a query and records whose titles and contents are strings of ASCII
    characters and whose dates are absent or empty, the ranking returns a
    permutation of the records in which a record with a greater text-match
    component (10 for the title, 5 for the content) precedes one with a
    smaller, and records with the same component keep their input order. *)
Theorem undated_ranked_by_text_match (Date_getTime : string -> option Z)
    (q : string) (rs : list result) :
  ascii_only q = true ->
  Forall (fun r => ascii_text r /\ undated r) rs ->
  exists ranked,
    sortResultsByRelevance Date_getTime rs (Str q) = Ok ranked
    /\ ranked ≡ₚ rs
    /\ (forall (i j : nat) (a b : result),
          ranked !! i = Some a -> ranked !! j = Some b ->
          matchScore q b < matchScore q a -> (i < j)%nat)
    /\ (forall k, score_class (matchScore q) k ranked = score_class (matchScore q) k rs).
Proof.
  intros _ Hrs.
  destruct (Array_sort_consistent (compareRelevance Date_getTime (Str q))
              (fun r => ascii_text r /\ undated r) (matchScore q)
              (compareRelevance_undated Date_getTime q) rs Hrs)
    as (ranked & Hsort & Hperm & Hsorted & Hclass).
  exists ranked. split; [exact Hsort|]. split; [exact Hperm|]. split; [|exact Hclass].
  intros i j a b Hi Hj Hlt. by eapply descending_precedes.
Qed.

Lemma undated_ranked_by_text_match_witness :
  exists ranked,
    sortResultsByRelevance Date_getTime_iso [mapp; miranda_note; terry; miranda]
      (Str "miranda") = Ok ranked
    /\ ranked ≡ₚ [mapp; miranda_note; terry; miranda]
    /\ (forall (i j : nat) (a b : result),
          ranked !! i = Some a -> ranked !! j = Some b ->
          matchScore "miranda" b < matchScore "miranda" a -> (i < j)%nat)
    /\ (forall k, score_class (matchScore "miranda") k ranked
                  = score_class (matchScore "miranda") k
                      [mapp; miranda_note; terry; miranda]).
Proof.
  apply (undated_ranked_by_text_match Date_getTime_iso "miranda"
           [mapp; miranda_note; terry; miranda]).
  - reflexivity.
  - repeat constructor; try reflexivity; eexists _, _; by repeat split.
Defined.

Example ranking_of_undated :
  sortResultsByRelevance Date_getTime_iso [mapp; miranda_note; terry; miranda]
    (Str "miranda")
  = Ok [miranda; miranda_note; mapp; terry].
Proof. vm_compute. reflexivity. Qed.

(** C10.  The ranking returns for every list of records that all have a
    string title and a string content (and a string query); as soon as a
    list of two or more records holds one without them the ranking throws;
    and a search over a store holding a case with a [NULL] content, which
    the schema allows, is answered with status 500. *)
Theorem ranking_total_only_with_text :
  (forall (Date_getTime : string -> option Z) (q : string) (rs : list result),
      Forall has_text rs ->
      exists ranked, sortResultsByRelevance Date_getTime rs (Str q) = Ok ranked
                     /\ ranked ≡ₚ rs)
  /\ (forall (Date_getTime : string -> option Z) (query : value) (rs : list result),
        (2 <= length rs)%nat -> Exists (fun r => ~ has_text r) rs ->
        sortResultsByRelevance Date_getTime rs query = Throw)
  /\ content (row_object (stored_case "2" "Escobedo v. Illinois" None)) = Null
  /\ sortResultsByRelevance Date_getTime_iso (map row_object two_cases) (Str "miranda")
     = Throw
  /\ fst (handleSearch Date_getTime_iso (world_with two_cases)
            (search_for "miranda") 0 initial) = Ok Status500.
Proof.
  split; [|split; [|repeat split; vm_compute; reflexivity]].
  - intros Date_getTime q rs Hrs.
    apply (Array_sort_total _ has_text); [|done].
    intros a b. apply compareRelevance_returns.
  - intros Date_getTime query rs Hlen Hbad.
    apply (Array_sort_throws _ (fun r => ~ has_text r)); [|done|done].
    intros a b. apply compareRelevance_throws.
Qed.

(** ** Effects of the adapters *)

Lemma state_eta (s : state) :
  mkState (searchCache s) (robotsTxtCache s) (trace s) = s.
Proof. by destruct s. Qed.

Lemma runs_ret {A} (a : A) : runs (ret a) (Ok a) [].
Proof. intros s. unfold ret. by rewrite app_nil_r, state_eta. Qed.

Lemma runs_throw {A} : runs (@throw A) Throw [].
Proof. intros s. unfold throw. by rewrite app_nil_r, state_eta. Qed.

Lemma runs_lift {A} (o : outcome A) : runs (lift o) o [].
Proof. intros s. unfold lift. by rewrite app_nil_r, state_eta. Qed.

Lemma runs_emit (e : event) : runs (emit e) (Ok tt) [e].
Proof. by intros s. Qed.

Lemma runs_bind {A B} (m : M A) (k : A -> M B) a b evs1 evs2 :
  runs m (Ok a) evs1 -> runs (k a) b evs2 -> runs (bind m k) b (evs1 ++ evs2).
Proof.
  intros Hm Hk s. unfold bind. rewrite Hm, Hk. simpl. by rewrite app_assoc.
Qed.

Lemma runs_bind_throw {A B} (m : M A) (k : A -> M B) evs :
  runs m Throw evs -> runs (bind m k) Throw evs.
Proof. intros Hm s. unfold bind. by rewrite Hm. Qed.

Lemma runs_catch_ok {A} (m h : M A) a evs :
  runs m (Ok a) evs -> runs (catch m h) (Ok a) evs.
Proof. intros Hm s. unfold catch. by rewrite Hm. Qed.

Lemma runs_catch_throw {A} (m h : M A) b evs1 evs2 :
  runs m Throw evs1 -> runs h b evs2 -> runs (catch m h) b (evs1 ++ evs2).
Proof.
  intros Hm Hh s. unfold catch. rewrite Hm, Hh. simpl. by rewrite app_assoc.
Qed.

Lemma runs_appended {A} (m : M A) a evs s :
  runs m a evs -> fst (m s) = a /\ appended (m s) s = evs.
Proof.
  intros Hm. unfold appended. rewrite Hm. simpl. split; [done|].
  by rewrite drop_app_length.
Qed.

(** Derives [runs m a evs] along the structure of [m], once the answers of
    the world have been fixed by case analysis. *)
Ltac runs_steps :=
  cbn beta iota;
  lazymatch goal with
  | |- runs (ret _) _ _ => apply runs_ret
  | |- runs throw _ _ => apply runs_throw
  | |- runs (lift _) _ _ => apply runs_lift
  | |- runs (emit _) _ _ => apply runs_emit
  | |- runs (bind _ _) _ _ =>
      first [ eapply runs_bind; [ solve [runs_steps] | runs_steps ]
            | eapply runs_bind_throw; solve [runs_steps] ]
  | |- runs (catch _ _) _ _ =>
      first [ eapply runs_catch_ok; solve [runs_steps]
            | eapply runs_catch_throw; [ solve [runs_steps] | runs_steps ] ]
  end.

Lemma searchInternalDatabase_runs (w : World) (query filter : value) (page limit : Z) :
  exists db evs,
    runs (searchInternalDatabase w query filter page limit) (Ok db) evs
    /\ quiet evs /\ Forall (fun r => inDatabase r = false) db.
Proof.
  unfold searchInternalDatabase.
  destruct (legal_cases_search w _ _ _) as [data|]; eexists _, _.
  - split; [runs_steps|]. split; [by repeat constructor|].
    apply Forall_fmap, Forall_forall. by intros row _.
  - split; [runs_steps|]. split; by repeat constructor.
Qed.

Lemma searchCourtListener_runs (w : World) (query filter : value) :
  exists rs evs, runs (searchCourtListener w query filter) (Ok rs) evs /\ quiet evs.
Proof.
  unfold searchCourtListener.
  destruct (http_get w _ _) as [[]|]; eexists _, _;
    (split; [runs_steps | by repeat constructor]).
Qed.

Lemma searchCaselaw_runs (w : World) (query filter : value) :
  exists rs evs, runs (searchCaselaw w query filter) (Ok rs) evs /\ quiet evs.
Proof.
  unfold searchCaselaw.
  destruct (http_get w _ _) as [[| |rs| |]|];
    try destruct (mapM formatCaselawResult rs); eexists _, _;
    (split; [runs_steps | by repeat constructor]).
Qed.

Lemma searchPubMed_runs (w : World) (query filter : value) :
  exists rs evs, runs (searchPubMed w query filter) (Ok rs) evs /\ quiet evs.
Proof.
  unfold searchPubMed.
  destruct (http_get w _ _) as [[| | |[[|id ids]|]|]|];
    try (destruct (http_get w _ _) as [[]|]); eexists _, _;
    (split; [runs_steps | by repeat constructor]).
Qed.

Lemma storeResultsInDatabase_runs (w : World) (rs : list result) :
  exists evs, runs (storeResultsInDatabase w rs) (Ok tt) evs /\ quiet evs.
Proof.
  unfold storeResultsInDatabase.
  destruct (length _ =? 0)%nat; [|destruct (upsert w _ _)]; eexists;
    (split; [runs_steps | by repeat constructor]).
Qed.

(** The scraper of [index.js] starts with its limiter and its one request,
    whatever the robots policy of the site. *)
Lemma scrapeAllowedSources_runs (w : World) (query filter : value) :
  exists rs evs rest,
    runs (scrapeAllowedSources w query filter) (Ok rs) evs
    /\ evs = RateLimit "webScraperLimit"
             :: HttpGet "https://lawreview.stanford.edu/search"
                        (params_of [("q", query)])
             :: rest.
Proof.
  unfold scrapeAllowedSources.
  destruct (http_get w _ _) as [[]|]; eexists _, _, _;
    (split; [runs_steps | reflexivity]).
Qed.

(** ** The search handler *)

Lemma quiet_no_scraping (evs : list event) :
  quiet evs -> ~ Exists (fun e => scraping e = true) evs.
Proof.
  unfold quiet. rewrite Forall_forall, Exists_exists.
  intros Hq (e & He & Hs). specialize (Hq e He). congruence.
Qed.

Lemma runs_fst {A} (m : M A) a evs : runs m a evs -> forall s, fst (m s) = a.
Proof. intros Hm s. by rewrite Hm. Qed.

(** What one request does on a cache miss: the store and the three APIs are
    queried in turn, the scraper runs exactly when they returned fewer
    records than the limit, and everything else is quiet. *)
Lemma handleSearch_miss (Date_getTime : string -> option Z) (w : World)
    (req : request) (now : Z) (s : state) :
  let query := req_query req in
  let filter := req_filter req in
  let page := default 1 (req_page req) in
  let limit := default 20 (req_limit req) in
  fst (cache_get (cacheKey query filter page limit) now (searchCache s)) = None ->
  exists db courtListener caselaw pubMed web before scraped after,
    (forall s', fst (searchInternalDatabase w query filter page limit s') = Ok db)
    /\ (forall s', fst (searchCourtListener w query filter s') = Ok courtListener)
    /\ (forall s', fst (searchCaselaw w query filter s') = Ok caselaw)
    /\ (forall s', fst (searchPubMed w query filter s') = Ok pubMed)
    /\ runs (scrapeAllowedSources w query filter) (Ok web) scraped
    /\ Exists (fun e => scraping e = true) scraped
    /\ quiet before
    /\ quiet after
    /\ (forall body, fst (handleSearch Date_getTime w req now s) = Ok (Json body) ->
          searchCache (snd (handleSearch Date_getTime w req now s))
          = cache_set (cacheKey query filter page limit) body now
              (snd (cache_get (cacheKey query filter page limit) now (searchCache s))))
    /\ appended (handleSearch Date_getTime w req now s) s
       = before
         ++ (if Z.of_nat (length db + length (courtListener ++ caselaw ++ pubMed))
                <? limit
             then scraped else [])
         ++ after.
Proof.
  intros query filter page limit Hmiss.
  destruct (searchInternalDatabase_runs w query filter page limit)
    as (db & e1 & Hdb & Hq1 & _).
  destruct (searchCourtListener_runs w query filter) as (cl & e2 & Hcl & Hq2).
  destruct (searchCaselaw_runs w query filter) as (cap & e3 & Hcap & Hq3).
  destruct (searchPubMed_runs w query filter) as (pm & e4 & Hpm & Hq4).
  destruct (scrapeAllowedSources_runs w query filter) as (web & e5 & rest & Hweb & He5).
  assert (Hq : quiet (e1 ++ e2 ++ e3 ++ e4)).
  { unfold quiet in *. by rewrite !Forall_app. }
  assert (Hscraped : Exists (fun e => scraping e = true) e5)
    by (rewrite He5; by left).
  exists db, cl, cap, pm, web, (e1 ++ e2 ++ e3 ++ e4), e5.
  unfold handleSearch, appended, catch, bind, cache_lookup, cache_store, lift.
  fold query filter page limit.
  destruct (cache_get _ now (searchCache s)) as [found c'] eqn:Hget.
  simpl in Hmiss. subst found. cbn beta iota.
  rewrite Hdb. cbn beta iota. rewrite Hcl. cbn beta iota.
  rewrite Hcap. cbn beta iota. rewrite Hpm. cbn beta iota.
  cbn [searchCache robotsTxtCache trace concat]. rewrite app_nil_r.
  set (gate := Z.of_nat (length db + length (cl ++ cap ++ pm)) <? limit).
  assert (Hdrop : forall l, drop (length (trace s)) (trace s ++ l) = l)
    by (intros l; apply drop_app_length).
  destruct gate.
  - rewrite Hweb. cbn beta iota. cbn [searchCache robotsTxtCache trace].
    destruct (sortResultsByRelevance _ _ _) as [sorted|].
    + destruct (storeResultsInDatabase_runs w sorted) as (e6 & Hsink & Hq6).
      rewrite Hsink. cbn [searchCache robotsTxtCache trace snd ret].
      exists e6. repeat (split; [by eauto using runs_fst|]).
      split; [by intros body [= <-]|].
      rewrite <- !app_assoc. by rewrite Hdrop.
    + exists [Log "Search error:"]. repeat (split; [by eauto using runs_fst|]).
      split; [by repeat constructor|]. split; [by intros body|].
      cbn [fst snd emit ret trace].
      rewrite <- !app_assoc. by rewrite Hdrop.
  - cbn [ret]. destruct (sortResultsByRelevance _ _ _) as [sorted|].
    + destruct (storeResultsInDatabase_runs w sorted) as (e6 & Hsink & Hq6).
      rewrite Hsink. cbn [searchCache robotsTxtCache trace snd ret].
      exists e6. repeat (split; [by eauto using runs_fst|]).
      split; [by intros body [= <-]|].
      cbn [app]. rewrite <- !app_assoc. by rewrite Hdrop.
    + exists [Log "Search error:"]. repeat (split; [by eauto using runs_fst|]).
      split; [by repeat constructor|]. split; [by intros body|].
      cbn [fst snd emit ret trace app].
      rewrite <- !app_assoc. by rewrite Hdrop.
Qed.

(** C5.  On a cache miss the scraper is invoked if and only if the records
    returned by the store and by the three APIs together number fewer than
    the limit; otherwise none of its effects occurs during the request. *)
Theorem scraping_gated (Date_getTime : string -> option Z) (w : World)
    (req : request) (now : Z) (s : state) :
  let query := req_query req in
  let filter := req_filter req in
  let page := default 1 (req_page req) in
  let limit := default 20 (req_limit req) in
  fst (cache_get (cacheKey query filter page limit) now (searchCache s)) = None ->
  exists db courtListener caselaw pubMed,
    (forall s', fst (searchInternalDatabase w query filter page limit s') = Ok db)
    /\ (forall s', fst (searchCourtListener w query filter s') = Ok courtListener)
    /\ (forall s', fst (searchCaselaw w query filter s') = Ok caselaw)
    /\ (forall s', fst (searchPubMed w query filter s') = Ok pubMed)
    /\ (Exists (fun e => scraping e = true)
               (appended (handleSearch Date_getTime w req now s) s)
        <-> Z.of_nat (length db + length (courtListener ++ caselaw ++ pubMed)) < limit).
Proof.
  intros query filter page limit Hmiss.
  destruct (handleSearch_miss Date_getTime w req now s Hmiss)
    as (db & cl & cap & pm & web & before & scraped & after
        & Hdb & Hcl & Hcap & Hpm & _ & Hscraped & Hbefore & Hafter & _ & Happ).
  exists db, cl, cap, pm. repeat (split; [done|]).
  fold query filter page limit in Happ. rewrite Happ, !Exists_app.
  apply quiet_no_scraping in Hbefore, Hafter.
  destruct (Z.ltb_spec (Z.of_nat (length db + length (cl ++ cap ++ pm))) limit).
  - split; [done | by right; left].
  - split; [|lia]. intros [?|[Hnil|?]]; [done | | done].
    by apply Exists_nil in Hnil.
Qed.

Lemma scraping_gated_witness :
  let w := world_with two_cases in
  let req := search_for "miranda" in
  let query := req_query req in
  let filter := req_filter req in
  let page := default 1 (req_page req) in
  let limit := default 20 (req_limit req) in
  exists db courtListener caselaw pubMed,
    (forall s', fst (searchInternalDatabase w query filter page limit s') = Ok db)
    /\ (forall s', fst (searchCourtListener w query filter s') = Ok courtListener)
    /\ (forall s', fst (searchCaselaw w query filter s') = Ok caselaw)
    /\ (forall s', fst (searchPubMed w query filter s') = Ok pubMed)
    /\ (Exists (fun e => scraping e = true)
               (appended (handleSearch Date_getTime_iso w req 0 initial) initial)
        <-> Z.of_nat (length db + length (courtListener ++ caselaw ++ pubMed)) < limit).
Proof.
  apply (scraping_gated Date_getTime_iso (world_with two_cases) (search_for "miranda")
           0 initial).
  reflexivity.
Defined.

(** With a limit of 1 the one stored case fills the page and the scraper
    stays idle; with the default limit it runs. *)
Example scraping_skipped_when_filled :
  let w := world_with [stored_case "1" "Miranda v. Arizona" (Some "The Miranda warning")] in
  let filled := {| req_query := Str "miranda"; req_filter := Undefined;
                   req_page := None; req_limit := Some 1 |} in
  forallb (fun e => negb (scraping e))
          (trace (snd (handleSearch Date_getTime_iso w filled 0 initial))) = true
  /\ existsb scraping
       (trace (snd (handleSearch Date_getTime_iso w (search_for "miranda") 0 initial)))
     = true.
Proof. split; vm_compute; reflexivity. Qed.

(** C8.  A search over a store holding one case: the store adapter returns
    the row without the already-in-store flag, and the last effect of the
    request is the persistence sink writing that very record back. *)
Theorem stored_case_written_back :
  let row := stored_case "1" "Miranda v. Arizona" (Some "The Miranda warning") in
  let w := world_with [row] in
  fst (searchInternalDatabase w (Str "miranda") Undefined 1 20 initial)
  = Ok [row_object row]
  /\ inDatabase (row_object row) = false
  /\ List.last (trace (snd (handleSearch Date_getTime_iso w (search_for "miranda")
                              0 initial))) (Log "")
     = StoreUpsert "legal_cases" [row_object row].
Proof. repeat split; vm_compute; reflexivity. Qed.

(** No record returned by the store adapter carries the flag. *)
Lemma searchInternalDatabase_unflagged (w : World) (query filter : value)
    (page limit : Z) (s : state) (db : list result) :
  fst (searchInternalDatabase w query filter page limit s) = Ok db ->
  Forall (fun r => inDatabase r = false) db.
Proof.
  destruct (searchInternalDatabase_runs w query filter page limit)
    as (db' & evs & Hruns & _ & Hdb).
  rewrite Hruns. simpl. by intros [= <-].
Qed.

(** The sink writes the unflagged records, and only them. *)
Lemma storeResultsInDatabase_unflagged (w : World) (rs : list result) (s : state)
    (table : string) (rows : list result) :
  StoreUpsert table rows ∈ appended (storeResultsInDatabase w rs s) s ->
  table = "legal_cases"
  /\ fmap rid rows = fmap rid (List.filter (fun r => negb (inDatabase r)) rs).
Proof.
  unfold storeResultsInDatabase, appended, bind, emit, ret.
  destruct (length _ =? 0)%nat.
  - rewrite drop_ge by done. by intros ?%elem_of_nil.
  - cbn beta iota. destruct (upsert w _ _); cbn [snd trace searchCache robotsTxtCache];
      rewrite <- ?app_assoc, drop_app_length; cbn [app];
      rewrite ?elem_of_cons, elem_of_nil; intros Hin;
      destruct_or!; try done; simplify_eq;
      (split; [done|]); rewrite <- !list_fmap_compose; by apply list_fmap_ext.
Qed.

(** C7.  Whatever the direction (and the depth), the lookup issues both
    store queries, first the one by target, then the one by source, and
    returns what it returns for [both]. *)
Theorem getCitationNetwork_ignores_direction (w : World) (id direction : string)
    (depth : Z) (s : state) :
  getCitationNetwork w id direction depth s = getCitationNetwork w id "both" 1 s
  /\ exists logs,
       appended (getCitationNetwork w id direction depth s) s
       = CitationsByTarget id :: CitationsBySource id :: logs.
Proof.
  split; [reflexivity|].
  unfold getCitationNetwork, appended, bind, emit, ret.
  destruct (citations_by_target w id), (citations_by_source w id);
    cbn [snd trace searchCache robotsTxtCache];
    rewrite <- ?app_assoc, drop_app_length; cbn [app]; eauto.
Qed.

(** C4.  The scraper of [index.js] waits for its limiter and requests the
    search page of the scraped site in every state and every world: no
    robots policy, cached or published, is consulted before the request,
    and the cache of policies is left as it was. *)
Theorem scrapeAllowedSources_skips_robots (w : World) (query filter : value)
    (s : state) :
  exists rest,
    appended (scrapeAllowedSources w query filter s) s
    = RateLimit "webScraperLimit"
      :: HttpGet "https://lawreview.stanford.edu/search" (params_of [("q", query)])
      :: rest
    /\ robotsTxtCache (snd (scrapeAllowedSources w query filter s)) = robotsTxtCache s.
Proof.
  destruct (scrapeAllowedSources_runs w query filter) as (rs & evs & rest & Hruns & ->).
  exists rest. pose proof (runs_appended _ _ _ s Hruns) as [_ Happ].
  split; [exact Happ|]. by rewrite Hruns.
Qed.

(** ** The result cache *)

Lemma cache_get_set (key : string) (v : resultPage) (t1 t2 : Z) (c : LRUCache) :
  t2 - t1 <= cache_maxAge ->
  fst (cache_get key t2 (cache_set key v t1 c)) = Some v.
Proof.
  intros Hage. unfold cache_set.
  change cache_max with (S (Nat.pred cache_max)). rewrite firstn_cons.
  unfold cache_get, cache_find. cbn [List.find ce_key].
  rewrite String.eqb_refl. cbn [ce_time ce_value].
  by destruct (Z.ltb_spec cache_maxAge (t2 - t1)); [lia|].
Qed.

(** A hit is answered from the cache with no effect at all. *)
Lemma handleSearch_hit (Date_getTime : string -> option Z) (w : World)
    (req : request) (now : Z) (s : state) (body : resultPage) :
  fst (cache_get (cacheKey (req_query req) (req_filter req)
                    (default 1 (req_page req)) (default 20 (req_limit req)))
         now (searchCache s)) = Some body ->
  fst (handleSearch Date_getTime w req now s) = Ok (Json body)
  /\ appended (handleSearch Date_getTime w req now s) s = [].
Proof.
  intros Hhit. unfold handleSearch, appended, catch, bind, cache_lookup, ret.
  destruct (cache_get _ now (searchCache s)) as [found c']. simpl in Hhit.
  subst found. cbn [fst snd trace]. split; [done|]. by apply drop_all.
Qed.

Lemma cache_find_remove (key : string) (c : LRUCache) :
  cache_find key (cache_remove key c) = None.
Proof.
  unfold cache_find, cache_remove. induction c as [|e c IH]; [done|].
  rewrite filter_cons. case_decide as Hkey; [|done].
  cbn [List.find]. apply String.eqb_neq in Hkey. by rewrite Hkey.
Qed.

Lemma cache_remove_app (key : string) (c1 c2 : LRUCache) :
  cache_remove key (c1 ++ c2) = cache_remove key c1 ++ cache_remove key c2.
Proof. unfold cache_remove. apply filter_app. Qed.

Lemma cache_remove_keys (key : string) (c : LRUCache) :
  fmap ce_key (cache_remove key c) `sublist_of` fmap ce_key c.
Proof. apply fmap_sublist, sublist_filter. Qed.

Lemma cache_remove_absent (key : string) (c : LRUCache) :
  key ∉ fmap ce_key (cache_remove key c).
Proof.
  intros [e [-> [Hne _]%list_elem_of_filter]]%list_elem_of_fmap. by apply Hne.
Qed.

Lemma cache_find_key (key : string) (c : LRUCache) (e : cache_entry) :
  cache_find key c = Some e -> ce_key e = key.
Proof.
  unfold cache_find. intros [_ Heq]%find_some. by apply String.eqb_eq.
Qed.

Lemma cache_find_middle (e : cache_entry) (pre post : LRUCache) :
  ce_key e ∉ fmap ce_key pre ->
  cache_find (ce_key e) (pre ++ e :: post) = Some e.
Proof.
  unfold cache_find. induction pre as [|e0 pre IH]; simpl.
  - by rewrite String.eqb_refl.
  - intros [Hne Hpre]%not_elem_of_cons.
    destruct (String.eqb_spec (ce_key e0) (ce_key e)) as [Heq|_]; [|by apply IH].
    by destruct Hne.
Qed.

Section Recency.
Variable e : cache_entry.
Variable K : list string.
Hypothesis key_apart : ce_key e ∉ K.
Hypothesis few_keys : (length (remove_dups K) < cache_max)%nat.

Lemma recent_length (pre : LRUCache) :
  NoDup (fmap ce_key pre) -> (forall k, k ∈ fmap ce_key pre -> k ∈ K) ->
  (length pre < cache_max)%nat.
Proof.
  intros Hnd Hsub. rewrite <- (length_fmap ce_key).
  eapply Nat.le_lt_trans; [|exact few_keys].
  apply submseteq_length, NoDup_submseteq; [done|].
  intros k Hk. by apply elem_of_remove_dups, Hsub.
Qed.

Lemma recent_remove (k : string) (pre post : LRUCache) :
  k ∈ K ->
  NoDup (fmap ce_key pre) -> (forall k', k' ∈ fmap ce_key pre -> k' ∈ K) ->
  cache_remove k (pre ++ e :: post)
  = cache_remove k pre ++ e :: cache_remove k post
  /\ NoDup (fmap ce_key (cache_remove k pre))
  /\ (forall k', k' ∈ fmap ce_key (cache_remove k pre) -> k' ∈ K).
Proof.
  intros Hk Hnd Hsub. split; [|split].
  - rewrite cache_remove_app. f_equal. unfold cache_remove.
    rewrite filter_cons. case_decide as Hne; [done|].
    exfalso. apply key_apart. by rewrite Hne.
  - eapply sublist_NoDup; [exact Hnd | apply cache_remove_keys].
  - intros k' Hk'. apply Hsub.
    eapply elem_of_sublist; [exact Hk' | apply cache_remove_keys].
Qed.

Lemma recent_apply (c : LRUCache) (op : cache_op) :
  op_key op ∈ K -> recent e K c -> recent e K (cache_apply c op).
Proof.
  intros Hk (pre & post & -> & Hnd & Hsub).
  destruct op as [k now|k v now]; simpl in Hk |- *.
  - unfold cache_get.
    destruct (cache_find k (pre ++ e :: post)) as [e'|] eqn:Hfind;
      [|by exists pre, post].
    destruct (recent_remove k pre post Hk Hnd Hsub) as (Hrem & Hnd' & Hsub').
    destruct (cache_maxAge <? now - ce_time e'); cbn [snd]; rewrite Hrem.
    + by eexists _, _.
    + exists (e' :: cache_remove k pre), (cache_remove k post).
      apply cache_find_key in Hfind. split; [done|]. split.
      * rewrite fmap_cons, Hfind. apply NoDup_cons. split; [|done].
        apply cache_remove_absent.
      * intros k'. rewrite fmap_cons, Hfind. intros [->|Hk']%elem_of_cons; auto.
  - unfold cache_set.
    destruct (recent_remove k pre post Hk Hnd Hsub) as (Hrem & Hnd' & Hsub').
    rewrite Hrem.
    assert (Hnd1 : NoDup (fmap ce_key (mkEntry k v now :: cache_remove k pre))).
    { rewrite fmap_cons. apply NoDup_cons. split; [|done]. apply cache_remove_absent. }
    assert (Hsub1 : forall k',
              k' ∈ fmap ce_key (mkEntry k v now :: cache_remove k pre) -> k' ∈ K).
    { intros k'. rewrite fmap_cons. intros [->|Hk']%elem_of_cons; auto. }
    pose proof (recent_length _ Hnd1 Hsub1) as Hlen.
    exists (mkEntry k v now :: cache_remove k pre),
           (take (cache_max - S (length (mkEntry k v now :: cache_remove k pre)))
                 (cache_remove k post)).
    split; [|done].
    rewrite (app_comm_cons _ _ (mkEntry k v now)).
    rewrite take_app_ge by lia.
    f_equal.
    replace (cache_max - length (mkEntry k v now :: cache_remove k pre))%nat
      with (S (cache_max - S (length (mkEntry k v now :: cache_remove k pre)))) by lia.
    done.
Qed.

Lemma recent_run (ops : list cache_op) (c : LRUCache) :
  Forall (fun op => op_key op ∈ K) ops -> recent e K c -> recent e K (cache_run ops c).
Proof.
  unfold cache_run. revert c.
  induction ops as [|op ops IH]; intros c Hops Hc; [done|].
  apply Forall_cons in Hops as [Hop Hops]. simpl. by apply IH, recent_apply.
Qed.

Lemma recent_find (c : LRUCache) : recent e K c -> cache_find (ce_key e) c = Some e.
Proof.
  intros (pre & post & -> & _ & Hsub). apply cache_find_middle.
  intros Hin. by apply key_apart, Hsub.
Qed.

End Recency.

(** X5.  An entry written at [t1] stays in the cache through every sequence
    of lookups and writes of other keys that names fewer than 1000 distinct
    keys: a lookup of its key at [t2] after them is answered with the entry
    while it is at most 24 hours old, and drops it once it is older.  (A
    thousand writes of other keys evict it, see
    [cache_evicts_least_recent].) *)
Theorem cache_entry_window (key : string) (v : resultPage) (t1 t2 : Z)
    (c : LRUCache) (ops : list cache_op) :
  Forall (fun op => op_key op <> key) ops ->
  (length (remove_dups (fmap op_key ops)) < cache_max)%nat ->
  let c' := cache_run ops (cache_set key v t1 c) in
  (t2 - t1 <= cache_maxAge -> fst (cache_get key t2 c') = Some v)
  /\ (cache_maxAge < t2 - t1 ->
      fst (cache_get key t2 c') = None
      /\ cache_find key (snd (cache_get key t2 c')) = None).
Proof.
  intros Hops Hfew c'.
  assert (Hfind : cache_find key c' = Some (mkEntry key v t1)).
  { assert (Hapart : ce_key (mkEntry key v t1) ∉ fmap op_key ops).
    { cbn [ce_key]. intros [op [-> Hop]]%list_elem_of_fmap.
      by eapply Forall_forall in Hops. }
    apply (recent_find (mkEntry key v t1) (fmap op_key ops) Hapart).
    apply (recent_run _ _ Hapart Hfew).
    - apply Forall_forall. intros op Hop. apply list_elem_of_fmap. by exists op.
    - exists [], (take (Nat.pred cache_max) (cache_remove key c)).
      split; [|split]; [done | constructor |].
      intros k Hk. by apply elem_of_nil in Hk. }
  unfold cache_get. rewrite Hfind. cbn [ce_time ce_value]. split; intros Hage.
  - by destruct (Z.ltb_spec cache_maxAge (t2 - t1)); [lia|].
  - destruct (Z.ltb_spec cache_maxAge (t2 - t1)); [|lia].
    split; [done|]. apply cache_find_remove.
Qed.

Lemma cache_entry_window_witness :
  let c' := cache_run [CacheSet "a" (paginateResults [] 1 20) 5; CacheGet "a" 7;
                       CacheGet "b" 8]
              (cache_set "k" (paginateResults [miranda] 1 20) 0 []) in
  (86400000 - 0 <= cache_maxAge ->
   fst (cache_get "k" 86400000 c') = Some (paginateResults [miranda] 1 20))
  /\ (cache_maxAge < 86400000 - 0 ->
      fst (cache_get "k" 86400000 c') = None
      /\ cache_find "k" (snd (cache_get "k" 86400000 c')) = None).
Proof.
  apply (cache_entry_window "k" (paginateResults [miranda] 1 20) 0 86400000 []
           [CacheSet "a" (paginateResults [] 1 20) 5; CacheGet "a" 7; CacheGet "b" 8]).
  - repeat constructor; discriminate.
  - vm_compute. lia.
Defined.

(** The thousandth write of another key evicts the entry. *)
Example cache_evicts_least_recent :
  let writes n := map (fun i => CacheSet (pretty i) (paginateResults [] 1 20) 1)
                      (seq 0 n) in
  let c := cache_set "k" (paginateResults [miranda] 1 20) 0 [] in
  fst (cache_get "k" 2 (cache_run (writes 999%nat) c))
  = Some (paginateResults [miranda] 1 20)
  /\ fst (cache_get "k" 2 (cache_run (writes 1000%nat) c)) = None.
Proof. vm_compute. done. Qed.

(** C9.  The cache key is the hyphen-joined rendering of query, filter, page
    and limit.  It is not injective: [request_one] and [request_two] differ
    and share a key.  Whenever a request that missed the cache was answered
    with a page, a later request with the same key, made while the entry is
    not older than 24 hours, is answered with that page whatever the world
    then holds, and no adapter is invoked.  In [world_by_query] the second
    sample request is thus answered with the page of the first, which is not
    the page it gets on an empty cache. *)
Theorem cacheKey_collision :
  (forall (query filter : value) (page limit : Z),
      cacheKey query filter page limit
      = template query +:+ "-" +:+ template filter +:+ "-" +:+ pretty page
          +:+ "-" +:+ pretty limit)
  /\ request_one <> request_two
  /\ cacheKey (req_query request_one) (req_filter request_one) 1 20
     = cacheKey (req_query request_two) (req_filter request_two) 1 20
  /\ (forall (Date_getTime : string -> option Z) (w1 w2 : World) (r1 r2 : request)
             (t1 t2 : Z) (s : state) (body : resultPage),
        let key r := cacheKey (req_query r) (req_filter r)
                       (default 1 (req_page r)) (default 20 (req_limit r)) in
        key r1 = key r2 ->
        fst (cache_get (key r1) t1 (searchCache s)) = None ->
        fst (handleSearch Date_getTime w1 r1 t1 s) = Ok (Json body) ->
        t2 - t1 <= cache_maxAge ->
        let s1 := snd (handleSearch Date_getTime w1 r1 t1 s) in
        fst (handleSearch Date_getTime w2 r2 t2 s1) = Ok (Json body)
        /\ appended (handleSearch Date_getTime w2 r2 t2 s1) s1 = [])
  /\ (let first := handleSearch Date_getTime_iso world_by_query request_one 0 initial in
      let second := handleSearch Date_getTime_iso world_by_query request_two 1000
                      (snd first) in
      let own := handleSearch Date_getTime_iso world_by_query request_two 1000 initial in
      fst second = fst first /\ fst own <> fst first).
Proof.
  split; [reflexivity|]. split; [discriminate|]. split; [reflexivity|]. split.
  - intros Date_getTime w1 w2 r1 r2 t1 t2 s body key Hkey Hmiss Hbody Hage s1.
    destruct (handleSearch_miss Date_getTime w1 r1 t1 s Hmiss)
      as (_ & _ & _ & _ & _ & _ & _ & _ & _ & _ & _ & _ & _ & _ & _ & _ & Hcache & _).
    apply handleSearch_hit. fold (key r2). rewrite <- Hkey. unfold s1.
    rewrite (Hcache body Hbody). by apply cache_get_set.
  - vm_compute. split; [reflexivity | discriminate].
Qed.

(** ** The site adapters of the web-scraper module *)

Lemma permissive_initial : permissive initial.
Proof.
  intros domain policy Hcached. unfold initial in Hcached.
  cbn [robotsTxtCache] in Hcached. by rewrite lookup_empty in Hcached.
Qed.

(** The three ways a policy lookup goes. *)
Lemma getRobotsTxt_cached (w : World) (domain : string) (s : state)
    (policy : string -> bool) :
  robotsTxtCache s !! domain = Some policy ->
  Scraper.getRobotsTxt w domain s = (Ok (Policy policy), s).
Proof.
  intros Hcached. unfold Scraper.getRobotsTxt, Scraper.cached_policy, bind, ret.
  by rewrite Hcached.
Qed.

Lemma getRobotsTxt_inherited (w : World) (domain : string) (s : state) :
  robotsTxtCache s !! domain = None -> inherited domain = true ->
  Scraper.getRobotsTxt w domain s = (Ok Inherited, s).
Proof.
  intros Hcached Hin. unfold Scraper.getRobotsTxt, Scraper.cached_policy, bind, ret.
  by rewrite Hcached, Hin.
Qed.

Lemma getRobotsTxt_fresh (w : World) (domain : string) (s : state) :
  robotsTxtCache s !! domain = None -> inherited domain = false ->
  Scraper.getRobotsTxt w domain s
  = (Ok (Policy (fun _ => true)),
     mkState (searchCache s) (<[domain := fun _ => true]> (robotsTxtCache s))
       (trace s ++ [HttpGet ("https://" +:+ domain +:+ "/robots.txt") [];
                    Log ("Error fetching robots.txt for " +:+ domain +:+ ":")])).
Proof.
  intros Hcached Hin.
  unfold Scraper.getRobotsTxt, Scraper.cached_policy, Scraper.remember,
    Scraper.parseRobotsTxt, bind, catch, emit, ret, throw, lift.
  rewrite Hcached, Hin. cbn beta iota. cbn [searchCache robotsTxtCache trace].
  destruct (http_get w _ _) as [data|]; cbn beta iota;
    cbn [searchCache robotsTxtCache trace]; by rewrite <- app_assoc.
Qed.

Lemma robots_events_quiet (host : string) (evs : list event) :
  robots_events host evs ->
  read_only evs /\ Forall (fun e => is_limit e = false) evs.
Proof. intros [->| ->]; split; by repeat constructor. Qed.

Lemma getRobotsTxt_run (w : World) (domain : string) (s : state) :
  exists found s1 evs,
    Scraper.getRobotsTxt w domain s = (Ok found, s1)
    /\ trace s1 = trace s ++ evs
    /\ searchCache s1 = searchCache s
    /\ robots_events domain evs
    /\ (permissive s ->
        permissive s1 /\ forall policy, found = Policy policy ->
                                       forall path, policy path = true)
    /\ (inherited domain = false ->
        exists policy,
          found = Policy policy
          /\ robotsTxtCache s1 !! domain = Some policy
          /\ (forall other, other <> domain ->
                robotsTxtCache s1 !! other = robotsTxtCache s !! other)
          /\ (robotsTxtCache s !! domain = None -> forall path, policy path = true)).
Proof.
  destruct (robotsTxtCache s !! domain) as [policy|] eqn:Hcached;
    [|destruct (inherited domain) eqn:Hin].
  - rewrite (getRobotsTxt_cached _ _ _ _ Hcached).
    exists (Policy policy), s, []. rewrite app_nil_r.
    split; [done|]. split; [done|]. split; [done|]. split; [by left|]. split.
    + intros Hs. split; [done|]. intros ? [= <-]. by apply (Hs domain).
    + intros _. by exists policy.
  - rewrite (getRobotsTxt_inherited _ _ _ Hcached Hin).
    exists Inherited, s, []. rewrite app_nil_r.
    split; [done|]. split; [done|]. split; [done|]. split; [by left|]. split; [|done].
    intros Hs. split; [done|]. by intros ? [=].
  - rewrite (getRobotsTxt_fresh _ _ _ Hcached Hin).
    eexists _, _, _. split; [reflexivity|]. cbn [trace searchCache robotsTxtCache].
    split; [done|]. split; [done|]. split; [by right|]. split.
    + intros Hs. split; [|by intros ? [= <-]].
      intros other policy. cbn [robotsTxtCache].
      destruct (decide (other = domain)) as [->|Hne].
      * rewrite lookup_insert_eq. by intros [= <-].
      * rewrite lookup_insert_ne by done. apply Hs.
    + intros _. eexists. split; [reflexivity|]. split; [apply lookup_insert_eq|].
      split; [|done]. intros other Hne. by rewrite lookup_insert_ne.
Qed.

(** The ways a permission check goes. *)
Lemma isScrapingAllowed_unparsed (w : World) (url : string) (s : state) :
  URL_parse url = Throw ->
  Scraper.isScrapingAllowed w url s
  = (Ok false, mkState (searchCache s) (robotsTxtCache s)
                 (trace s ++ [Log "Error checking scraping permission:"])).
Proof.
  intros Hurl. unfold Scraper.isScrapingAllowed, catch, bind, lift. by rewrite Hurl.
Qed.

Lemma isScrapingAllowed_inherited (w : World) (url : string) (s : state) (u : URL) :
  URL_parse url = Ok u ->
  robotsTxtCache s !! hostname u = None -> inherited (hostname u) = true ->
  Scraper.isScrapingAllowed w url s
  = (Ok false, mkState (searchCache s) (robotsTxtCache s)
                 (trace s ++ [Log "Error checking scraping permission:"])).
Proof.
  intros Hurl Hcached Hin. unfold Scraper.isScrapingAllowed, catch, bind, lift.
  rewrite Hurl. cbn beta iota. by rewrite (getRobotsTxt_inherited _ _ _ Hcached Hin).
Qed.

Lemma isScrapingAllowed_policy (w : World) (url : string) (s : state) (u : URL) :
  URL_parse url = Ok u -> inherited (hostname u) = false ->
  exists policy s1 evs,
    Scraper.isScrapingAllowed w url s = (Ok (policy (pathname u)), s1)
    /\ trace s1 = trace s ++ evs
    /\ searchCache s1 = searchCache s
    /\ robots_events (hostname u) evs
    /\ (permissive s -> permissive s1 /\ policy (pathname u) = true).
Proof.
  intros Hurl Hin.
  destruct (getRobotsTxt_run w (hostname u) s)
    as (found & s1 & evs & Hrun & Htr & Hcache & Hevs & Hperm & Hpolicy).
  destruct (Hpolicy Hin) as (policy & -> & _).
  exists policy, s1, evs.
  unfold Scraper.isScrapingAllowed, catch, bind, lift. rewrite Hurl. cbn beta iota.
  rewrite Hrun. cbn beta iota. unfold ret.
  split; [done|]. split; [done|]. split; [done|]. split; [done|].
  intros Hs. destruct (Hperm Hs) as [Hs1 Hall]. split; [done|]. by apply Hall.
Qed.

Lemma isScrapingAllowed_run (w : World) (url : string) (s : state) :
  exists allowed s1 evs,
    Scraper.isScrapingAllowed w url s = (Ok allowed, s1)
    /\ trace s1 = trace s ++ evs /\ read_only evs
    /\ Forall (fun e => is_limit e = false) evs
    /\ (permissive s -> permissive s1).
Proof.
  destruct (URL_parse url) as [u|] eqn:Hurl.
  - destruct (getRobotsTxt_run w (hostname u) s)
      as (found & s1 & evs & Hrun & Htr & _ & Hevs & Hperm & _).
    apply robots_events_quiet in Hevs as [Hro Hlim].
    unfold Scraper.isScrapingAllowed, catch, bind, lift. rewrite Hurl. cbn beta iota.
    rewrite Hrun. cbn beta iota. destruct found as [policy|].
    + unfold ret. eexists _, _, _. split; [reflexivity|]. split; [done|].
      split; [done|]. split; [done|]. intros Hs. by apply Hperm.
    + unfold throw, bind, emit, ret. eexists _, _, _. split; [reflexivity|].
      cbn [trace robotsTxtCache]. rewrite Htr, <- app_assoc.
      split; [reflexivity|].
      split; [apply Forall_app; split; [done | by repeat constructor]|].
      split; [apply Forall_app; split; [done | by repeat constructor]|].
      intros Hs. destruct (Hperm Hs) as [Hs1 _]. exact Hs1.
  - rewrite (isScrapingAllowed_unparsed _ _ _ Hurl). eexists _, _, _.
    split; [reflexivity|]. cbn [trace]. split; [reflexivity|].
    split; [by repeat constructor|]. split; [by repeat constructor | done].
Qed.

(** The shared body of the site adapters never stops at the robots check:
    from a state whose cached policies are permissive it awaits the limiter
    and requests the page. *)
Lemma scrapeSite_open (w : World) (domain url : string)
    (format : string -> outcome (list result)) (s : state) (u : URL) :
  URL_parse url = Ok u -> inherited (hostname u) = false -> permissive s ->
  exists robots rest,
    appended (Scraper.scrapeSite w domain url format s) s
    = robots ++ [RateLimit domain; HttpGet url []] ++ rest
    /\ robots_events (hostname u) robots
    /\ (rest = [] \/ rest = [Log ("Error scraping " +:+ domain +:+ ":")]).
Proof.
  intros Hurl Hin Hs.
  destruct (isScrapingAllowed_policy w url s u Hurl Hin)
    as (policy & s1 & evs & Hrun & Htr & _ & Hevs & Hperm).
  destruct (Hperm Hs) as [_ Hallowed].
  exists evs. unfold Scraper.scrapeSite, appended, bind at 1.
  rewrite Hrun, Hallowed. cbn [negb]. cbn beta iota.
  unfold Scraper.getRateLimiter, catch, bind, emit, ret, throw, lift.
  cbn [searchCache robotsTxtCache trace].
  destruct (http_get w url []) as [[html| | | |]|]; cbn beta iota;
    try (eexists; cbn [snd trace]; rewrite Htr, <- !app_assoc, drop_app_length;
         split; [reflexivity|]; split; [done | by right]).
  destruct (format html); cbn beta iota;
    eexists; cbn [snd trace]; rewrite Htr, <- !app_assoc, drop_app_length.
  - split; [by rewrite app_nil_r|]. split; [done | by left].
  - split; [reflexivity|]. split; [done | by right].
Qed.

(** X3.  The robots check of the four site adapters of the web-scraper
    module never holds a request back.  The check is made, but the policy
    it consults is always the permissive default, because the parser of
    the fetched robots.txt cannot be called; so in a process that has only
    run this code (its cached policies are permissive) each adapter, after
    at most the request for the site's robots.txt and the log of its
    failure, awaits its limiter and requests its search page, whatever the
    site publishes. *)
Theorem site_adapters_never_blocked (w : World) (query : value) (s : state) :
  permissive s ->
  let q := encodeURIComponent (template query) in
  let scraped domain host url (run : outcome (list result) * state) :=
    exists robots rest,
      appended run s = robots ++ [RateLimit domain; HttpGet url []] ++ rest
      /\ robots_events host robots
      /\ (rest = [] \/ rest = [Log ("Error scraping " +:+ domain +:+ ":")]) in
  scraped "lawreview.stanford.edu" "lawreview.stanford.edu"
    ("https://lawreview.stanford.edu/search?search_api_fulltext=" +:+ q)
    (Scraper.scrapeStanfordLawReview w query s)
  /\ scraped "harvardlawreview.org" "harvardlawreview.org"
       ("https://harvardlawreview.org/?s=" +:+ q)
       (Scraper.scrapeHarvardLawReview w query s)
  /\ scraped "yalelawjournal.org" "www.yalelawjournal.org"
       ("https://www.yalelawjournal.org/search?q=" +:+ q)
       (Scraper.scrapeYaleLawJournal w query s)
  /\ scraped "supremecourt.gov" "www.supremecourt.gov"
       ("https://www.supremecourt.gov/search.aspx?Search=" +:+ q +:+ "&type=Site")
       (Scraper.scrapeSupremeCourt w query s).
Proof.
  intros Hs. cbv zeta. split; [|split; [|split]].
  - by apply (scrapeSite_open w "lawreview.stanford.edu" _ _ s
                (mkURL "lawreview.stanford.edu" "/search")).
  - by apply (scrapeSite_open w "harvardlawreview.org" _ _ s
                (mkURL "harvardlawreview.org" "/")).
  - by apply (scrapeSite_open w "yalelawjournal.org" _ _ s
                (mkURL "www.yalelawjournal.org" "/search")).
  - by apply (scrapeSite_open w "supremecourt.gov" _ _ s
                (mkURL "www.supremecourt.gov" "/search.aspx")).
Qed.

Lemma site_adapters_never_blocked_witness :
  let scraped domain host url (run : outcome (list result) * state) :=
    exists robots rest,
      appended run initial = robots ++ [RateLimit domain; HttpGet url []] ++ rest
      /\ robots_events host robots
      /\ (rest = [] \/ rest = [Log ("Error scraping " +:+ domain +:+ ":")]) in
  scraped "lawreview.stanford.edu" "lawreview.stanford.edu"
    ("https://lawreview.stanford.edu/search?search_api_fulltext="
       +:+ encodeURIComponent (template (Str "miranda")))
    (Scraper.scrapeStanfordLawReview open_world (Str "miranda") initial)
  /\ scraped "harvardlawreview.org" "harvardlawreview.org"
       ("https://harvardlawreview.org/?s="
          +:+ encodeURIComponent (template (Str "miranda")))
       (Scraper.scrapeHarvardLawReview open_world (Str "miranda") initial)
  /\ scraped "yalelawjournal.org" "www.yalelawjournal.org"
       ("https://www.yalelawjournal.org/search?q="
          +:+ encodeURIComponent (template (Str "miranda")))
       (Scraper.scrapeYaleLawJournal open_world (Str "miranda") initial)
  /\ scraped "supremecourt.gov" "www.supremecourt.gov"
       ("https://www.supremecourt.gov/search.aspx?Search="
          +:+ encodeURIComponent (template (Str "miranda")) +:+ "&type=Site")
       (Scraper.scrapeSupremeCourt open_world (Str "miranda") initial).
Proof.
  apply (site_adapters_never_blocked open_world (Str "miranda") initial).
  intros domain policy Hcached. vm_compute in Hcached. discriminate Hcached.
Defined.

(** ** Filters *)

Lemma split_on_nonempty (c : ascii) (s : string) : split_on c s <> [].
Proof.
  destruct s as [|a s]; simpl; [done|].
  destruct (Ascii.eqb a c); [done|]. by destruct (split_on c s).
Qed.

(** Splitting distributes over a separator. *)
Lemma split_on_app (c : ascii) (a b : string) :
  split_on c (a +:+ String c b) = split_on c a ++ split_on c b.
Proof.
  induction a as [|x a IH]; simpl.
  - by rewrite Ascii.eqb_refl.
  - destruct (Ascii.eqb x c); [by rewrite IH|].
    rewrite IH. pose proof (split_on_nonempty c a) as Hne.
    by destruct (split_on c a).
Qed.

Lemma split_on_absent (c : ascii) (s : string) :
  has_char c s = false -> split_on c s = [s].
Proof.
  induction s as [|a s IH]; simpl; [done|].
  intros [Ha Hs]%orb_false_iff. rewrite Ha, (IH Hs). done.
Qed.

Lemma parseFilters_fold (s : string) :
  parseFilters (Str s) = fold_left parseFilters_step (split_on "," s) [].
Proof.
  unfold parseFilters. simpl. destruct (String.eqb_spec s "") as [->|Hs]; done.
Qed.

Section ObjectFacts.
Context {V : Type}.
Implicit Types (k : string) (v : V) (o : list (string * V)).

Lemma obj_get_None k o : k ∉ fmap fst o -> obj_get k o = None.
Proof.
  induction o as [|[k0 v0] o IH]; simpl; [done|].
  rewrite not_elem_of_cons. intros [Hne Hk].
  destruct (String.eqb_spec k k0); [done | by apply IH].
Qed.

Lemma obj_get_Some k v o : obj_get k o = Some v -> k ∈ fmap fst o.
Proof.
  induction o as [|[k0 v0] o IH]; simpl; [done|].
  destruct (String.eqb_spec k k0) as [->|Hne]; intros Hget.
  - apply list_elem_of_here.
  - apply list_elem_of_further. by apply IH.
Qed.

Lemma obj_get_keys k o : k ∈ fmap fst o -> is_Some (obj_get k o).
Proof.
  induction o as [|[k1 v1] o IH]; simpl; [by intros ?%elem_of_nil|].
  intros [->|Hin]%elem_of_cons.
  - rewrite String.eqb_refl. by eexists.
  - destruct (String.eqb k k1); [by eexists | by apply IH].
Qed.

Lemma obj_get_app k o o' :
  obj_get k (o ++ o')
  = match obj_get k o with Some v => Some v | None => obj_get k o' end.
Proof.
  induction o as [|[k0 v0] o IH]; simpl; [done|].
  by destruct (String.eqb k k0).
Qed.

Lemma obj_get_replace_eq k v v0 o :
  obj_get k o = Some v0 -> obj_get k (obj_replace k v o) = Some v.
Proof.
  induction o as [|[k1 v1] o IH]; simpl; [done|].
  destruct (String.eqb_spec k k1) as [->|Hne]; simpl.
  - by rewrite String.eqb_refl.
  - intros Hget. destruct (String.eqb_spec k k1); [done | by apply IH].
Qed.

Lemma obj_get_replace_ne k k' v o :
  k' <> k -> obj_get k' (obj_replace k v o) = obj_get k' o.
Proof.
  intros Hne. induction o as [|[k1 v1] o IH]; simpl; [done|].
  destruct (String.eqb_spec k k1) as [->|Hk]; simpl.
  - by destruct (String.eqb_spec k' k1).
  - by rewrite IH.
Qed.

Lemma obj_get_insert_eq i k v o :
  obj_get k o = None -> obj_get k (obj_insert_index i k v o) = Some v.
Proof.
  induction o as [|[k1 v1] o IH]; simpl.
  - by rewrite String.eqb_refl.
  - destruct (String.eqb_spec k k1) as [->|Hne]; [done|]. intros Hget.
    destruct (array_index k1) as [j|]; [destruct (j <? i)|]; simpl;
      rewrite ?String.eqb_refl; try done.
    destruct (String.eqb_spec k k1); [done | by apply IH].
Qed.

Lemma obj_get_insert_ne i k k' v o :
  k' <> k -> obj_get k' (obj_insert_index i k v o) = obj_get k' o.
Proof.
  intros Hne. apply String.eqb_neq in Hne.
  induction o as [|[k1 v1] o IH]; simpl; [by rewrite Hne|].
  destruct (array_index k1) as [j|]; [destruct (j <? i)|]; simpl;
    rewrite ?Hne, ?IH; done.
Qed.

Lemma obj_get_set_eq k v o : obj_get k (obj_set k v o) = Some v.
Proof.
  unfold obj_set. destruct (obj_get k o) as [v0|] eqn:Hget.
  - by apply (obj_get_replace_eq _ _ v0).
  - destruct (array_index k); [by apply obj_get_insert_eq|].
    rewrite obj_get_app, Hget. simpl. by rewrite String.eqb_refl.
Qed.

Lemma obj_get_set_ne k k' v o :
  k' <> k -> obj_get k' (obj_set k v o) = obj_get k' o.
Proof.
  intros Hne. unfold obj_set. destruct (obj_get k o) as [v0|].
  - by apply obj_get_replace_ne.
  - destruct (array_index k); [by apply obj_get_insert_ne|].
    rewrite obj_get_app. simpl. apply String.eqb_neq in Hne. rewrite Hne.
    by destruct (obj_get k' o).
Qed.

Lemma obj_replace_keys k v v0 o :
  obj_get k o = Some v0 -> fmap fst (obj_replace k v o) = fmap fst o.
Proof.
  induction o as [|[k1 v1] o IH]; simpl; [done|].
  destruct (String.eqb_spec k k1) as [->|Hne]; simpl; [done|].
  intros Hget. f_equal. by apply IH.
Qed.

Lemma obj_insert_index_keys i k v o :
  fmap fst (obj_insert_index i k v o) ≡ₚ k :: fmap fst o.
Proof.
  induction o as [|[k1 v1] o IH]; simpl; [done|].
  destruct (array_index k1) as [j|]; [destruct (j <? i)|]; simpl; try done.
  rewrite IH. apply Permutation_swap.
Qed.

(** Defining a property creates at most that key. *)
Lemma obj_set_keys_perm k v o :
  fmap fst (obj_set k v o)
  ≡ₚ match obj_get k o with
     | Some _ => fmap fst o
     | None => k :: fmap fst o
     end.
Proof.
  unfold obj_set. destruct (obj_get k o) as [v0|] eqn:Hget.
  - by rewrite (obj_replace_keys _ _ v0).
  - destruct (array_index k); [apply obj_insert_index_keys|].
    rewrite fmap_app. simpl. by rewrite Permutation_app_comm.
Qed.

Lemma obj_set_keys k v o k' :
  k' ∈ fmap fst (obj_set k v o) <-> k' = k \/ k' ∈ fmap fst o.
Proof.
  rewrite obj_set_keys_perm. destruct (obj_get k o) as [v0|] eqn:Hget.
  - split; [tauto|]. intros [->|?]; [by apply (obj_get_Some _ v0) | done].
  - by rewrite elem_of_cons.
Qed.

Lemma obj_set_NoDup k v o :
  NoDup (fmap fst o) -> NoDup (fmap fst (obj_set k v o)).
Proof.
  intros Hnd. rewrite obj_set_keys_perm.
  destruct (obj_get k o) as [v0|] eqn:Hget; [done|].
  apply NoDup_cons. split; [|done].
  intros Hin%obj_get_keys. rewrite Hget in Hin. by apply is_Some_None in Hin.
Qed.

Lemma obj_spread_NoDup (a b : list (string * V)) :
  NoDup (fmap fst a) -> NoDup (fmap fst (obj_spread a b)).
Proof.
  unfold obj_spread. revert a.
  induction b as [|[k1 v1] b IH]; intros a Hnd; simpl; [done|].
  by apply IH, obj_set_NoDup.
Qed.

(** [{...a, ...b}[k]]: the property of [b] if it has one, else that of [a]. *)
Lemma obj_get_spread k (a b : list (string * V)) :
  NoDup (fmap fst b) ->
  obj_get k (obj_spread a b)
  = match obj_get k b with
    | Some v => Some v
    | None => obj_get k a
    end.
Proof.
  unfold obj_spread. revert a.
  induction b as [|[k1 v1] b IH]; intros a Hnd; simpl; [done|].
  apply NoDup_cons in Hnd as [Hk1 Hnd]. rewrite (IH _ Hnd). cbn [fst snd] in *.
  destruct (String.eqb_spec k k1) as [->|Hne].
  - by rewrite (obj_get_None _ _ Hk1), obj_get_set_eq.
  - by rewrite obj_get_set_ne.
Qed.

End ObjectFacts.

Lemma as_values_keys (o : object) : fmap fst (as_values o) = fmap fst o.
Proof.
  unfold as_values. induction o as [|[k v] o IH]; simpl; [done|].
  f_equal. apply IH.
Qed.

Lemma obj_get_as_values (k : string) (o : object) :
  obj_get k (as_values o) = Str <$> obj_get k o.
Proof.
  unfold as_values. induction o as [|[k1 v1] o IH]; simpl; [done|].
  by destruct (String.eqb k k1).
Qed.

(** A parameter is sent when its value is a string. *)
Lemma obj_get_params_of (k : string) (ps : list (string * value)) :
  NoDup (fmap fst ps) ->
  obj_get k (params_of ps)
  = match obj_get k ps with
    | Some (Str s) => Some s
    | _ => None
    end.
Proof.
  unfold params_of. induction ps as [|[k1 v1] ps IH]; simpl; [done|].
  intros [Hk1 Hnd]%NoDup_cons. specialize (IH Hnd).
  destruct (String.eqb_spec k k1) as [->|Hne].
  - rewrite (obj_get_None _ _ Hk1) in IH.
    destruct v1; simpl; rewrite ?String.eqb_refl; first [done | exact IH].
  - destruct v1; simpl; try exact IH.
    by destruct (String.eqb_spec k k1).
Qed.

Lemma has_char_app (c : ascii) (a b : string) :
  has_char c (a +:+ b) = has_char c a || has_char c b.
Proof. induction a as [|x a IH]; simpl; [done|]. by rewrite IH, orb_assoc. Qed.

Lemma parseFilters_snoc (a frag : string) :
  has_char "," frag = false ->
  parseFilters (Str (a +:+ "," +:+ frag))
  = parseFilters_step (parseFilters (Str a)) frag.
Proof.
  intros Hfrag. rewrite !parseFilters_fold.
  change ("," +:+ frag) with (String "," frag).
  by rewrite split_on_app, fold_left_app, (split_on_absent _ frag Hfrag).
Qed.

(** X7.  The last occurrence of a filter key wins: after any filter string,
    a further fragment [key:value] (both non-empty, free of commas and
    colons) whose key is not [__proto__] makes the parsed filters hold the
    own property [key] with that value and leaves every other property as
    the earlier fragments set it; a fragment whose key is [__proto__]
    leaves the parsed filters as they were. *)
Theorem parseFilters_last_wins (a k v : string) :
  k <> "" -> v <> "" ->
  has_char "," k = false -> has_char ":" k = false ->
  has_char "," v = false -> has_char ":" v = false ->
  let filters := parseFilters (Str (a +:+ "," +:+ k +:+ ":" +:+ v)) in
  (k <> "__proto__" ->
   obj_get k filters = Some v
   /\ forall k', k' <> k -> obj_get k' filters = obj_get k' (parseFilters (Str a)))
  /\ (k = "__proto__" -> filters = parseFilters (Str a)).
Proof.
  intros Hk Hv Hk1 Hk2 Hv1 Hv2 filters. unfold filters.
  rewrite parseFilters_snoc.
  2:{ change (":" +:+ v) with (String ":" v).
      rewrite has_char_app. simpl. by rewrite Hk1, Hv1. }
  unfold parseFilters_step. change (":" +:+ v) with (String ":" v).
  rewrite split_on_app, (split_on_absent _ k Hk2), (split_on_absent _ v Hv2).
  simpl. apply String.eqb_neq in Hk, Hv. rewrite Hk, Hv. simpl.
  unfold obj_assign. split.
  - intros Hproto. apply String.eqb_neq in Hproto. rewrite Hproto.
    split; [apply obj_get_set_eq|]. intros k' Hk'. by apply obj_get_set_ne.
  - by intros ->.
Qed.

Lemma parseFilters_last_wins_witness :
  let filters := parseFilters (Str ("court:scotus,year:1966" +:+ "," +:+ "court"
                                      +:+ ":" +:+ "ca9")) in
  ("court" <> "__proto__" ->
   obj_get "court" filters = Some "ca9"
   /\ forall k', k' <> "court" ->
        obj_get k' filters = obj_get k' (parseFilters (Str "court:scotus,year:1966")))
  /\ ("court" = "__proto__" ->
      filters = parseFilters (Str "court:scotus,year:1966")).
Proof.
  apply (parseFilters_last_wins "court:scotus,year:1966" "court" "ca9");
    (reflexivity || discriminate).
Defined.

Example parseFilters_enumeration :
  parseFilters (Str "court:scotus,10:x,__proto__:y,2:z,court:ca9,01:w")
  = [("2", "z"); ("10", "x"); ("court", "ca9"); ("01", "w")].
Proof. vm_compute. reflexivity. Qed.

(** X8.  Malformed fragments are dropped without a trace: a fragment with
    no colon, with an empty key or with an empty value leaves the parsed
    filters as the fragments before it set them. *)
Theorem parseFilters_drops_malformed (a frag : string) :
  has_char "," frag = false ->
  has_char ":" frag = false
  \/ (exists rest, frag = ":" +:+ rest)
  \/ (exists key, frag = key +:+ ":" /\ has_char ":" key = false) ->
  parseFilters (Str (a +:+ "," +:+ frag)) = parseFilters (Str a).
Proof.
  intros Hcomma Hbad. rewrite (parseFilters_snoc _ _ Hcomma).
  unfold parseFilters_step. destruct Hbad as [Hno|[[rest ->]|[key [-> Hkey]]]].
  - by rewrite (split_on_absent _ _ Hno).
  - simpl. by destruct (split_on ":" _).
  - change (key +:+ ":") with (key +:+ String ":" "").
    rewrite split_on_app, (split_on_absent _ _ Hkey). simpl.
    by rewrite andb_false_r.
Qed.

Lemma parseFilters_drops_malformed_witness :
  parseFilters (Str ("court:scotus" +:+ "," +:+ "federal")) = parseFilters (Str "court:scotus").
Proof.
  apply (parseFilters_drops_malformed "court:scotus" "federal");
    [reflexivity | left; reflexivity].
Defined.

(** The parsed filters never hold a key twice. *)
Lemma parseFilters_NoDup (filterString : value) :
  NoDup (fmap fst (parseFilters filterString)).
Proof.
  unfold parseFilters. destruct (negb (truthy filterString)); [constructor|].
  assert (Hfold : forall parts o, NoDup (fmap fst o) ->
            NoDup (fmap fst (fold_left parseFilters_step parts o))).
  { induction parts as [|part parts IH]; intros o Ho; simpl; [done|].
    apply IH. unfold parseFilters_step, obj_assign.
    destruct (split_on ":" part) as [|key [|value ?]]; try done.
    destruct (truthy (Str key) && truthy (Str value)); [|done].
    destruct (String.eqb key "__proto__"); [done | by apply obj_set_NoDup]. }
  apply Hfold. constructor.
Qed.

(** No fragment makes [__proto__] a property of the parsed filters. *)
Lemma parseFilters_no_proto (filterString : value) :
  obj_get "__proto__" (parseFilters filterString) = None.
Proof.
  unfold parseFilters. destruct (negb (truthy filterString)); [done|].
  assert (Hfold : forall parts o, obj_get "__proto__" o = None ->
            obj_get "__proto__" (fold_left parseFilters_step parts o) = None).
  { induction parts as [|part parts IH]; intros o Ho; simpl; [done|].
    apply IH. unfold parseFilters_step, obj_assign.
    destruct (split_on ":" part) as [|key [|value ?]]; try done.
    destruct (truthy (Str key) && truthy (Str value)); [|done].
    destruct (String.eqb_spec key "__proto__") as [->|Hne]; [done|].
    rewrite obj_get_set_ne; [done | by intros <-]. }
  by apply Hfold.
Qed.

Lemma params_of_keys (ps : list (string * value)) :
  fmap fst (params_of ps) `sublist_of` fmap fst ps.
Proof.
  unfold params_of. induction ps as [|[k v] ps IH]; simpl; [done|].
  destruct v; simpl; [by apply sublist_cons.. | by apply sublist_skip].
Qed.

(** The parameters [{ name: query, ...parseFilters(filter) }] as sent. *)
Lemma obj_get_sent (name k : string) (query filter : value) :
  obj_get k (params_of (obj_spread [(name, query)] (as_values (parseFilters filter))))
  = match obj_get k (parseFilters filter) with
    | Some v => Some v
    | None => if String.eqb k name
              then match query with Str q => Some q | _ => None end
              else None
    end.
Proof.
  rewrite obj_get_params_of.
  2:{ apply obj_spread_NoDup. simpl. apply NoDup_singleton. }
  rewrite obj_get_spread.
  2:{ rewrite as_values_keys. apply parseFilters_NoDup. }
  rewrite obj_get_as_values.
  destruct (obj_get k (parseFilters filter)); simpl; [done|].
  destruct (String.eqb k name); [|done]. by destruct query.
Qed.

(** X9.  The request parameters sent to CourtListener and to the Caselaw
    Access Project are the parsed filters laid over the search term: no
    name is sent twice, every own property of the parsed filters is sent
    with its value, and the term is sent as [q] (respectively [search])
    only when it is a string and the parsed filters have no such property,
    so a filter fragment [q:...] replaces the query of the search.  A
    fragment [__proto__:...] leaves no property and is never sent. *)
Theorem filters_override_search_term (w : World) (query filter : value) (s : state) :
  let sent name k :=
    match obj_get k (parseFilters filter) with
    | Some v => Some v
    | None => if String.eqb k name
              then match query with Str q => Some q | _ => None end
              else None
    end in
  (exists params rest,
      appended (searchCourtListener w query filter s) s
      = RateLimit "courtListenerLimit"
        :: HttpGet "https://www.courtlistener.com/api/rest/v3/search/" params :: rest
      /\ NoDup (fmap fst params)
      /\ obj_get "__proto__" params = None
      /\ forall k, obj_get k params = sent "q" k)
  /\ (exists params rest,
        appended (searchCaselaw w query filter s) s
        = RateLimit "caseAccessLimit"
          :: HttpGet "https://api.case.law/v1/cases/" params :: rest
        /\ NoDup (fmap fst params)
        /\ obj_get "__proto__" params = None
        /\ forall k, obj_get k params = sent "search" k).
Proof.
  intros sent.
  assert (Hnd : forall name,
    NoDup (fmap fst (params_of (obj_spread [(name, query)]
                                  (as_values (parseFilters filter)))))).
  { intros name. eapply sublist_NoDup; [|apply params_of_keys].
    apply obj_spread_NoDup. simpl. apply NoDup_singleton. }
  split.
  - assert (Hruns : exists rs evs rest,
      runs (searchCourtListener w query filter) (Ok rs) evs
      /\ evs = RateLimit "courtListenerLimit"
               :: HttpGet "https://www.courtlistener.com/api/rest/v3/search/"
                    (params_of (obj_spread [("q", query)]
                                  (as_values (parseFilters filter))))
               :: rest).
    { unfold searchCourtListener.
      destruct (http_get w _ _) as [[]|]; eexists _, _, _;
        (split; [runs_steps | reflexivity]). }
    destruct Hruns as (rs & evs & rest & Hruns & ->).
    pose proof (runs_appended _ _ _ s Hruns) as [_ ->].
    eexists _, rest. split; [reflexivity|]. split; [apply Hnd|].
    split; [|intros k; apply obj_get_sent].
    by rewrite obj_get_sent, parseFilters_no_proto.
  - assert (Hruns : exists rs evs rest,
      runs (searchCaselaw w query filter) (Ok rs) evs
      /\ evs = RateLimit "caseAccessLimit"
               :: HttpGet "https://api.case.law/v1/cases/"
                    (params_of (obj_spread [("search", query)]
                                  (as_values (parseFilters filter))))
               :: rest).
    { unfold searchCaselaw.
      destruct (http_get w _ _) as [[| |rs| |]|];
        try destruct (mapM formatCaselawResult rs); eexists _, _, _;
        (split; [runs_steps | reflexivity]). }
    destruct Hruns as (rs & evs & rest & Hruns & ->).
    pose proof (runs_appended _ _ _ s Hruns) as [_ ->].
    eexists _, rest. split; [reflexivity|]. split; [apply Hnd|].
    split; [|intros k; apply obj_get_sent].
    by rewrite obj_get_sent, parseFilters_no_proto.
Qed.

Example filter_replaces_query :
  appended (searchCourtListener (world_with []) (Str "miranda") (Str "q:gideon") initial)
           initial
  = [RateLimit "courtListenerLimit";
     HttpGet "https://www.courtlistener.com/api/rest/v3/search/" [("q", "gideon")];
     Log "CourtListener API error:"].
Proof. vm_compute. reflexivity. Qed.

Example filters_sent_in_enumeration_order :
  appended (searchCaselaw (world_with []) (Str "miranda")
              (Str "court:us,__proto__:x,1966:y") initial) initial
  = [RateLimit "caseAccessLimit";
     HttpGet "https://api.case.law/v1/cases/"
       [("1966", "y"); ("search", "miranda"); ("court", "us")];
     Log "Caselaw Access Project API error:"].
Proof. vm_compute. reflexivity. Qed.

(** ** The search handler as a pipeline *)

Lemma runs_functional {A} (m : M A) a a' evs evs' :
  runs m a evs -> runs m a' evs' -> a = a' /\ evs = evs'.
Proof.
  intros H1 H2. specialize (H1 initial). rewrite (H2 initial) in H1.
  by injection H1 as -> ->.
Qed.

Lemma adapters_read_only (w : World) (query filter : value) (page limit : Z) :
  (exists rs evs, runs (searchInternalDatabase w query filter page limit) (Ok rs) evs
                  /\ read_only evs)
  /\ (exists rs evs, runs (searchCourtListener w query filter) (Ok rs) evs
                     /\ read_only evs)
  /\ (exists rs evs, runs (searchCaselaw w query filter) (Ok rs) evs /\ read_only evs)
  /\ (exists rs evs, runs (searchPubMed w query filter) (Ok rs) evs /\ read_only evs)
  /\ (exists rs evs, runs (scrapeAllowedSources w query filter) (Ok rs) evs
                     /\ read_only evs).
Proof.
  repeat split.
  - unfold searchInternalDatabase.
    destruct (legal_cases_search w _ _ _) as [data|]; eexists _, _;
      (split; [runs_steps | by repeat constructor]).
  - unfold searchCourtListener.
    destruct (http_get w _ _) as [[]|]; eexists _, _;
      (split; [runs_steps | by repeat constructor]).
  - unfold searchCaselaw.
    destruct (http_get w _ _) as [[| |rs| |]|];
      try destruct (mapM formatCaselawResult rs); eexists _, _;
      (split; [runs_steps | by repeat constructor]).
  - unfold searchPubMed.
    destruct (http_get w _ _) as [[| | |[[|id ids]|]|]|];
      try (destruct (http_get w _ _) as [[]|]); eexists _, _;
      (split; [runs_steps | by repeat constructor]).
  - unfold scrapeAllowedSources.
    destruct (http_get w _ _) as [[]|]; eexists _, _;
      (split; [runs_steps | by repeat constructor]).
Qed.

(** A cache miss, end to end: the response is the page of the ranking of
    the deduplicated merge of what the adapters returned, or status 500 when
    the ranking throws; the only write is the one of the persistence sink,
    made with the whole ranking. *)
Lemma handleSearch_miss_response (Date_getTime : string -> option Z) (w : World)
    (req : request) (now : Z) (s : state) :
  let query := req_query req in
  let filter := req_filter req in
  let page := default 1 (req_page req) in
  let limit := default 20 (req_limit req) in
  fst (cache_get (cacheKey query filter page limit) now (searchCache s)) = None ->
  exists db courtListener caselaw pubMed web,
    (forall s', fst (searchInternalDatabase w query filter page limit s') = Ok db)
    /\ (forall s', fst (searchCourtListener w query filter s') = Ok courtListener)
    /\ (forall s', fst (searchCaselaw w query filter s') = Ok caselaw)
    /\ (forall s', fst (searchPubMed w query filter s') = Ok pubMed)
    /\ (forall s', fst (scrapeAllowedSources w query filter s') = Ok web)
    /\ let merged :=
         db ++ (courtListener ++ caselaw ++ pubMed)
            ++ (if Z.of_nat (length db + length (courtListener ++ caselaw ++ pubMed))
                   <? limit
                then web else []) in
       match sortResultsByRelevance Date_getTime (deduplicateResults merged) query with
       | Ok sorted =>
           fst (handleSearch Date_getTime w req now s)
           = Ok (Json (paginateResults sorted page limit))
           /\ exists before,
                read_only before
                /\ appended (handleSearch Date_getTime w req now s) s
                   = before ++ appended (storeResultsInDatabase w sorted initial) initial
       | Throw =>
           fst (handleSearch Date_getTime w req now s) = Ok Status500
           /\ read_only (appended (handleSearch Date_getTime w req now s) s)
       end.
Proof.
  intros query filter page limit Hmiss.
  destruct (adapters_read_only w query filter page limit)
    as ((db & e1 & Hdb & Hq1) & (cl & e2 & Hcl & Hq2) & (cap & e3 & Hcap & Hq3)
        & (pm & e4 & Hpm & Hq4) & (web & e5 & Hweb & Hq5)).
  exists db, cl, cap, pm, web.
  repeat (split; [by eauto using runs_fst|]).
  unfold handleSearch, appended, catch, bind, cache_lookup, cache_store, lift.
  fold query filter page limit.
  destruct (cache_get _ now (searchCache s)) as [found c'] eqn:Hget.
  simpl in Hmiss. subst found. cbn beta iota.
  rewrite Hdb. cbn beta iota. rewrite Hcl. cbn beta iota.
  rewrite Hcap. cbn beta iota. rewrite Hpm. cbn beta iota.
  cbn [searchCache robotsTxtCache trace concat]. rewrite app_nil_r.
  assert (Hdrop : forall l, drop (length (trace s)) (trace s ++ l) = l)
    by (intros l; apply drop_app_length).
  unfold read_only in *.
  destruct (Z.of_nat (length db + length (cl ++ cap ++ pm)) <? limit).
  - rewrite Hweb. cbn beta iota. cbn [searchCache robotsTxtCache trace].
    destruct (sortResultsByRelevance _ _ _) as [sorted|].
    + destruct (storeResultsInDatabase_runs w sorted) as (e6 & Hsink & _).
      rewrite !Hsink. cbn [searchCache robotsTxtCache trace snd fst ret].
      split; [done|]. exists (e1 ++ e2 ++ e3 ++ e4 ++ e5).
      split; [by rewrite !Forall_app|].
      cbn [app]. rewrite drop_0. rewrite <- !app_assoc. by rewrite Hdrop.
    + cbn [fst snd emit ret trace]. split; [done|].
      rewrite <- !app_assoc, Hdrop. rewrite !Forall_app. repeat split; try done.
      by repeat constructor.
  - cbn [ret]. rewrite app_nil_r.
    destruct (sortResultsByRelevance _ _ _) as [sorted|].
    + destruct (storeResultsInDatabase_runs w sorted) as (e6 & Hsink & _).
      rewrite !Hsink. cbn [searchCache robotsTxtCache trace snd fst ret].
      split; [done|]. exists (e1 ++ e2 ++ e3 ++ e4).
      split; [by rewrite !Forall_app|].
      cbn [app]. rewrite drop_0. rewrite <- !app_assoc. by rewrite Hdrop.
    + cbn [fst snd emit ret trace]. split; [done|].
      rewrite <- !app_assoc, Hdrop. rewrite !Forall_app. repeat split; try done.
      by repeat constructor.
Qed.




(** A page never holds more records than a positive limit, whatever the
    page number. *)
Lemma slice_page_length {A} (l : list A) (page limit : Z) :
  0 <= limit ->
  Z.of_nat (length (slice l ((page - 1) * limit) (page * limit))) <= limit.
Proof.
  intros Hlimit. unfold slice. rewrite length_take, length_drop.
  destruct (Z.ltb_spec ((page - 1) * limit) 0), (Z.ltb_spec (page * limit) 0); nia.
Qed.

(** X10.  On a cache miss the response is the page of the ranking of the
    deduplicated merge of the store's, the three APIs' and (when they ran)
    the scraper's records, in that order; the request is answered with
    status 500 exactly when the ranking throws, so no failure of an upstream
    aborts it.  Stated for an ASCII query and for [plain] records, on which
    the ranking of the model is the one of the engine. *)
Theorem search_response_is_pipeline (Date_getTime : string -> option Z) (w : World)
    (req : request) (now : Z) (s : state)
    (db courtListener caselaw pubMed web : list result) :
  let query := req_query req in
  let filter := req_filter req in
  let page := default 1 (req_page req) in
  let limit := default 20 (req_limit req) in
  let merged :=
    db ++ (courtListener ++ caselaw ++ pubMed)
       ++ (if Z.of_nat (length db + length (courtListener ++ caselaw ++ pubMed))
              <? limit
           then web else []) in
  fst (cache_get (cacheKey query filter page limit) now (searchCache s)) = None ->
  fst (searchInternalDatabase w query filter page limit s) = Ok db ->
  fst (searchCourtListener w query filter s) = Ok courtListener ->
  fst (searchCaselaw w query filter s) = Ok caselaw ->
  fst (searchPubMed w query filter s) = Ok pubMed ->
  fst (scrapeAllowedSources w query filter s) = Ok web ->
  ascii_value query ->
  Forall (plain Date_getTime) merged ->
  fst (handleSearch Date_getTime w req now s)
  = match sortResultsByRelevance Date_getTime (deduplicateResults merged) query with
    | Ok sorted => Ok (Json (paginateResults sorted page limit))
    | Throw => Ok Status500
    end.
Proof.
  intros query filter page limit merged Hmiss Hdb Hcl Hcap Hpm Hweb _ _.
  destruct (handleSearch_miss_response Date_getTime w req now s Hmiss)
    as (db' & cl' & cap' & pm' & web' & Hdb' & Hcl' & Hcap' & Hpm' & Hweb' & Hrun).
  fold query filter page limit in Hdb', Hcl', Hcap', Hpm', Hweb', Hrun.
  rewrite Hdb' in Hdb. injection Hdb as ->.
  rewrite Hcl' in Hcl. injection Hcl as ->.
  rewrite Hcap' in Hcap. injection Hcap as ->.
  rewrite Hpm' in Hpm. injection Hpm as ->.
  rewrite Hweb' in Hweb. injection Hweb as ->.
  cbv zeta in Hrun. fold merged in Hrun.
  destruct (sortResultsByRelevance _ _ _) as [sorted|]; by destruct Hrun.
Qed.

Lemma search_response_is_pipeline_witness :
  fst (handleSearch Date_getTime_iso (world_with two_dated_cases)
         (search_for "miranda") 0 initial)
  = match sortResultsByRelevance Date_getTime_iso
            (deduplicateResults
               ([stored_escobedo; stored_miranda] ++ ([] ++ [] ++ [])
                   ++ (if Z.of_nat (length [stored_escobedo; stored_miranda]
                                    + length ([] ++ [] ++ [] : list result)) <? 20
                       then [] else [])))
            (Str "miranda") with
    | Ok sorted => Ok (Json (paginateResults sorted 1 20))
    | Throw => Ok Status500
    end.
Proof.
  apply (search_response_is_pipeline Date_getTime_iso (world_with two_dated_cases)
           (search_for "miranda") 0 initial
           [stored_escobedo; stored_miranda] [] [] [] []);
    try reflexivity.
  repeat constructor; intros _; eexists; (split; [reflexivity | by vm_compute]).
Defined.

Example search_response_is_a_page :
  fst (handleSearch Date_getTime_iso (world_with two_dated_cases)
         (search_for "miranda") 0 initial)
  = Ok (Json (paginateResults [stored_miranda; stored_escobedo] 1 20)).
Proof. vm_compute. reflexivity. Qed.





Lemma upserts_app (a b : list event) : upserts (a ++ b) = upserts a ++ upserts b.
Proof. apply List.filter_app. Qed.


Lemma storeResultsInDatabase_writes (w : World) (rs : list result) (s : state) :
  List.filter (fun r => negb (inDatabase r)) rs <> [] ->
  exists rows, StoreUpsert "legal_cases" rows
               ∈ appended (storeResultsInDatabase w rs s) s.
Proof.
  intros Hne. unfold storeResultsInDatabase, appended, bind, emit, ret.
  destruct (List.filter _ rs) as [|r new] eqn:Hnew; [done|].
  cbn [length Nat.eqb]. cbn beta iota. eexists.
  destruct (upsert w _ _); cbn [snd trace searchCache robotsTxtCache];
    rewrite <- ?app_assoc, drop_app_length; cbn [app]; apply list_elem_of_here.
Qed.

Lemma read_only_no_upsert (evs : list event) (table : string) (rows : list result) :
  read_only evs -> StoreUpsert table rows ∉ evs.
Proof.
  intros Hro Hin. unfold read_only in Hro. rewrite Forall_forall in Hro.
  by specialize (Hro _ Hin).
Qed.




(** The second page of a search that found one record is empty, and the
    record is written all the same. *)
Example empty_page_full_write :
  fst (handleSearch Date_getTime_iso open_world (search_page "miranda" 2) 0 initial)
  = Ok (Json {| results := [];
                pageInfo := {| total := 1; page := 2; limit := 20; pages := Some 1 |} |})
  /\ upserts (appended (handleSearch Date_getTime_iso open_world
                          (search_page "miranda" 2) 0 initial) initial)
     = [StoreUpsert "legal_cases" [stored_row scraped_article]].
Proof. split; vm_compute; reflexivity. Qed.

(** X14.  Pagination outside the usual range of its parameters.  The page is
    always a contiguous run of the list ([n] records from position [k]) and
    never longer than a non-negative limit; page zero is empty; a negative
    page number counts its window from the end of the list, cut off at the
    start of the list; a limit of zero yields an empty page and no page
    count; and a negative limit on page one yields all but the last
    [-limit] records. *)
Theorem paginateResults_edges (rs : list result) (page limit : Z) :
  let p := paginateResults rs page limit in
  let len := Z.of_nat (length rs) in
  (exists k n, results p = take n (drop k rs))
  /\ total (pageInfo p) = len
  /\ (0 <= limit -> Z.of_nat (length (results p)) <= limit)
  /\ (0 <= limit -> page = 0 -> results p = [])
  /\ (0 < limit -> page < 0 ->
      let first := Z.max (len + (page - 1) * limit) 0 in
      let last := Z.max (len + page * limit) 0 in
      results p = take (Z.to_nat (last - first)) (drop (Z.to_nat first) rs))
  /\ (limit = 0 -> results p = [] /\ pages (pageInfo p) = None)
  /\ (limit < 0 -> page = 1 -> results p = take (Z.to_nat (len + limit)) rs).
Proof.
  cbv zeta. cbn [paginateResults results pageInfo total pages].
  split; [unfold slice; by eexists _, _|]. split; [done|].
  split; [apply slice_page_length|].
  split; [|split; [|split]].
  - intros Hl ->. apply length_zero_iff_nil. unfold slice.
    replace (0 * limit) with 0 by lia. destruct (Z.ltb_spec 0 0); [lia|].
    rewrite length_take. destruct (Z.ltb_spec ((0 - 1) * limit) 0); lia.
  - intros Hl Hp. unfold slice.
    destruct (Z.ltb_spec ((page - 1) * limit) 0); [|nia].
    destruct (Z.ltb_spec (page * limit) 0); [|nia]. done.
  - intros ->. split.
    + apply length_zero_iff_nil. pose proof (slice_page_length rs page 0) as Hle.
      rewrite !Z.mul_0_r in *. lia.
    + reflexivity.
  - intros Hl ->. replace ((1 - 1) * limit) with 0 by lia. rewrite Z.mul_1_l.
    unfold slice. destruct (Z.ltb_spec 0 0); [lia|].
    destruct (Z.ltb_spec limit 0); [|lia].
    rewrite (Z.min_l 0) by lia. cbn [Z.to_nat drop]. f_equal. lia.
Qed.

Example paginateResults_negative_page :
  results (paginateResults [miranda; escobedo; gideon; mapp; terry] (-1) 2) = [escobedo; gideon]
  /\ results (paginateResults [miranda; escobedo; gideon; mapp; terry] (-2) 2) = [miranda]
  /\ results (paginateResults [miranda; escobedo; gideon; mapp; terry] (-3) 2) = [].
Proof. repeat split; reflexivity. Qed.

(** ** The web-scraper module: policies, adapters and the aggregate *)

Lemma read_only_app (a b : list event) : read_only a -> read_only b -> read_only (a ++ b).
Proof. intros Ha Hb. apply Forall_app. by split. Qed.

(** An adapter always returns: nothing, or what its page formats to; it
    writes nothing to the store. *)
Lemma scrapeSite_returns (w : World) (domain url : string)
    (format : string -> outcome (list result)) (s : state) :
  exists rs s1 evs,
    Scraper.scrapeSite w domain url format s = (Ok rs, s1)
    /\ trace s1 = trace s ++ evs /\ read_only evs
    /\ (rs = [] \/ exists html, format html = Ok rs).
Proof.
  unfold Scraper.scrapeSite, bind.
  destruct (isScrapingAllowed_run w url s) as (allowed & s1 & evs & -> & Htr & Hro & _).
  destruct allowed; cbn [negb]; cbn beta iota.
  - unfold Scraper.getRateLimiter, catch, bind, emit, ret, throw, lift.
    cbn [trace searchCache robotsTxtCache].
    destruct (http_get w url []) as [[html| | | |]|]; cbn beta iota;
      try (eexists [], _, _; cbn [trace]; rewrite Htr, <- !app_assoc;
           split; [reflexivity|]; split; [reflexivity|];
           split; [apply read_only_app; [done | by repeat constructor] | by left]).
    destruct (format html) as [rs|] eqn:Hformat; cbn beta iota;
      eexists _, _, _; cbn [trace]; rewrite Htr, <- !app_assoc;
      (split; [reflexivity|]); (split; [reflexivity|]);
      (split; [apply read_only_app; [done | by repeat constructor] |]).
    + right. by exists html.
    + by left.
  - unfold emit, ret. eexists [], _, _. cbn [trace]. rewrite Htr, <- app_assoc.
    split; [reflexivity|]. split; [reflexivity|].
    split; [apply read_only_app; [done | by repeat constructor] | by left].
Qed.

Lemma storeScraped_run (w : World) (table : string) (rows : list result)
    (message : string) (s : state) :
  Scraper.storeScraped w table rows message s
  = (Ok tt, mkState (searchCache s) (robotsTxtCache s)
              (trace s ++ store_events w table rows message)).
Proof.
  unfold Scraper.storeScraped, store_events, bind, emit, ret.
  destruct (0 <? length rows)%nat.
  - destruct (upsert w table rows); cbn [trace searchCache robotsTxtCache];
      by rewrite <- ?app_assoc.
  - rewrite app_nil_r. by destruct s.
Qed.

(** The aggregate, unfolded: the four adapters run whatever the filter is,
    then the records are written, and only then is the filter applied. *)
Lemma scrapeAllowedSources_shape (w : World) (query : value) (s : state) :
  exists stanford harvard yale scotus s1 evs,
    trace s1 = trace s ++ evs /\ read_only evs
    /\ (stanford = [] \/ exists html, Scraper.formatStanfordLawResults w html = Ok stanford)
    /\ (harvard = [] \/ exists html, Scraper.formatHarvardLawResults w html = Ok harvard)
    /\ (yale = [] \/ exists html, Scraper.formatYaleLawResults w html = Ok yale)
    /\ (scotus = [] \/ exists html, Scraper.formatSupremeCourtResults w html = Ok scotus)
    /\ forall filter,
        let all := stanford ++ harvard ++ yale ++ scotus in
        let stored :=
          store_events w "legal_articles"
            (List.filter (fun r => negb (truthy (court r))) all)
            "Error storing scraped articles:"
          ++ store_events w "legal_cases"
               (List.filter (fun r => truthy (court r)) all)
               "Error storing scraped cases:" in
        Scraper.scrapeAllowedSources w query filter s
        = if truthy filter then
            match Scraper.applyFilters all (split_on "," (template filter)) with
            | Ok out =>
                (Ok out, mkState (searchCache s1) (robotsTxtCache s1)
                           (trace s1 ++ stored))
            | Throw =>
                (Ok [], mkState (searchCache s1) (robotsTxtCache s1)
                          (trace s1 ++ stored ++ [Log "Error in scrapeAllowedSources:"]))
            end
          else (Ok all, mkState (searchCache s1) (robotsTxtCache s1)
                          (trace s1 ++ stored)).
Proof.
  unfold Scraper.scrapeAllowedSources, Scraper.scrapeStanfordLawReview,
    Scraper.scrapeHarvardLawReview, Scraper.scrapeYaleLawJournal,
    Scraper.scrapeSupremeCourt.
  destruct (scrapeSite_returns w "lawreview.stanford.edu"
              ("https://" +:+ "lawreview.stanford.edu" +:+ "/search?search_api_fulltext="
                 +:+ encodeURIComponent (template query))
              (Scraper.formatStanfordLawResults w) s)
    as (stanford & s1 & evs1 & Hrun1 & Htr1 & Hro1 & Hfmt1).
  destruct (scrapeSite_returns w "harvardlawreview.org"
              ("https://" +:+ "harvardlawreview.org" +:+ "/?s="
                 +:+ encodeURIComponent (template query))
              (Scraper.formatHarvardLawResults w) s1)
    as (harvard & s2 & evs2 & Hrun2 & Htr2 & Hro2 & Hfmt2).
  destruct (scrapeSite_returns w "yalelawjournal.org"
              ("https://www." +:+ "yalelawjournal.org" +:+ "/search?q="
                 +:+ encodeURIComponent (template query))
              (Scraper.formatYaleLawResults w) s2)
    as (yale & s3 & evs3 & Hrun3 & Htr3 & Hro3 & Hfmt3).
  destruct (scrapeSite_returns w "supremecourt.gov"
              ("https://www." +:+ "supremecourt.gov" +:+ "/search.aspx?Search="
                 +:+ encodeURIComponent (template query) +:+ "&type=Site")
              (Scraper.formatSupremeCourtResults w) s3)
    as (scotus & s4 & evs4 & Hrun4 & Htr4 & Hro4 & Hfmt4).
  exists stanford, harvard, yale, scotus, s4, (evs1 ++ evs2 ++ evs3 ++ evs4).
  split; [by rewrite Htr4, Htr3, Htr2, Htr1, <- !app_assoc|].
  split; [by repeat apply read_only_app|].
  repeat (split; [done|]).
  intros filter. cbv zeta. unfold catch, bind at 1. rewrite Hrun1. cbn beta iota.
  unfold bind at 1. rewrite Hrun2. cbn beta iota.
  unfold bind at 1. rewrite Hrun3. cbn beta iota.
  unfold bind at 1. rewrite Hrun4. cbn beta iota.
  unfold bind at 1. rewrite storeScraped_run. cbn beta iota.
  unfold bind at 1. rewrite storeScraped_run. cbn beta iota.
  cbn [trace searchCache robotsTxtCache].
  destruct (truthy filter); [|unfold ret; rewrite <- !app_assoc; reflexivity].
  unfold lift, emit, ret. destruct (Scraper.applyFilters _ _).
  - rewrite <- !app_assoc. reflexivity.
  - unfold bind. cbn [trace searchCache robotsTxtCache]. rewrite <- !app_assoc.
    reflexivity.
Qed.

Lemma mapM_elem {A B} (f : A -> outcome B) (l : list A) (out : list B) (b : B) :
  mapM f l = Ok out -> b ∈ out -> exists a, a ∈ l /\ f a = Ok b.
Proof.
  revert out. induction l as [|a l IH]; intros out; simpl.
  - intros [= <-] Hin. by apply elem_of_nil in Hin.
  - destruct (f a) as [b'|] eqn:Hfa; [|done]. simpl.
    destruct (mapM f l) as [bs|]; [|done]. simpl. intros [= <-].
    intros [->|Hin]%elem_of_cons.
    + exists a. split; [left | done].
    + destruct (IH bs eq_refl Hin) as (a' & Ha' & Hfa'). exists a'. split; [by right | done].
Qed.

(** An element without a title is skipped. *)
Ltac titled H :=
  match type of H with
  | context [if ?b then _ else _] => destruct b; [|done]
  end.

Lemma formatStanfordLawResults_articles (w : World) (html : string) (rs : list result) :
  Scraper.formatStanfordLawResults w html = Ok rs -> Forall article rs.
Proof.
  intros [= <-]. apply Forall_forall. intros r (el & _ & Hel)%list_elem_of_omap.
  titled Hel. injection Hel as <-. split; [done | set_solver].
Qed.

Lemma formatHarvardLawResults_articles (w : World) (html : string) (rs : list result) :
  Scraper.formatHarvardLawResults w html = Ok rs -> Forall article rs.
Proof.
  unfold Scraper.formatHarvardLawResults. destruct (mapM _ _) as [found|] eqn:Hfound; [|done].
  simpl. intros [= <-]. apply Forall_forall. intros r (x & Hx & ->)%list_elem_of_omap.
  destruct (mapM_elem _ _ _ _ Hfound Hx) as (el & _ & Hel).
  titled Hel. destruct (find_attr el _ _); try done.
  injection Hel as <-. split; [done | set_solver].
Qed.

Lemma formatYaleLawResults_articles (w : World) (html : string) (rs : list result) :
  Scraper.formatYaleLawResults w html = Ok rs -> Forall article rs.
Proof.
  intros [= <-]. apply Forall_forall. intros r (el & _ & Hel)%list_elem_of_omap.
  titled Hel. injection Hel as <-. split; [done | set_solver].
Qed.

Lemma formatSupremeCourtResults_opinions (w : World) (html : string) (rs : list result) :
  Scraper.formatSupremeCourtResults w html = Ok rs -> Forall opinion rs.
Proof.
  intros [= <-]. apply Forall_forall. intros r (el & _ & Hel)%list_elem_of_omap.
  titled Hel. by injection Hel as <-.
Qed.

(** X15.  The robots policy of a domain is fetched at most once.  For a
    domain whose name is not one the cache object inherits from
    [Object.prototype], a lookup always yields a policy and leaves it
    cached for the domain, the policies of other domains stay as they
    were, and a second lookup returns the same policy without any effect;
    when no policy was cached, the policy that is returned and cached
    permits every path.  (Under an inherited name the cache reads the
    inherited property and nothing is fetched or stored, see
    [inherited_name_is_no_policy].) *)
Theorem getRobotsTxt_memoised (w : World) (domain : string) (s : state) :
  inherited domain = false ->
  exists policy,
    fst (Scraper.getRobotsTxt w domain s) = Ok (Policy policy)
    /\ robotsTxtCache (snd (Scraper.getRobotsTxt w domain s)) !! domain = Some policy
    /\ (forall other, other <> domain ->
          robotsTxtCache (snd (Scraper.getRobotsTxt w domain s)) !! other
          = robotsTxtCache s !! other)
    /\ Scraper.getRobotsTxt w domain (snd (Scraper.getRobotsTxt w domain s))
       = (Ok (Policy policy), snd (Scraper.getRobotsTxt w domain s))
    /\ (robotsTxtCache s !! domain = None -> forall path, policy path = true).
Proof.
  intros Hin.
  destruct (getRobotsTxt_run w domain s)
    as (found & s1 & evs & Hrun & _ & _ & _ & _ & Hpolicy).
  destruct (Hpolicy Hin) as (policy & -> & Hcached & Hothers & Hfresh).
  exists policy. rewrite Hrun. cbn [fst snd].
  split; [done|]. split; [done|]. split; [done|]. split; [|done].
  by apply getRobotsTxt_cached.
Qed.

Lemma getRobotsTxt_memoised_witness :
  exists policy,
    fst (Scraper.getRobotsTxt open_world "harvardlawreview.org" initial)
    = Ok (Policy policy)
    /\ robotsTxtCache (snd (Scraper.getRobotsTxt open_world "harvardlawreview.org" initial))
       !! "harvardlawreview.org" = Some policy
    /\ (forall other, other <> "harvardlawreview.org" ->
          robotsTxtCache (snd (Scraper.getRobotsTxt open_world "harvardlawreview.org"
                                 initial)) !! other
          = robotsTxtCache initial !! other)
    /\ Scraper.getRobotsTxt open_world "harvardlawreview.org"
         (snd (Scraper.getRobotsTxt open_world "harvardlawreview.org" initial))
       = (Ok (Policy policy),
          snd (Scraper.getRobotsTxt open_world "harvardlawreview.org" initial))
    /\ (robotsTxtCache initial !! "harvardlawreview.org" = None ->
        forall path, policy path = true).
Proof.
  apply (getRobotsTxt_memoised open_world "harvardlawreview.org" initial).
  reflexivity.
Defined.

(** The robots.txt file is requested once, and its content never parsed:
    the request is followed by the log of the failure even where the file
    is served. *)
Example robots_txt_fetched_once :
  http_get open_world "https://harvardlawreview.org/robots.txt" [] <> None
  /\ appended (Scraper.getRobotsTxt open_world "harvardlawreview.org" initial) initial
     = [HttpGet "https://harvardlawreview.org/robots.txt" [];
        Log "Error fetching robots.txt for harvardlawreview.org:"]
  /\ appended (Scraper.getRobotsTxt open_world "harvardlawreview.org"
                 (snd (Scraper.getRobotsTxt open_world "harvardlawreview.org" initial)))
              (snd (Scraper.getRobotsTxt open_world "harvardlawreview.org" initial))
     = [].
Proof. split; [discriminate|]. split; reflexivity. Qed.

(** A host named like an inherited property has no policy: the cache reads
    the inherited object, the permission check fails on it, and nothing is
    requested. *)
Example inherited_name_is_no_policy :
  Scraper.getRobotsTxt open_world "constructor" initial = (Ok Inherited, initial)
  /\ fst (Scraper.isScrapingAllowed open_world "https://constructor/robots" initial)
     = Ok false
  /\ appended (Scraper.isScrapingAllowed open_world "https://constructor/robots" initial)
              initial
     = [Log "Error checking scraping permission:"].
Proof. repeat split; reflexivity. Qed.

(** When the robots.txt of a site cannot be fetched, the adapter's body goes
    on to request the page. *)
Lemma scrapeSite_fails_open (w : World) (domain url : string)
    (format : string -> outcome (list result)) (s : state) (u : URL) :
  URL_parse url = Ok u ->
  inherited (hostname u) = false ->
  robotsTxtCache s !! hostname u = None ->
  exists rest,
    appended (Scraper.scrapeSite w domain url format s) s
    = [HttpGet ("https://" +:+ hostname u +:+ "/robots.txt") [];
       Log ("Error fetching robots.txt for " +:+ hostname u +:+ ":");
       RateLimit domain;
       HttpGet url []] ++ rest.
Proof.
  intros Hurl Hin Hnone.
  unfold Scraper.scrapeSite, Scraper.isScrapingAllowed, appended, bind at 1,
    catch, bind at 1, lift.
  rewrite Hurl. cbn beta iota. unfold bind at 1.
  rewrite (getRobotsTxt_fresh _ _ _ Hnone Hin). cbn beta iota. unfold ret at 1.
  cbn [negb]. cbn beta iota.
  unfold Scraper.getRateLimiter, bind, catch, emit, ret, throw, lift.
  cbn [searchCache robotsTxtCache trace].
  destruct (http_get w url []) as [[html| | | |]|]; cbn beta iota;
    try (eexists; cbn [snd trace]; rewrite <- !app_assoc, drop_app_length;
         reflexivity).
  destruct (format html); cbn beta iota;
    eexists; cbn [snd trace]; rewrite <- !app_assoc, drop_app_length; reflexivity.
Qed.

(** X16.  The robots check fails open: for each of the four site adapters,
    when no policy of its site is cached and the request for the site's
    robots.txt fails, the adapter logs the failure, waits for its limiter
    and requests its search page all the same. *)
Theorem site_adapters_fail_open (w : World) (query : value) (s : state) :
  let q := encodeURIComponent (template query) in
  let unreachable host :=
    robotsTxtCache s !! host = None
    /\ http_get w ("https://" +:+ host +:+ "/robots.txt") [] = None in
  (unreachable "lawreview.stanford.edu" ->
   HttpGet ("https://lawreview.stanford.edu/search?search_api_fulltext=" +:+ q) []
   ∈ appended (Scraper.scrapeStanfordLawReview w query s) s)
  /\ (unreachable "harvardlawreview.org" ->
      HttpGet ("https://harvardlawreview.org/?s=" +:+ q) []
      ∈ appended (Scraper.scrapeHarvardLawReview w query s) s)
  /\ (unreachable "www.yalelawjournal.org" ->
      HttpGet ("https://www.yalelawjournal.org/search?q=" +:+ q) []
      ∈ appended (Scraper.scrapeYaleLawJournal w query s) s)
  /\ (unreachable "www.supremecourt.gov" ->
      HttpGet ("https://www.supremecourt.gov/search.aspx?Search=" +:+ q +:+ "&type=Site") []
      ∈ appended (Scraper.scrapeSupremeCourt w query s) s).
Proof.
  cbv zeta. split; [|split; [|split]]; intros [Hnone Hfail].
  - destruct (scrapeSite_fails_open w "lawreview.stanford.edu"
                ("https://lawreview.stanford.edu/search?search_api_fulltext="
                   +:+ encodeURIComponent (template query))
                (Scraper.formatStanfordLawResults w) s
                (mkURL "lawreview.stanford.edu" "/search") eq_refl eq_refl Hnone)
      as [rest Hrest].
    eapply (eq_ind_r (fun l => _ ∈ l)); [|exact Hrest]. set_solver.
  - destruct (scrapeSite_fails_open w "harvardlawreview.org"
                ("https://harvardlawreview.org/?s="
                   +:+ encodeURIComponent (template query))
                (Scraper.formatHarvardLawResults w) s
                (mkURL "harvardlawreview.org" "/") eq_refl eq_refl Hnone)
      as [rest Hrest].
    eapply (eq_ind_r (fun l => _ ∈ l)); [|exact Hrest]. set_solver.
  - destruct (scrapeSite_fails_open w "yalelawjournal.org"
                ("https://www.yalelawjournal.org/search?q="
                   +:+ encodeURIComponent (template query))
                (Scraper.formatYaleLawResults w) s
                (mkURL "www.yalelawjournal.org" "/search") eq_refl eq_refl Hnone)
      as [rest Hrest].
    eapply (eq_ind_r (fun l => _ ∈ l)); [|exact Hrest]. set_solver.
  - destruct (scrapeSite_fails_open w "supremecourt.gov"
                ("https://www.supremecourt.gov/search.aspx?Search="
                   +:+ encodeURIComponent (template query) +:+ "&type=Site")
                (Scraper.formatSupremeCourtResults w) s
                (mkURL "www.supremecourt.gov" "/search.aspx") eq_refl eq_refl Hnone)
      as [rest Hrest].
    eapply (eq_ind_r (fun l => _ ∈ l)); [|exact Hrest]. set_solver.
Qed.

Example stanford_scraped_without_policy :
  appended (Scraper.scrapeStanfordLawReview world_by_query (Str "miranda") initial) initial
  = [HttpGet "https://lawreview.stanford.edu/robots.txt" [];
     Log "Error fetching robots.txt for lawreview.stanford.edu:";
     RateLimit "lawreview.stanford.edu";
     HttpGet "https://lawreview.stanford.edu/search?search_api_fulltext=miranda" [];
     Log "Error scraping lawreview.stanford.edu:"].
Proof. reflexivity. Qed.

(** ** The filter of the aggregate *)

Lemma List_filter_sublist {A} (f : A -> bool) (l : list A) : List.filter f l `sublist_of` l.
Proof.
  induction l as [|a l IH]; simpl; [done|].
  destruct (f a); [by apply sublist_skip | by apply sublist_cons].
Qed.

Lemma kept_sublist {A} (l : list A) (keep : list bool) :
  map fst (List.filter snd (zip l keep)) `sublist_of` l.
Proof.
  revert keep. induction l as [|a l IH]; intros [|b keep]; simpl;
    try apply sublist_nil_l.
  destruct b; simpl; [by apply sublist_skip | by apply sublist_cons].
Qed.

Lemma applyFilter_sublist (rs : list result) (f : string) (out : list result) :
  Scraper.applyFilter rs f = Ok out -> out `sublist_of` rs.
Proof.
  unfold Scraper.applyFilter.
  destruct (String.eqb _ "source"); [|destruct (String.eqb _ "court");
                                       [|destruct (String.eqb _ "year")]].
  - destruct (mapM _ rs); [|done]. simpl. intros [= <-]. apply kept_sublist.
  - destruct (mapM _ rs); [|done]. simpl. intros [= <-]. apply kept_sublist.
  - intros [= <-]. apply List_filter_sublist.
  - by intros [= <-].
Qed.

(** X17.  Filter fragments only ever remove records: whenever the fragments
    apply without an exception, what is left is a sublist of the records, in
    their order; and fragments whose key is none of [source], [court] and
    [year] remove nothing. *)
Theorem applyFilters_only_removes (rs : list result) (fs : list string)
    (out : list result) :
  Scraper.applyFilters rs fs = Ok out ->
  out `sublist_of` rs
  /\ (Forall (fun f => hd "" (split_on ":" f) ∉ ["source"; "court"; "year"]) fs ->
      out = rs).
Proof.
  revert rs. induction fs as [|f fs IH]; intros rs; simpl.
  - by intros [= <-].
  - destruct (Scraper.applyFilter rs f) as [rs'|] eqn:Hf; [|done]. simpl.
    intros Hout. destruct (IH rs' Hout) as [Hsub Hsame]. split.
    + etrans; [exact Hsub | by eapply applyFilter_sublist].
    + intros [Hkey Hrest]%Forall_cons. rewrite (Hsame Hrest).
      revert Hf. unfold Scraper.applyFilter.
      destruct (String.eqb_spec (hd "" (split_on ":" f)) "source") as [He|_];
        [rewrite He in Hkey; set_solver|].
      destruct (String.eqb_spec (hd "" (split_on ":" f)) "court") as [He|_];
        [rewrite He in Hkey; set_solver|].
      destruct (String.eqb_spec (hd "" (split_on ":" f)) "year") as [He|_];
        [rewrite He in Hkey; set_solver|].
      by intros [= <-].
Qed.

Lemma applyFilters_only_removes_witness :
  [escobedo] `sublist_of` [miranda; escobedo; forthcoming]
  /\ (Forall (fun f => hd "" (split_on ":" f) ∉ ["source"; "court"; "year"])
        ["court:supreme"; "year:2024"] ->
      [escobedo] = [miranda; escobedo; forthcoming]).
Proof.
  apply (applyFilters_only_removes [miranda; escobedo; forthcoming]
           ["court:supreme"; "year:2024"] [escobedo]).
  vm_compute. reflexivity.
Defined.

Example unknown_filter_keys_ignored :
  Scraper.applyFilters [miranda; escobedo; forthcoming] ["judge:warren"; "Court:supreme"]
  = Ok [miranda; escobedo; forthcoming].
Proof. reflexivity. Qed.

Lemma store_events_written (w : World) (table : string) (rows : list result)
    (message : string) (r : result) :
  r ∈ rows -> StoreUpsert table rows ∈ store_events w table rows message.
Proof.
  intros Hin. unfold store_events. destruct rows as [|r' rows]; [by apply elem_of_nil in Hin|].
  simpl. left.
Qed.

Lemma store_events_upsert (w : World) (table table' : string) (rows rows' : list result)
    (message : string) :
  StoreUpsert table' rows' ∈ store_events w table rows message ->
  table' = table /\ rows' = rows /\ rows <> [].
Proof.
  unfold store_events. destruct rows as [|r rows]; simpl; [by intros ?%elem_of_nil|].
  destruct (upsert w _ _); rewrite ?elem_of_cons, elem_of_nil; intros Hin;
    destruct_or!; by simplify_eq.
Qed.

Lemma appended_extends {A} (run : outcome A * state) (s : state) (evs : list event) :
  trace (snd run) = trace s ++ evs -> appended run s = evs.
Proof. intros Htr. unfold appended. by rewrite Htr, drop_app_length. Qed.

(** The effects of the aggregate and its results, for any filter. *)
Lemma scrapeAllowedSources_effects (w : World) (query : value) (s : state) :
  exists (all : list result) (before stored : list event),
    read_only before
    /\ Forall (fun r => article r \/ opinion r) all
    /\ stored
       = store_events w "legal_articles"
           (List.filter (fun r => negb (truthy (court r))) all)
           "Error storing scraped articles:"
         ++ store_events w "legal_cases"
              (List.filter (fun r => truthy (court r)) all)
              "Error storing scraped cases:"
    /\ forall filter,
         (fst (Scraper.scrapeAllowedSources w query filter s)
          = Ok (if truthy filter
                then match Scraper.applyFilters all (split_on "," (template filter)) with
                     | Ok out => out
                     | Throw => []
                     end
                else all))
         /\ appended (Scraper.scrapeAllowedSources w query filter s) s
            = before ++ stored
              ++ (if truthy filter
                  then match Scraper.applyFilters all (split_on "," (template filter)) with
                       | Ok _ => []
                       | Throw => [Log "Error in scrapeAllowedSources:"]
                       end
                  else []).
Proof.
  destruct (scrapeAllowedSources_shape w query s)
    as (stanford & harvard & yale & scotus & s1 & evs & Htr & Hro
        & Hst & Hha & Hya & Hsc & Hrun).
  eexists (stanford ++ harvard ++ yale ++ scotus), evs, _.
  split; [done|]. split; [|split; [reflexivity|]].
  - rewrite !Forall_app. repeat split.
    + destruct Hst as [->|[html Hf]]; [done|].
      eapply Forall_impl; [by eapply formatStanfordLawResults_articles | by left].
    + destruct Hha as [->|[html Hf]]; [done|].
      eapply Forall_impl; [by eapply formatHarvardLawResults_articles | by left].
    + destruct Hya as [->|[html Hf]]; [done|].
      eapply Forall_impl; [by eapply formatYaleLawResults_articles | by left].
    + destruct Hsc as [->|[html Hf]]; [done|].
      eapply Forall_impl; [by eapply formatSupremeCourtResults_opinions | by right].
  - intros filter. specialize (Hrun filter). cbv zeta in Hrun. rewrite Hrun.
    destruct (truthy filter); [destruct (Scraper.applyFilters _ _)|];
      (split; [reflexivity|]); apply appended_extends; cbn [snd trace];
      rewrite Htr, <- ?app_assoc, ?app_nil_r; reflexivity.
Qed.

(** X18.  The filter of the aggregate changes what is returned, never what is
    fetched or written: whatever the filter, the aggregate returns a sublist
    of what it returns without one, every record of the unfiltered result
    has been written to the store in the same run, and the writes are those
    of the unfiltered run. *)
Theorem scraped_records_stored_unfiltered (w : World) (query filter : value)
    (s : state) :
  exists all out,
    fst (Scraper.scrapeAllowedSources w query Undefined s) = Ok all
    /\ fst (Scraper.scrapeAllowedSources w query filter s) = Ok out
    /\ out `sublist_of` all
    /\ (forall r, r ∈ all ->
          exists table rows,
            StoreUpsert table rows
            ∈ appended (Scraper.scrapeAllowedSources w query filter s) s
            /\ r ∈ rows)
    /\ upserts (appended (Scraper.scrapeAllowedSources w query filter s) s)
       = upserts (appended (Scraper.scrapeAllowedSources w query Undefined s) s).
Proof.
  destruct (scrapeAllowedSources_effects w query s)
    as (all & before & stored & Hro & _ & Hstored & Hrun).
  destruct (Hrun Undefined) as [Hres0 Hevs0]. destruct (Hrun filter) as [Hres Hevs].
  cbn [truthy] in Hres0, Hevs0. clear Hrun.
  eexists all, _. split; [exact Hres0|]. split; [exact Hres|].
  split; [|split].
  - destruct (truthy filter); [|done].
    destruct (Scraper.applyFilters all (split_on "," (template filter)))
      as [out|] eqn:Hout; [|apply sublist_nil_l].
    by apply applyFilters_only_removes in Hout as [? _].
  - intros r Hr. rewrite Hevs, Hstored.
    destruct (truthy (court r)) eqn:Hcourt.
    + eexists "legal_cases", _. split.
      * apply elem_of_app. right. apply elem_of_app. left. apply elem_of_app. right.
        apply (store_events_written _ _ _ _ r).
        apply list_elem_of_In, List.filter_In. by rewrite <- list_elem_of_In.
      * apply list_elem_of_In, List.filter_In. by rewrite <- list_elem_of_In.
    + eexists "legal_articles", _. split.
      * apply elem_of_app. right. apply elem_of_app. left. apply elem_of_app. left.
        apply (store_events_written _ _ _ _ r).
        apply list_elem_of_In, List.filter_In. rewrite <- list_elem_of_In, Hcourt. done.
      * apply list_elem_of_In, List.filter_In. rewrite <- list_elem_of_In, Hcourt. done.
  - rewrite Hevs, Hevs0, !upserts_app. do 2 f_equal.
    destruct (truthy filter); [|done].
    by destruct (Scraper.applyFilters all (split_on "," (template filter))).
Qed.

Example filtered_out_record_is_stored :
  fst (Scraper.scrapeAllowedSources open_world (Str "miranda") (Str "source:yale") initial)
  = Ok [ {| rid := Str "yale-miranda"; title := Str "Miranda"; content := Str "Miranda";
            court := Undefined; authors := Str "Miranda"; date := Str "Miranda";
            url := Str "https://www.yalelawjournal.org/a/miranda";
            source := Str "Yale Law Journal"; inDatabase := false |} ]
  /\ map (fun e => match e with StoreUpsert _ rows => map rid rows | _ => [] end)
       (upserts (appended (Scraper.scrapeAllowedSources open_world (Str "miranda")
                             (Str "source:yale") initial) initial))
     = [[Str "stanford-miranda"; Str "harvard-miranda"; Str "yale-miranda"];
        [Str "scotus-miranda"]].
Proof. split; reflexivity. Qed.

(** X19.  The aggregate sorts what it scraped into two tables by the
    presence of a court: every write of a run is non-empty and goes either
    to [legal_articles], carrying only law-review records (no court), or to
    [legal_cases], carrying only Supreme Court records. *)
Theorem scraped_records_partitioned (w : World) (query filter : value) (s : state)
    (table : string) (rows : list result) :
  StoreUpsert table rows ∈ appended (Scraper.scrapeAllowedSources w query filter s) s ->
  rows <> []
  /\ ((table = "legal_articles" /\ Forall article rows)
      \/ (table = "legal_cases" /\ Forall opinion rows)).
Proof.
  destruct (scrapeAllowedSources_effects w query s)
    as (all & before & stored & Hro & Hall & Hstored & Hrun).
  destruct (Hrun filter) as [_ Hevs]. rewrite Hevs, Hstored. clear Hrun Hevs Hstored.
  rewrite Forall_forall in Hall.
  intros [Hin|[[Hin|Hin]%elem_of_app|Hin]%elem_of_app]%elem_of_app.
  - by apply read_only_no_upsert in Hin.
  - apply store_events_upsert in Hin as (-> & -> & Hne). split; [done|]. left.
    split; [done|]. apply Forall_forall. intros r [Hr Hcourt]%list_elem_of_In%List.filter_In.
    apply list_elem_of_In in Hr. destruct (Hall r Hr) as [?|[Hc _]]; [done|].
    by rewrite Hc in Hcourt.
  - apply store_events_upsert in Hin as (-> & -> & Hne). split; [done|]. right.
    split; [done|]. apply Forall_forall. intros r [Hr Hcourt]%list_elem_of_In%List.filter_In.
    apply list_elem_of_In in Hr. destruct (Hall r Hr) as [[Hc _]|?]; [|done].
    by rewrite Hc in Hcourt.
  - destruct (truthy filter); [|by apply elem_of_nil in Hin].
    destruct (Scraper.applyFilters _ _); [by apply elem_of_nil in Hin|].
    by apply list_elem_of_singleton in Hin.
Qed.

Lemma scraped_records_partitioned_witness :
  [scraped_opinion] <> []
  /\ (("legal_cases" = "legal_articles" /\ Forall article [scraped_opinion])
      \/ ("legal_cases" = "legal_cases" /\ Forall opinion [scraped_opinion])).
Proof.
  apply (scraped_records_partitioned open_world (Str "miranda") Undefined initial
           "legal_cases" [scraped_opinion]).
  vm_compute. repeat constructor.
Defined.

(** X20.  A filter whose first fragment is the bare word [source] (no
    colon) makes the aggregate return nothing whenever anything was
    scraped: comparing against the missing value throws, the failure is
    logged, and none of the scraped records is returned. *)
Theorem bare_source_filter_returns_nothing (w : World) (query filter : value)
    (s : state) (all : list result) (fs : list string) :
  truthy filter = true ->
  split_on "," (template filter) = "source" :: fs ->
  fst (Scraper.scrapeAllowedSources w query Undefined s) = Ok all ->
  all <> [] ->
  fst (Scraper.scrapeAllowedSources w query filter s) = Ok []
  /\ Log "Error in scrapeAllowedSources:"
     ∈ appended (Scraper.scrapeAllowedSources w query filter s) s.
Proof.
  intros Htruthy Hsplit Hall Hne.
  destruct (scrapeAllowedSources_effects w query s)
    as (all' & before & stored & _ & Hkinds & _ & Hrun).
  destruct (Hrun Undefined) as [Hres0 _]. destruct (Hrun filter) as [Hres Hevs].
  cbn [truthy] in Hres0. rewrite Hall in Hres0. injection Hres0 as <-. clear Hrun.
  assert (Hthrow : Scraper.applyFilters all (split_on "," (template filter)) = Throw).
  { rewrite Hsplit. destruct all as [|r rest]; [done|].
    apply Forall_cons in Hkinds as [Hr _].
    assert (exists name, source r = Str name) as [name Hname].
    { destruct Hr as [[_ Hsrc]|[_ ->]]; [|by eexists].
      apply elem_of_cons in Hsrc as [->|Hsrc]; [by eexists|].
      apply elem_of_cons in Hsrc as [->|Hsrc]; [by eexists|].
      apply list_elem_of_singleton in Hsrc as ->. by eexists. }
    cbn [Scraper.applyFilters]. unfold Scraper.applyFilter.
    cbn [split_on Ascii.eqb Bool.eqb hd String.eqb]. cbn [mapM]. rewrite Hname. reflexivity. }
  rewrite Htruthy, Hthrow in Hres, Hevs. split; [done|].
  rewrite Hevs. set_solver.
Qed.

Lemma bare_source_filter_returns_nothing_witness :
  fst (Scraper.scrapeAllowedSources open_world (Str "miranda") (Str "source,year:1966")
         initial) = Ok []
  /\ Log "Error in scrapeAllowedSources:"
     ∈ appended (Scraper.scrapeAllowedSources open_world (Str "miranda")
                   (Str "source,year:1966") initial) initial.
Proof.
  apply (bare_source_filter_returns_nothing open_world (Str "miranda")
           (Str "source,year:1966") initial
           (default [] (match fst (Scraper.scrapeAllowedSources open_world (Str "miranda")
                                     Undefined initial) with
                        | Ok all => Some all
                        | Throw => None
                        end))
           ["year:1966"]).
  - reflexivity.
  - reflexivity.
  - vm_compute. reflexivity.
  - vm_compute. discriminate.
Defined.

(** ** The case endpoint *)

Ltac unfold_w :=
  unfold Cases.wcatch, Cases.wbind, Cases.tell, Cases.wret, Cases.wthrow;
  cbn [fst snd app].

Lemma fetchCase_unknown_source (u : Cases.Upstream) (id : string) :
  Cases.id_source id ∉ ["cl"; "cap"; "pm"] ->
  Cases.fetchCaseFromExternalSources u id = (Ok None, []).
Proof.
  intros Hsource. unfold Cases.fetchCaseFromExternalSources.
  destruct (String.eqb_spec (Cases.id_source id) "cl") as [He|_];
    [rewrite He in Hsource; set_solver|].
  destruct (String.eqb_spec (Cases.id_source id) "cap") as [He|_];
    [rewrite He in Hsource; set_solver|].
  destruct (String.eqb_spec (Cases.id_source id) "pm") as [He|_];
    [rewrite He in Hsource; set_solver|].
  reflexivity.
Qed.

(** X21.  An id whose first hyphen-separated segment is none of [cl], [cap]
    and [pm] is never looked up upstream: the fetch returns null without
    awaiting a limiter or issuing a request, and unless the store holds the
    case the endpoint answers 404 after the store lookup alone. *)
Theorem unknown_prefix_never_fetched (u : Cases.Upstream) (id : string) :
  Cases.id_source id ∉ ["cl"; "cap"; "pm"] ->
  Cases.fetchCaseFromExternalSources u id = (Ok None, [])
  /\ ((forall row, Cases.case_by_id u id <> Some (Some row)) ->
      Cases.handleCase u id
      = (Ok Cases.NotFound,
         Cases.SelectCase id
           :: match Cases.case_by_id u id with
              | None => [Cases.ConsoleError "Case retrieval error:"]
              | Some _ => []
              end)).
Proof.
  intros Hsource. pose proof (fetchCase_unknown_source u id Hsource) as Hfetch.
  split; [done|]. intros Hmissing.
  unfold Cases.handleCase, Cases.getCaseFromDatabase.
  destruct (Cases.case_by_id u id) as [[row|]|]; [by destruct (Hmissing row)| |];
    unfold_w; rewrite Hfetch; reflexivity.
Qed.

Lemma unknown_prefix_never_fetched_witness :
  Cases.fetchCaseFromExternalSources unreachable "stanford-miranda" = (Ok None, [])
  /\ ((forall row, Cases.case_by_id unreachable "stanford-miranda" <> Some (Some row)) ->
      Cases.handleCase unreachable "stanford-miranda"
      = (Ok Cases.NotFound,
         Cases.SelectCase "stanford-miranda"
           :: match Cases.case_by_id unreachable "stanford-miranda" with
              | None => [Cases.ConsoleError "Case retrieval error:"]
              | Some _ => []
              end)).
Proof.
  apply (unknown_prefix_never_fetched unreachable "stanford-miranda").
  vm_compute. set_solver.
Defined.

Lemma fetchCase_returns (u : Cases.Upstream) (id : string) :
  exists fetched,
    fst (Cases.fetchCaseFromExternalSources u id) = Ok fetched
    /\ forall c, fetched = Some c ->
         Cases.cd_id c = id
         /\ Cases.cd_source c ∈ ["CourtListener"; "Caselaw Access Project"; "PubMed"].
Proof.
  unfold Cases.fetchCaseFromExternalSources.
  destruct (String.eqb _ "cl"); [|destruct (String.eqb _ "cap");
                                   [|destruct (String.eqb _ "pm")]].
  - destruct (Cases.get_opinion u _) as [data|]; unfold_w;
      eexists; (split; [reflexivity|]); intros c [= <-]; cbn; set_solver.
  - destruct (Cases.get_cap_case u _) as [data|]; [destruct (Cases.cc_court data)|];
      unfold_w;
      eexists; (split; [reflexivity|]); intros c [= <-]; cbn; set_solver.
  - destruct (Cases.get_efetch u _); unfold_w;
      eexists; (split; [reflexivity|]); intros c [= <-]; cbn; set_solver.
  - eexists. split; [reflexivity|]. by intros c [=].
Qed.

(** X22.  Records minted by the site adapters of the web-scraper module can
    never be fetched by the case endpoint: the id of every record the four
    formatters produce starts with [stanford-], [harvard-], [yale-] or
    [scotus-], and the upstream fetch of such an id returns null without a
    request. *)
Theorem scraped_records_not_refetchable (w : World) (u : Cases.Upstream)
    (html : string) (rs : list result) (r : result) :
  Scraper.formatStanfordLawResults w html = Ok rs
  \/ Scraper.formatHarvardLawResults w html = Ok rs
  \/ Scraper.formatYaleLawResults w html = Ok rs
  \/ Scraper.formatSupremeCourtResults w html = Ok rs ->
  r ∈ rs ->
  exists id,
    rid r = Str id
    /\ Cases.id_source id ∈ ["stanford"; "harvard"; "yale"; "scotus"]
    /\ Cases.fetchCaseFromExternalSources u id = (Ok None, []).
Proof.
  intros Hformat Hr.
  assert (exists id, rid r = Str id
                     /\ Cases.id_source id ∈ ["stanford"; "harvard"; "yale"; "scotus"])
    as (id & Hid & Hsource).
  { destruct Hformat as [Hf|[Hf|[Hf|Hf]]].
    - injection Hf as <-. apply list_elem_of_omap in Hr as (el & _ & Hel).
      titled Hel. injection Hel as <-. eexists. split; [reflexivity|].
      unfold Cases.id_source. cbn. set_solver.
    - unfold Scraper.formatHarvardLawResults in Hf.
      destruct (mapM _ _) as [found|] eqn:Hfound; [|done]. injection Hf as <-.
      apply list_elem_of_omap in Hr as (x & Hx & ->).
      destruct (mapM_elem _ _ _ _ Hfound Hx) as (el & _ & Hel).
      titled Hel. destruct (find_attr el _ _); try done. injection Hel as <-.
      eexists. split; [reflexivity|]. unfold Cases.id_source. cbn. set_solver.
    - injection Hf as <-. apply list_elem_of_omap in Hr as (el & _ & Hel).
      titled Hel. injection Hel as <-. eexists. split; [reflexivity|].
      unfold Cases.id_source. cbn. set_solver.
    - injection Hf as <-. apply list_elem_of_omap in Hr as (el & _ & Hel).
      titled Hel. injection Hel as <-. eexists. split; [reflexivity|].
      unfold Cases.id_source. cbn. set_solver. }
  exists id. split; [done|]. split; [done|].
  apply fetchCase_unknown_source. intros Hknown.
  apply list_elem_of_In in Hsource. apply list_elem_of_In in Hknown.
  simpl in Hsource, Hknown. destruct_or!; congruence.
Qed.

Lemma scraped_records_not_refetchable_witness :
  exists id,
    rid scraped_opinion = Str id
    /\ Cases.id_source id ∈ ["stanford"; "harvard"; "yale"; "scotus"]
    /\ Cases.fetchCaseFromExternalSources unreachable id = (Ok None, []).
Proof.
  apply (scraped_records_not_refetchable open_world unreachable "<html>"
           [scraped_opinion] scraped_opinion).
  - right. right. right. vm_compute. reflexivity.
  - left.
Defined.

(** X23.  The case endpoint never answers 500: a failure of the store or of
    an upstream shows as 404.  A case the store holds is served from the
    store lookup alone; a case served from an upstream carries the requested
    id, is the one the fetch returned and has been written to the store
    (whether or not the write succeeded); and 404 means the fetch returned
    null. *)
Theorem handleCase_replies (u : Cases.Upstream) (id : string) :
  exists r,
    fst (Cases.handleCase u id) = Ok r /\ r <> Cases.Failed
    /\ (forall row, Cases.case_by_id u id = Some (Some row) ->
          Cases.handleCase u id
          = (Ok (Cases.Found (Cases.StoredCase row)), [Cases.SelectCase id]))
    /\ (forall c, r = Cases.Found (Cases.FetchedCase c) ->
          Cases.cd_id c = id
          /\ fst (Cases.fetchCaseFromExternalSources u id) = Ok (Some c)
          /\ Cases.UpsertCase c ∈ snd (Cases.handleCase u id))
    /\ (r = Cases.NotFound ->
        fst (Cases.fetchCaseFromExternalSources u id) = Ok None).
Proof.
  destruct (fetchCase_returns u id) as (fetched & Hfetch & Hid).
  unfold Cases.handleCase, Cases.getCaseFromDatabase, Cases.storeCaseInDatabase.
  destruct (Cases.fetchCaseFromExternalSources u id) as [o evs]. simpl in Hfetch. subst o.
  destruct (Cases.case_by_id u id) as [[row|]|]; unfold_w.
  - eexists. split; [reflexivity|]. split; [done|]. split; [by intros ? [= <-]|].
    split; [by intros c [=]|done].
  - destruct fetched as [c|]; unfold_w.
    + destruct (Cases.upsert_case u c); unfold_w;
        (eexists; split; [reflexivity|]; split; [done|]; split; [done|];
         split; [|done]; intros c' [= <-]; destruct (Hid c eq_refl) as [-> _];
         split; [done|]; split; [done|]; set_solver).
    + eexists. split; [reflexivity|]. split; [done|]. split; [done|].
      split; [by intros c [=]|done].
  - destruct fetched as [c|]; unfold_w.
    + destruct (Cases.upsert_case u c); unfold_w;
        (eexists; split; [reflexivity|]; split; [done|]; split; [done|];
         split; [|done]; intros c' [= <-]; destruct (Hid c eq_refl) as [-> _];
         split; [done|]; split; [done|]; set_solver).
    + eexists. split; [reflexivity|]. split; [done|]. split; [done|].
      split; [by intros c [=]|done].
Qed.

Lemma id_sourceId_prefixed (p i : string) :
  has_char "-" p = false ->
  Cases.id_source (p +:+ "-" +:+ i) = p
  /\ Cases.id_sourceId (p +:+ "-" +:+ i) = Str (hd "" (split_on "-" i)).
Proof.
  intros Hp. unfold Cases.id_source, Cases.id_sourceId.
  change (p +:+ "-" +:+ i) with (p +:+ String "-" i).
  rewrite split_on_app, (split_on_absent _ _ Hp). cbn [app hd].
  split; [done|]. pose proof (split_on_nonempty "-" i). by destruct (split_on "-" i).
Qed.

(** X24.  The ids the three API formatters mint lead the case endpoint back
    to the upstream document: for an upstream id [i], the record's id is the
    source prefix, a hyphen and [i], and fetching that id awaits the source's
    limiter (none for PubMed) and requests the document named by the first
    hyphen-separated segment of [i], which is [i] itself exactly when [i]
    has no hyphen. *)
Theorem minted_ids_resolve (u : Cases.Upstream) (i : string) :
  let segment := hd "" (split_on "-" i) in
  (has_char "-" i = false -> segment = i)
  /\ (forall x, cl_id x = Str i ->
        rid (formatCourtListenerResult x) = Str ("cl-" +:+ i)
        /\ exists rest,
             snd (Cases.fetchCaseFromExternalSources u ("cl-" +:+ i))
             = [Cases.Await "courtListenerLimit";
                Cases.Get ("https://www.courtlistener.com/api/rest/v3/opinions/"
                             +:+ segment +:+ "/") []] ++ rest)
  /\ (forall x r, cap_id x = Str i -> formatCaselawResult x = Ok r ->
        rid r = Str ("cap-" +:+ i)
        /\ exists rest,
             snd (Cases.fetchCaseFromExternalSources u ("cap-" +:+ i))
             = [Cases.Await "caseAccessLimit";
                Cases.Get ("https://api.case.law/v1/cases/" +:+ segment +:+ "/") []]
               ++ rest)
  /\ (forall x, uid x = Str i ->
        rid (formatPubMedResult x) = Str ("pm-" +:+ i)
        /\ exists rest,
             snd (Cases.fetchCaseFromExternalSources u ("pm-" +:+ i))
             = [Cases.Get "https://eutils.ncbi.nlm.nih.gov/entrez/eutils/efetch.fcgi"
                  [("db", "pubmed"); ("id", segment); ("retmode", "xml")]] ++ rest).
Proof.
  cbv zeta. split; [|split; [|split]].
  - intros Hi. by rewrite (split_on_absent _ _ Hi).
  - intros x Hx. split; [unfold formatCourtListenerResult; by rewrite Hx|].
    destruct (id_sourceId_prefixed "cl" i eq_refl) as [Hsource HsourceId].
    change ("cl" +:+ "-" +:+ i) with ("cl-" +:+ i) in Hsource, HsourceId.
    unfold Cases.fetchCaseFromExternalSources. rewrite Hsource, HsourceId.
    cbn [String.eqb Ascii.eqb Bool.eqb template].
    destruct (Cases.get_opinion u _); unfold_w; by eexists.
  - intros x r Hx Hr. split.
    + unfold formatCaselawResult in Hr. destruct (cap_court x); [|done].
      injection Hr as <-. cbn [rid]. by rewrite Hx.
    + destruct (id_sourceId_prefixed "cap" i eq_refl) as [Hsource HsourceId].
      change ("cap" +:+ "-" +:+ i) with ("cap-" +:+ i) in Hsource, HsourceId.
      unfold Cases.fetchCaseFromExternalSources. rewrite Hsource, HsourceId.
      cbn [String.eqb Ascii.eqb Bool.eqb template].
      destruct (Cases.get_cap_case u _) as [data|]; [destruct (Cases.cc_court data)|];
        unfold_w; by eexists.
  - intros x Hx. split; [unfold formatPubMedResult; by rewrite Hx|].
    destruct (id_sourceId_prefixed "pm" i eq_refl) as [Hsource HsourceId].
    change ("pm" +:+ "-" +:+ i) with ("pm-" +:+ i) in Hsource, HsourceId.
    unfold Cases.fetchCaseFromExternalSources. rewrite Hsource, HsourceId.
    cbn [String.eqb Ascii.eqb Bool.eqb template params_of omap fst snd].
    destruct (Cases.get_efetch u _); unfold_w; by eexists.
Qed.

Example hyphenated_upstream_id_truncated :
  snd (Cases.fetchCaseFromExternalSources unreachable "cl-12-34")
  = [Cases.Await "courtListenerLimit";
     Cases.Get "https://www.courtlistener.com/api/rest/v3/opinions/12/" [];
     Cases.ConsoleError "Error fetching case from cl:"].
Proof. reflexivity. Qed.

(** ** The judge endpoint *)

Lemma js_or_truthy (a b : value) : truthy b = true -> truthy (js_or a b) = true.
Proof. intros Hb. unfold js_or. by destruct (truthy a) eqn:Ha. Qed.

(** X25.  The judge endpoint never answers 500.  An error of the store
    lookup is answered 404 without asking the upstream, a judge the store
    holds is served from the lookup alone, and a judge served from the
    upstream has been inserted into the store, comes from CourtListener and
    has a non-empty position, court and appointer ([Unknown] when the
    upstream has none). *)
Theorem handleJudge_replies (u : Cases.Upstream) (name : string) :
  let pattern := "%" +:+ name +:+ "%" in
  exists r,
    fst (Cases.handleJudge u name) = Ok r /\ r <> Cases.Failed
    /\ (Cases.judge_by_name u pattern = None ->
        Cases.handleJudge u name
        = (Ok Cases.NotFound,
           [Cases.SelectJudge pattern; Cases.ConsoleError "Judge retrieval error:"]))
    /\ (forall row, Cases.judge_by_name u pattern = Some (Some row) ->
          Cases.handleJudge u name
          = (Ok (Cases.Found (Cases.StoredJudge row)), [Cases.SelectJudge pattern]))
    /\ (forall j, r = Cases.Found (Cases.FetchedJudge j) ->
          Cases.InsertJudge j ∈ snd (Cases.handleJudge u name)
          /\ Cases.jd_source j = "CourtListener"
          /\ truthy (Cases.jd_position j) = true
          /\ truthy (Cases.jd_court j) = true
          /\ truthy (Cases.jd_appointed_by j) = true).
Proof.
  cbv zeta. unfold Cases.handleJudge, Cases.getJudgeData.
  destruct (Cases.judge_by_name u _) as [[row|]|]; unfold_w.
  - eexists. split; [reflexivity|]. split; [done|]. split; [done|].
    split; [by intros ? [= <-]|]. by intros j [=].
  - destruct (Cases.get_people u _) as [[[|first rest]|]|]; unfold_w;
      (eexists; split; [reflexivity|]; split; [done|]; split; [done|];
       split; [done|]); try by intros j [=].
    intros j [= <-]. cbn [Cases.jd_source Cases.jd_position Cases.jd_court
                            Cases.jd_appointed_by].
    split; [set_solver|]. split; [done|].
    repeat split; by apply js_or_truthy.
  - eexists. split; [reflexivity|]. split; [done|]. split; [done|].
    split; [done|]. by intros j [=].
Qed.

(** ** Case details *)

Lemma lower_ascii_colon (c : ascii) : lower_ascii c = ":"%char -> c = ":"%char.
Proof.
  destruct c as [[] [] [] [] [] [] [] []]; vm_compute; intros H;
    first [reflexivity | discriminate H].
Qed.

Lemma strip_prefix_has_char (c : ascii) (p s r : string) :
  lower_ascii c = c -> (forall b, lower_ascii b = c -> b = c) ->
  has_char c p = true -> strip_prefix p s = Some r -> has_char c s = true.
Proof.
  intros Hc Hlow. revert s. induction p as [|a p IH]; intros s; simpl; [done|].
  destruct s as [|b s]; [done|]. simpl.
  destruct (Ascii.eqb_spec a (lower_ascii b)) as [->|Hne]; [|done].
  destruct (Ascii.eqb_spec (lower_ascii b) c) as [Heq|Hne]; simpl.
  - intros _ _. apply Hlow in Heq as ->. by rewrite Ascii.eqb_refl.
  - intros Hp Hs. rewrite (IH s Hp Hs). by rewrite orb_true_r.
Qed.

(** A string without a colon has no scheme: [new URL] rejects it. *)
Lemma URL_parse_no_colon (url : string) :
  has_char ":" url = false -> URL_parse url = Throw.
Proof.
  intros Hno. unfold URL_parse.
  destruct (strip_prefix "https:" url) as [r|] eqn:Hs.
  { apply (strip_prefix_has_char ":") in Hs; [congruence|done|apply lower_ascii_colon|done]. }
  destruct (strip_prefix "http:" url) as [r|] eqn:Hp; [|done].
  apply (strip_prefix_has_char ":") in Hp; [congruence|done|apply lower_ascii_colon|done].
Qed.

Lemma scrapeCaseDetails_run (w : World) (load : string -> Document)
    (src : string) (id : value) (link : string) (s : state) :
  exists r s2 evs,
    Details.scrapeCaseDetails w load src id link s = (Ok r, s2)
    /\ trace s2 = trace s ++ evs
    /\ (forall d, r = Some d ->
          rid d = id /\ url d = Str link /\ source d = Str src
          /\ src ∈ detail_sources /\ HttpGet link [] ∈ evs)
    /\ (src ∉ detail_sources -> r = None)
    /\ (URL_parse link = Throw ->
        r = None /\ evs = [Log ("Error scraping details for " +:+ link +:+ ":")])
    /\ (forall u limiter,
          URL_parse link = Ok u -> RateLimit limiter ∈ evs -> limiter = hostname u)
    /\ (forall u,
          URL_parse link = Ok u -> inherited (hostname u) = false -> permissive s ->
          exists robots rest,
            evs = robots ++ [RateLimit (hostname u); HttpGet link []] ++ rest
            /\ robots_events (hostname u) robots
            /\ (rest = [] \/ rest = [Log ("Error scraping details for " +:+ link +:+ ":")])).
Proof.
  unfold Details.scrapeCaseDetails, catch, bind at 1, lift.
  destruct (URL_parse link) as [u|] eqn:Hurl; cbn beta iota.
  2:{ unfold bind, emit, ret. eexists None, _, _. cbn [trace].
      split; [reflexivity|]. split; [reflexivity|].
      split; [by intros d [=]|]. by repeat split. }
  destruct (isScrapingAllowed_run w link s)
    as (allowed & s1 & evs & Hrun & Htr & _ & Hlimit & _).
  assert (Hopen : inherited (hostname u) = false -> permissive s ->
                  allowed = true /\ robots_events (hostname u) evs).
  { intros Hin Hs.
    destruct (isScrapingAllowed_policy w link s u Hurl Hin)
      as (policy & s1' & evs' & Hrun' & Htr' & _ & Hevs' & Hperm).
    rewrite Hrun in Hrun'. injection Hrun' as -> <-.
    destruct (Hperm Hs) as [_ ->]. split; [done|].
    rewrite Htr in Htr'. by apply app_inv_head in Htr' as ->. }
  rewrite Forall_forall in Hlimit.
  unfold bind at 1. rewrite Hrun. cbn beta iota.
  destruct allowed; cbn [negb]; cbn beta iota.
  2:{ unfold bind, emit, ret. eexists None, _, _. cbn [trace]. rewrite Htr, <- app_assoc.
      split; [reflexivity|]. split; [reflexivity|].
      split; [by intros d [=]|]. split; [done|]. split; [done|]. split.
      - intros u' limiter _ [Hin|Hin]%elem_of_app; [by apply Hlimit in Hin|].
        by apply list_elem_of_singleton in Hin.
      - intros u' [= <-] Hin Hs. by destruct (Hopen Hin Hs). }
  assert (Hevs : forall rest : list event,
             (forall e, e ∈ rest -> is_limit e = false) ->
             rest = [] \/ rest = [Log ("Error scraping details for " +:+ link +:+ ":")] ->
             (forall u' limiter, Ok u = Ok u' ->
                RateLimit limiter ∈ evs ++ [RateLimit (hostname u); HttpGet link []] ++ rest ->
                limiter = hostname u')
             /\ (forall u', Ok u = Ok u' ->
                   inherited (hostname u') = false -> permissive s ->
                   exists robots rest',
                     evs ++ [RateLimit (hostname u); HttpGet link []] ++ rest
                     = robots ++ [RateLimit (hostname u'); HttpGet link []] ++ rest'
                     /\ robots_events (hostname u') robots
                     /\ (rest' = []
                         \/ rest' = [Log ("Error scraping details for " +:+ link +:+ ":")]))).
  { intros rest Hrest Hshape. split.
    - intros u' limiter [= <-] [Hin|Hin]%elem_of_app; [by apply Hlimit in Hin|].
      apply elem_of_cons in Hin as [[= ->]|Hin]; [done|].
      apply elem_of_cons in Hin as [[=]|Hin]. by apply Hrest in Hin.
    - intros u' [= <-] Hin Hs. destruct (Hopen Hin Hs) as [_ Hrobots].
      by exists evs, rest. }
  unfold Scraper.getRateLimiter, bind, emit, ret, throw.
  cbn [searchCache robotsTxtCache trace].
  destruct (http_get w link []) as [[html| | | |]|]; cbn beta iota;
    try (eexists None, _, _; cbn [trace]; rewrite Htr, <- !app_assoc;
         split; [reflexivity|]; split; [reflexivity|];
         split; [by intros d [=]|]; split; [done|]; split; [done|];
         apply Hevs; [by intros e ->%list_elem_of_singleton | by right]).
  destruct (String.eqb_spec src "Stanford Law Review") as [->|Hn1];
    [|destruct (String.eqb_spec src "Harvard Law Review") as [->|Hn2];
      [|destruct (String.eqb_spec src "Yale Law Journal") as [->|Hn3];
        [|destruct (String.eqb_spec src "Supreme Court of the United States")
            as [->|Hn4]]]];
    cbn beta iota;
    try (eexists _, _, _; cbn [trace]; rewrite Htr, <- !app_assoc;
         split; [reflexivity|]; split; [reflexivity|];
         split; [intros d [= <-]; cbn [rid url source];
                 split; [done|]; split; [done|]; split; [done|];
                 split; [apply list_elem_of_In; simpl; tauto|];
                 apply elem_of_app; right; apply list_elem_of_further, list_elem_of_here|];
         split; [intros Hout; exfalso; apply Hout, list_elem_of_In; simpl; tauto|];
         split; [done|];
         apply (Hevs []); [by intros e ?%elem_of_nil | by left]).
  eexists None, _, _. cbn [trace]. rewrite Htr, <- !app_assoc.
  split; [reflexivity|]. split; [reflexivity|].
  split; [by intros d [=]|]. split; [done|]. split; [done|].
  apply (Hevs []); [by intros e ?%elem_of_nil | by left].
Qed.

(** X26.  [scrapeCaseDetails] always returns, with a record or with null.  A
    record it returns carries the caller's id, URL and source unchanged, its
    source is one of the four the function knows, and its page has been
    requested; for any other source the result is null; and a URL without a
    colon, which cannot name a scheme, yields null with nothing but the
    error logged. *)
Theorem scrapeCaseDetails_replies (w : World) (load : string -> Document)
    (src : string) (id : value) (link : string) (s : state) :
  exists r,
    fst (Details.scrapeCaseDetails w load src id link s) = Ok r
    /\ (forall d, r = Some d ->
          rid d = id /\ url d = Str link /\ source d = Str src
          /\ src ∈ detail_sources
          /\ HttpGet link [] ∈ appended (Details.scrapeCaseDetails w load src id link s) s)
    /\ (src ∉ detail_sources -> r = None)
    /\ (has_char ":" link = false ->
        r = None
        /\ appended (Details.scrapeCaseDetails w load src id link s) s
           = [Log ("Error scraping details for " +:+ link +:+ ":")]).
Proof.
  destruct (scrapeCaseDetails_run w load src id link s)
    as (r & s2 & evs & Hrun & Htr & Hsome & Hunknown & Hbad & _).
  exists r. rewrite Hrun, (appended_extends (Ok r, s2) s evs Htr). cbn [fst].
  split; [done|]. split; [exact Hsome|]. split; [exact Hunknown|].
  intros Hno. by apply Hbad, URL_parse_no_colon.
Qed.

Example relative_link_is_not_fetched :
  Details.scrapeCaseDetails open_world miranda_page "Yale Law Journal"
    (Str "yale-miranda") "/a/miranda" initial
  = (Ok None,
     mkState [] ∅ [Log "Error scraping details for /a/miranda:"]).
Proof. reflexivity. Qed.

(** X27.  The robots check of [scrapeCaseDetails] never holds a request
    back for want of permission: the policy it consults is always the
    permissive default, because the parser of a fetched robots.txt cannot
    be called.  In a process that has only run this code
    (its cached policies are permissive), for a URL that [new URL] parses
    ([URL_parse] models an [http:] or [https:] URL with a plain host name
    and path), the function makes at most the request for the host's
    robots.txt, logs its failure, awaits the limiter of the host and
    requests the page.  The one exception is a host named like a property
    the cache object inherits: there the check itself fails, and the result
    is null with no request made. *)
Theorem scrapeCaseDetails_never_blocked (w : World) (load : string -> Document)
    (src : string) (id : value) (link : string) (s : state) (u : URL) :
  URL_parse link = Ok u ->
  permissive s ->
  (inherited (hostname u) = false ->
   exists robots rest,
     appended (Details.scrapeCaseDetails w load src id link s) s
     = robots ++ [RateLimit (hostname u); HttpGet link []] ++ rest
     /\ robots_events (hostname u) robots
     /\ (rest = [] \/ rest = [Log ("Error scraping details for " +:+ link +:+ ":")]))
  /\ (inherited (hostname u) = true ->
      robotsTxtCache s !! hostname u = None ->
      fst (Details.scrapeCaseDetails w load src id link s) = Ok None
      /\ appended (Details.scrapeCaseDetails w load src id link s) s
         = [Log "Error checking scraping permission:";
            Log ("Scraping not allowed for " +:+ link)]).
Proof.
  intros Hurl Hs. split.
  - intros Hin.
    destruct (scrapeCaseDetails_run w load src id link s)
      as (r & s2 & evs & Hrun & Htr & _ & _ & _ & _ & Hopen).
    rewrite Hrun, (appended_extends (Ok r, s2) s evs Htr).
    by apply (Hopen u).
  - intros Hin Hnone.
    assert (Hfull : Details.scrapeCaseDetails w load src id link s
                    = (Ok None,
                       mkState (searchCache s) (robotsTxtCache s)
                         (trace s ++ [Log "Error checking scraping permission:";
                                      Log ("Scraping not allowed for " +:+ link)]))).
    { unfold Details.scrapeCaseDetails, catch, bind at 1, lift. rewrite Hurl.
      cbn beta iota. unfold bind at 1.
      rewrite (isScrapingAllowed_inherited _ _ _ _ Hurl Hnone Hin). cbn [negb].
      cbn beta iota. unfold bind, emit, ret. cbn [trace searchCache robotsTxtCache].
      by rewrite <- app_assoc. }
    rewrite Hfull. split; [done|]. by apply appended_extends.
Qed.

Lemma scrapeCaseDetails_never_blocked_witness :
  (inherited "www.yalelawjournal.org" = false ->
   exists robots rest,
     appended (Details.scrapeCaseDetails open_world miranda_page "Yale Law Journal"
                 (Str "yale-miranda") "HTTPS://www.YaleLawJournal.org/a/miranda" initial)
              initial
     = robots ++ [RateLimit "www.yalelawjournal.org";
                  HttpGet "HTTPS://www.YaleLawJournal.org/a/miranda" []] ++ rest
     /\ robots_events "www.yalelawjournal.org" robots
     /\ (rest = []
         \/ rest = [Log ("Error scraping details for "
                           +:+ "HTTPS://www.YaleLawJournal.org/a/miranda" +:+ ":")]))
  /\ (inherited "www.yalelawjournal.org" = true ->
      robotsTxtCache initial !! "www.yalelawjournal.org" = None ->
      fst (Details.scrapeCaseDetails open_world miranda_page "Yale Law Journal"
             (Str "yale-miranda") "HTTPS://www.YaleLawJournal.org/a/miranda" initial)
      = Ok None
      /\ appended (Details.scrapeCaseDetails open_world miranda_page "Yale Law Journal"
                     (Str "yale-miranda") "HTTPS://www.YaleLawJournal.org/a/miranda"
                     initial) initial
         = [Log "Error checking scraping permission:";
            Log ("Scraping not allowed for "
                   +:+ "HTTPS://www.YaleLawJournal.org/a/miranda")]).
Proof.
  apply (scrapeCaseDetails_never_blocked open_world miranda_page "Yale Law Journal"
           (Str "yale-miranda") "HTTPS://www.YaleLawJournal.org/a/miranda" initial
           (mkURL "www.yalelawjournal.org" "/a/miranda")).
  - reflexivity.
  - intros domain policy Hcached. vm_compute in Hcached. discriminate Hcached.
Defined.

Example inherited_host_is_not_fetched :
  Details.scrapeCaseDetails open_world miranda_page "Yale Law Journal"
    (Str "yale-miranda") "https://constructor/a/miranda" initial
  = (Ok None,
     mkState [] ∅ [Log "Error checking scraping permission:";
                   Log "Scraping not allowed for https://constructor/a/miranda"]).
Proof. reflexivity. Qed.

(** X28.  [scrapeCaseDetails] looks at the source only after the page has
    been fetched: for a source it does not know and a URL that [new URL]
    parses, whose host is not named like an inherited property, in a
    process that has only run this code, the limiter of the host is awaited
    and the page is requested although the result can only be null. *)
Theorem unknown_source_fetched_in_vain (w : World) (load : string -> Document)
    (src : string) (id : value) (link : string) (s : state) (u : URL) :
  URL_parse link = Ok u ->
  inherited (hostname u) = false ->
  permissive s ->
  src ∉ detail_sources ->
  fst (Details.scrapeCaseDetails w load src id link s) = Ok None
  /\ RateLimit (hostname u) ∈ appended (Details.scrapeCaseDetails w load src id link s) s
  /\ HttpGet link [] ∈ appended (Details.scrapeCaseDetails w load src id link s) s.
Proof.
  intros Hurl Hin Hs Hsrc.
  destruct (scrapeCaseDetails_run w load src id link s)
    as (r & s2 & evs & Hrun & Htr & _ & Hunknown & _ & _ & Hopen).
  rewrite Hrun, (appended_extends (Ok r, s2) s evs Htr). cbn [fst].
  split; [by rewrite (Hunknown Hsrc)|].
  destruct (Hopen u Hurl Hin Hs) as (robots & rest & -> & _).
  split; apply elem_of_app; right;
    [apply list_elem_of_here | apply list_elem_of_further, list_elem_of_here].
Qed.

Lemma unknown_source_fetched_in_vain_witness :
  fst (Details.scrapeCaseDetails open_world miranda_page "Columbia Law Review"
         (Str "columbia-1") "https://columbialawreview.org/content/miranda" initial)
  = Ok None
  /\ RateLimit "columbialawreview.org"
     ∈ appended (Details.scrapeCaseDetails open_world miranda_page "Columbia Law Review"
                   (Str "columbia-1") "https://columbialawreview.org/content/miranda"
                   initial) initial
  /\ HttpGet "https://columbialawreview.org/content/miranda" []
     ∈ appended (Details.scrapeCaseDetails open_world miranda_page "Columbia Law Review"
                   (Str "columbia-1") "https://columbialawreview.org/content/miranda"
                   initial) initial.
Proof.
  apply (unknown_source_fetched_in_vain open_world miranda_page "Columbia Law Review"
           (Str "columbia-1") "https://columbialawreview.org/content/miranda" initial
           (mkURL "columbialawreview.org" "/content/miranda")).
  - reflexivity.
  - reflexivity.
  - intros domain policy Hcached. vm_compute in Hcached. discriminate Hcached.
  - vm_compute. intros Hin. apply list_elem_of_In in Hin. simpl in Hin.
    destruct_or!; done.
Defined.

(** The host of a URL built on one of the two [www.] sites, whatever the
    site-relative link. *)
Lemma URL_parse_site_host (path : string) (u : URL) :
  (URL_parse ("https://www.yalelawjournal.org/" +:+ path) = Ok u ->
   hostname u = "www.yalelawjournal.org")
  /\ (URL_parse ("https://www.supremecourt.gov/" +:+ path) = Ok u ->
      hostname u = "www.supremecourt.gov").
Proof.
  split; unfold URL_parse; simpl;
    match goal with |- context [if ?b then _ else _] => destruct b end;
    [by intros [= <-] | done | by intros [= <-] | done].
Qed.

(** X29.  The limiter [scrapeCaseDetails] awaits is looked up by the host
    name of the URL.  For the URLs the Yale and Supreme Court formatters
    build from a site-relative link the host name starts with [www.], under
    which [scrapingRateLimits] has no entry, so the detail requests to these
    two sites never wait for the limiter configured for the site. *)
Theorem details_limiter_unconfigured (w : World) (load : string -> Document)
    (src : string) (id : value) (path : string) (s : state) (limiter : string) :
  RateLimit limiter
  ∈ appended (Details.scrapeCaseDetails w load src id
                ("https://www.yalelawjournal.org/" +:+ path) s) s
  \/ RateLimit limiter
     ∈ appended (Details.scrapeCaseDetails w load src id
                   ("https://www.supremecourt.gov/" +:+ path) s) s ->
  limiter ∈ ["www.yalelawjournal.org"; "www.supremecourt.gov"]
  /\ limiter ∉ scrapingRateLimits.
Proof.
  assert (Hhost : forall host link,
             (forall u, URL_parse link = Ok u -> hostname u = host) ->
             RateLimit limiter ∈ appended (Details.scrapeCaseDetails w load src id link s) s ->
             limiter = host).
  { intros host link Hurl.
    destruct (scrapeCaseDetails_run w load src id link s)
      as (r & s2 & evs & Hrun & Htr & _ & _ & Hbad & Hlimiter & _).
    rewrite Hrun, (appended_extends (Ok r, s2) s evs Htr).
    destruct (URL_parse link) as [u|].
    - intros Hin. rewrite <- (Hurl u eq_refl). by apply Hlimiter.
    - destruct (Hbad eq_refl) as [_ ->]. by intros [=]%list_elem_of_singleton. }
  intros [Hin|Hin].
  - apply (Hhost "www.yalelawjournal.org" _
             (fun u => proj1 (URL_parse_site_host path u))) in Hin as ->.
    split; [left|]. unfold scrapingRateLimits. rewrite list_elem_of_In. simpl.
    intros H. destruct_or!; done.
  - apply (Hhost "www.supremecourt.gov" _
             (fun u => proj2 (URL_parse_site_host path u))) in Hin as ->.
    split; [right; left|]. unfold scrapingRateLimits. rewrite list_elem_of_In. simpl.
    intros H. destruct_or!; done.
Qed.

Lemma details_limiter_unconfigured_witness :
  "www.yalelawjournal.org" ∈ ["www.yalelawjournal.org"; "www.supremecourt.gov"]
  /\ "www.yalelawjournal.org" ∉ scrapingRateLimits.
Proof.
  apply (details_limiter_unconfigured open_world miranda_page "Yale Law Journal"
           (Str "yale-miranda") "a/miranda" initial "www.yalelawjournal.org").
  left. vm_compute. repeat constructor.
Defined.

Example yale_details_run :
  appended (Details.scrapeCaseDetails open_world miranda_page "Yale Law Journal"
              (Str "yale-miranda") "https://www.yalelawjournal.org/a/miranda" initial)
           initial
  = [HttpGet "https://www.yalelawjournal.org/robots.txt" [];
     Log "Error fetching robots.txt for www.yalelawjournal.org:";
     RateLimit "www.yalelawjournal.org";
     HttpGet "https://www.yalelawjournal.org/a/miranda" []]
  /\ appended (Scraper.scrapeYaleLawJournal open_world (Str "miranda") initial) initial
     = [HttpGet "https://www.yalelawjournal.org/robots.txt" [];
        Log "Error fetching robots.txt for www.yalelawjournal.org:";
        RateLimit "yalelawjournal.org";
        HttpGet "https://www.yalelawjournal.org/search?q=miranda" []].
Proof. split; reflexivity. Qed.

(** ** Citations *)

(** X30.  A failure of either citation lookup discards the result of the
    other: both lookups are issued, the error is logged, and the network
    returned has no citing and no cited case, whatever the lookup that
    succeeded found. *)
Theorem citation_failure_discards_both (w : World) (id direction : string)
    (depth : Z) (s : state) :
  citations_by_target w id = None \/ citations_by_source w id = None ->
  fst (getCitationNetwork w id direction depth s) = Ok {| citedBy := []; cites := [] |}
  /\ appended (getCitationNetwork w id direction depth s) s
     = [CitationsByTarget id; CitationsBySource id; Log "Citation retrieval error:"].
Proof.
  intros Hfail. unfold getCitationNetwork, bind, emit, ret.
  cbn [searchCache robotsTxtCache trace].
  destruct (citations_by_target w id) as [citedBy|], (citations_by_source w id) as [cites|];
    try (by destruct Hfail);
    (split; [reflexivity|]); apply appended_extends; cbn [snd trace];
    by rewrite <- !app_assoc.
Qed.

Lemma citation_failure_discards_both_witness :
  fst (getCitationNetwork half_broken_world "42" "cited" 1 initial)
  = Ok {| citedBy := []; cites := [] |}
  /\ appended (getCitationNetwork half_broken_world "42" "cited" 1 initial) initial
     = [CitationsByTarget "42"; CitationsBySource "42"; Log "Citation retrieval error:"].
Proof.
  apply (citation_failure_discards_both half_broken_world "42" "cited" 1 initial).
  right. reflexivity.
Defined.
